(** * Task-inference pipeline: a shallow embedding and its properties

    The development embeds the four-stage pipeline of
    [backend/app/agents/task_inference.py] together with the parts of
    [backend/app/agents/llm_clients.py] and [backend/app/models/task.py] it
    relies on, and proves properties of the stages.

    Conventions of the embedding:
    - Python values that come out of [json.loads] are terms of type [json];
      a [float] is a finite value, represented by its exact rational value,
      an infinity or NaN.
    - A Python [str] is a [string] whose characters are read as code points
      below 256 (Latin-1).
    - A computation that may raise is a [result]; [except Exception] is
      [try_except].
    - The outside world (the two model services, the JSON and ISO-8601
      parsers of the standard library, the clock and the database session)
      is a record [World] of oracles. *)

From Stdlib Require Import ZArith QArith Lia Bool.
From Stdlib Require Import Strings.Ascii Strings.String.
From Stdlib Require Import DecimalString.
From stdpp Require Import base list gmap strings.

#[local] Set Warnings "-register-all".

Local Open Scope string_scope.
Local Open Scope list_scope.
Local Open Scope Z_scope.

(** ** Exceptions and the [result] monad *)

Inductive exn : Type :=
  | ValueError
  | TypeError
  | AttributeError
  | KeyError
  | OverflowError
  | ConnectionError
  | OtherError (msg : string).

Inductive result (A : Type) : Type :=
  | Ok (a : A)
  | Raise (e : exn).

Arguments Ok {A} a.
Arguments Raise {A} e.

#[global] Instance result_ret : MRet result := fun A a => Ok a.

#[global] Instance result_bind : MBind result := fun A B f m =>
  match m with
  | Ok a => f a
  | Raise e => Raise e
  end.

(** [try: m except Exception as e: h e] *)
Definition try_except {A : Type} (m : result A) (h : exn -> result A) : result A :=
  match m with
  | Ok a => Ok a
  | Raise e => h e
  end.

Definition returns {A : Type} (m : result A) : Prop := exists a, m = Ok a.

(** ** Python strings *)

Module Py.

(** [str.isspace] on one character (code points below 256). *)
Definition isspace (c : ascii) : bool :=
  let n := N_of_ascii c in
  ((9 <=? n) && (n <=? 13) || (28 <=? n) && (n <=? 32) || (n =? 133) || (n =? 160))%N.

(** [str.lower] on one character: A-Z and the Latin-1 capitals. *)
Definition lower_char (c : ascii) : ascii :=
  let n := N_of_ascii c in
  if ((65 <=? n) && (n <=? 90) || (192 <=? n) && (n <=? 222) && negb (n =? 215))%N
  then ascii_of_N (n + 32)
  else c.

Fixpoint lower (s : string) : string :=
  match s with
  | EmptyString => EmptyString
  | String c s' => String (lower_char c) (lower s')
  end.

Fixpoint lstrip (s : string) : string :=
  match s with
  | EmptyString => EmptyString
  | String c s' => if isspace c then lstrip s' else s
  end.

Fixpoint rstrip (s : string) : string :=
  match s with
  | EmptyString => EmptyString
  | String c s' =>
      match rstrip s' with
      | EmptyString => if isspace c then EmptyString else String c EmptyString
      | r => String c r
      end
  end.

Definition strip (s : string) : string := rstrip (lstrip s).

Definition is_empty (s : string) : bool :=
  match s with
  | EmptyString => true
  | String _ _ => false
  end.

(** [sub in s] *)
Fixpoint contains (sub s : string) : bool :=
  if String.prefix sub s then true
  else match s with
       | EmptyString => false
       | String _ s' => contains sub s'
       end.

Fixpoint drop (n : nat) (s : string) : string :=
  match n, s with
  | O, _ => s
  | S n', String _ s' => drop n' s'
  | S _, EmptyString => EmptyString
  end.

Fixpoint find_aux (sub s : string) (i : nat) : option nat :=
  if String.prefix sub s then Some i
  else match s with
       | EmptyString => None
       | String _ s' => find_aux sub s' (S i)
       end.

(** [s.find(sub, start)] for a non-empty [sub]: the index of the first
    occurrence at or after [start], or -1. *)
Definition find (sub s : string) (start : nat) : Z :=
  match find_aux sub (drop start s) start with
  | Some i => Z.of_nat i
  | None => -1
  end.

(** [s[a:b]] for [a >= 0]; a negative [b] counts from the end. *)
Definition slice (s : string) (a : nat) (b : Z) : string :=
  let n := Z.of_nat (String.length s) in
  let b' := if b <? 0 then Z.max 0 (n + b) else Z.min b n in
  String.substring a (Z.to_nat (b' - Z.of_nat a)) s.

Definition isdigit (c : ascii) : bool :=
  let n := N_of_ascii c in ((48 <=? n) && (n <=? 57))%N.

(** The longest prefix of decimal digits and what follows it. *)
Fixpoint span_digits (s : string) : string * string :=
  match s with
  | EmptyString => (EmptyString, EmptyString)
  | String c s' =>
      if isdigit c
      then let '(ds, rest) := span_digits s' in (String c ds, rest)
      else (EmptyString, s)
  end.

(** The value of a string of decimal digits, read after the digits that
    gave [acc]. *)
Fixpoint int_digits (acc : Z) (ds : string) : Z :=
  match ds with
  | EmptyString => acc
  | String c ds' => int_digits (10 * acc + (Z.of_N (N_of_ascii c) - 48)) ds'
  end.

(** [sys.get_int_max_str_digits()] as CPython sets it (from 3.11 on, and in
    the security releases of 3.7 to 3.10). *)
Definition INT_MAX_STR_DIGITS : Z := 4300.

(** [int(ds)] for a string of decimal digits: a string of more digits than
    the limit, leading zeros counted, is refused with a [ValueError]. *)
Definition int_of_digits (ds : string) : result Z :=
  if INT_MAX_STR_DIGITS <? Z.of_nat (String.length ds) then Raise ValueError
  else Ok (int_digits 0 ds).

(** The regular expression [in (\d+) days?] anchored at the start of [s]:
    the greedy digit group is followed by a space, so only the longest run
    of digits can match. Returns group 1. *)
Definition match_in_days (s : string) : option string :=
  if String.prefix "in " s then
    let '(ds, rest) := span_digits (drop 3 s) in
    if is_empty ds then None
    else if String.prefix " day" rest then Some ds else None
  else None.

(** [re.search(r"in (\d+) days?", s)]: the leftmost match, group 1. *)
Fixpoint re_search_in_days (s : string) : option string :=
  match match_in_days s with
  | Some ds => Some ds
  | None =>
      match s with
      | EmptyString => None
      | String _ s' => re_search_in_days s'
      end
  end.

End Py.

(** ** Numbers

    The value of a Python number as the order comparisons see it. A [float]
    is finite, an infinity or NaN: [json.loads] reads the literals [NaN],
    [Infinity] and [-Infinity], and turns a literal beyond the range of a
    [float] into an infinity. Comparisons between an [int] and a [float]
    are exact, and every order comparison with NaN is false. *)

Inductive number : Type :=
  | Finite (q : Q)
  | PosInf
  | NegInf
  | NaN.

Definition Qltb (a b : Q) : bool := negb (Qle_bool b a).

(** [x < n] for an integer [n] *)
Definition lt_int (x : number) (n : Z) : bool :=
  match x with
  | Finite q => Qltb q (inject_Z n)
  | NegInf => true
  | PosInf | NaN => false
  end.

(** [x > n] for an integer [n] *)
Definition gt_int (x : number) (n : Z) : bool :=
  match x with
  | Finite q => Qltb (inject_Z n) q
  | PosInf => true
  | NegInf | NaN => false
  end.

(** ** JSON values *)

Inductive json : Type :=
  | JNull
  | JBool (b : bool)
  | JInt (z : Z)
  | JFloat (x : number)
  | JStr (s : string)
  | JList (l : list json)
  | JDict (d : list (string * json)).

Fixpoint assoc (k : string) (d : list (string * json)) : option json :=
  match d with
  | [] => None
  | (k', v) :: d' => if String.eqb k k' then Some v else assoc k d'
  end.

(** The numeric value of an [int], [float] or [bool]. *)
Definition as_number (v : json) : option number :=
  match v with
  | JInt z => Some (Finite (inject_Z z))
  | JFloat x => Some x
  | JBool b => Some (Finite (inject_Z (if b then 1 else 0)))
  | _ => None
  end.

(** [v < n] for an integer [n]: a [TypeError] unless [v] is a number. *)
Definition py_lt_int (v : json) (n : Z) : result bool :=
  match as_number v with
  | Some x => Ok (lt_int x n)
  | None => Raise TypeError
  end.

(** [v > n] for an integer [n]. *)
Definition py_gt_int (v : json) (n : Z) : result bool :=
  match as_number v with
  | Some x => Ok (gt_int x n)
  | None => Raise TypeError
  end.

(** [d.get(k, default)]: only a dict has [get]. *)
Definition py_get (v : json) (k : string) (default : json) : result json :=
  match v with
  | JDict d => Ok (from_option id default (assoc k d))
  | _ => Raise AttributeError
  end.

(** [d[k]] for a string key. *)
Definition py_getitem (v : json) (k : string) : result json :=
  match v with
  | JDict d => match assoc k d with Some x => Ok x | None => Raise KeyError end
  | _ => Raise TypeError
  end.

(** [s.strip()]: only a string has [strip]. *)
Definition py_strip (v : json) : result string :=
  match v with
  | JStr s => Ok (Py.strip s)
  | _ => Raise AttributeError
  end.

(** [bool(v)] *)
Definition truthy (v : json) : bool :=
  match v with
  | JNull => false
  | JBool b => b
  | JInt z => negb (z =? 0)
  | JFloat (Finite q) => negb (Qeq_bool q 0)
  | JFloat _ => true
  | JStr s => negb (Py.is_empty s)
  | JList l => match l with [] => false | _ => true end
  | JDict d => match d with [] => false | _ => true end
  end.

(** [for x in v]: the items a [for] loop visits. *)
Definition py_iter (v : json) : result (list json) :=
  match v with
  | JList l => Ok l
  | JDict d => Ok (map (fun kv => JStr (fst kv)) d)
  | JStr s => Ok (map (fun c => JStr (String c EmptyString)) (list_ascii_of_string s))
  | _ => Raise TypeError
  end.

(** [v[:n]] *)
Definition py_prefix (n : nat) (v : json) : result json :=
  match v with
  | JStr s => Ok (JStr (Py.slice s 0 (Z.of_nat n)))
  | JList l => Ok (JList (take n l))
  | _ => Raise TypeError
  end.

(** ** Dates

    A naive [datetime]: the proleptic Gregorian ordinal of the day (1 is
    0001-01-01, [MAXORDINAL] is 9999-12-31) and the time of day. *)

Record datetime : Type := {
  ordinal : Z;
  hour : Z;
  minute : Z;
  second : Z;
  microsecond : Z
}.

Definition MAXORDINAL : Z := 3652059.

(** [timedelta(days=n)]: the constructor refuses more than 999999999 days. *)
Definition timedelta_days (n : Z) : result Z :=
  if Z.abs n >? 999999999 then Raise OverflowError else Ok n.

(** [dt + delta] for a whole number of days: the result has to be a date
    between 0001-01-01 and 9999-12-31. *)
Definition datetime_add (dt : datetime) (days : Z) : result datetime :=
  let o := ordinal dt + days in
  if (0 <? o) && (o <=? MAXORDINAL)
  then Ok {| ordinal := o; hour := hour dt; minute := minute dt;
             second := second dt; microsecond := microsecond dt |}
  else Raise OverflowError.

(** [dt + timedelta(days=n)] *)
Definition plus_days (dt : datetime) (n : Z) : result datetime :=
  d ← timedelta_days n; datetime_add dt d.

(** [dt.replace(hour=h, minute=mi, second=s, microsecond=us)] *)
Definition replace_time (dt : datetime) (h mi s us : Z) : datetime :=
  {| ordinal := ordinal dt; hour := h; minute := mi; second := s; microsecond := us |}.

(** [_parse_relative_date], with the reading of [datetime.now()] as [now]. *)
Definition _parse_relative_date (now : datetime) (date_str : string) : result datetime :=
  let date_str_lower := Py.strip (Py.lower date_str) in
  if Py.contains "tomorrow" date_str_lower then plus_days now 1
  else if Py.contains "next week" date_str_lower then plus_days now (7 * 1)
  else if Py.contains "eod" date_str_lower || Py.contains "end of day" date_str_lower
  then Ok (replace_time now 17 0 0 0)
  else if Py.contains "next month" date_str_lower then plus_days now 30
  else match Py.re_search_in_days date_str_lower with
       | Some digits => days ← Py.int_of_digits digits; plus_days now days
       | None => plus_days now 1
       end.

(** ** The task model ([models/task.py]) *)

Record Task : Type := {
  title : json;
  description : json;
  context : json;
  status : string;
  priority : json;
  confidence_score : json;
  source_type : string;
  source_id : string;
  due_date : option datetime;
  inferred_at : datetime
}.

Definition TaskStatus : list string := ["todo"; "in_progress"; "done"].

Definition validate_status (value : string) : result string :=
  if existsb (String.eqb value) TaskStatus then Ok value else Raise ValueError.

(** [if value < 0 or value > 100: raise ValueError] *)
Definition validate_confidence_score (value : json) : result json :=
  below ← py_lt_int value 0;
  if below : bool then Raise ValueError
  else above ← py_gt_int value 100;
       if above : bool then Raise ValueError else Ok value.

(** [if value is not None and (value < 1 or value > 5): raise ValueError] *)
Definition validate_priority (value : json) : result json :=
  match value with
  | JNull => Ok value
  | _ =>
      below ← py_lt_int value 1;
      if below : bool then Raise ValueError
      else above ← py_gt_int value 5;
           if above : bool then Raise ValueError else Ok value
  end.

(** [Task(title=..., ...)]: the attributes are set in keyword order and the
    [@validates] hooks run as they are set. *)
Definition Task_new (title description context : json) (status : string)
    (priority confidence_score : json) (source_type source_id : string)
    (due_date : option datetime) (inferred_at : datetime) : result Task :=
  status' ← validate_status status;
  priority' ← validate_priority priority;
  confidence' ← validate_confidence_score confidence_score;
  Ok {| title := title; description := description; context := context;
        status := status'; priority := priority'; confidence_score := confidence';
        source_type := source_type; source_id := source_id;
        due_date := due_date; inferred_at := inferred_at |}.

(** [str(n)] for an [int]. *)
Definition py_str_int (n : Z) : string := NilZero.string_of_int (Z.to_int n).

(** ** Pipeline state and the outside world *)

(** An entry of [state["errors"]]: the three message prefixes of the source,
    with the exception each message is formatted from. *)
Inductive diagnostic : Type :=
  | TaskExtractionFailed (e : exn)
  | FailedToCreateTask (e : exn)
  | DatabaseCommitFailed (e : exn).

Record TaskInferenceState : Type := {
  content : string;
  source : string;
  message_id : Z;
  is_actionable : bool;
  extracted_tasks : json;
  validated_tasks : list json;
  confidence_scores : list json;
  created_tasks : list Task;
  errors : list diagnostic
}.

Definition with_is_actionable (b : bool) (s : TaskInferenceState) : TaskInferenceState :=
  {| content := content s; source := source s; message_id := message_id s;
     is_actionable := b; extracted_tasks := extracted_tasks s;
     validated_tasks := validated_tasks s; confidence_scores := confidence_scores s;
     created_tasks := created_tasks s; errors := errors s |}.

Definition with_extracted_tasks (v : json) (s : TaskInferenceState) : TaskInferenceState :=
  {| content := content s; source := source s; message_id := message_id s;
     is_actionable := is_actionable s; extracted_tasks := v;
     validated_tasks := validated_tasks s; confidence_scores := confidence_scores s;
     created_tasks := created_tasks s; errors := errors s |}.

Definition with_validated_tasks (l : list json) (s : TaskInferenceState) : TaskInferenceState :=
  {| content := content s; source := source s; message_id := message_id s;
     is_actionable := is_actionable s; extracted_tasks := extracted_tasks s;
     validated_tasks := l; confidence_scores := confidence_scores s;
     created_tasks := created_tasks s; errors := errors s |}.

Definition with_confidence_scores (l : list json) (s : TaskInferenceState) : TaskInferenceState :=
  {| content := content s; source := source s; message_id := message_id s;
     is_actionable := is_actionable s; extracted_tasks := extracted_tasks s;
     validated_tasks := validated_tasks s; confidence_scores := l;
     created_tasks := created_tasks s; errors := errors s |}.

Definition with_created_tasks (l : list Task) (s : TaskInferenceState) : TaskInferenceState :=
  {| content := content s; source := source s; message_id := message_id s;
     is_actionable := is_actionable s; extracted_tasks := extracted_tasks s;
     validated_tasks := validated_tasks s; confidence_scores := confidence_scores s;
     created_tasks := l; errors := errors s |}.

Definition with_errors (l : list diagnostic) (s : TaskInferenceState) : TaskInferenceState :=
  {| content := content s; source := source s; message_id := message_id s;
     is_actionable := is_actionable s; extracted_tasks := extracted_tasks s;
     validated_tasks := validated_tasks s; confidence_scores := confidence_scores s;
     created_tasks := created_tasks s; errors := l |}.

(** The SQLAlchemy session: records added and not yet committed, and the
    rows of the table, each as the record the database gives back for it. *)
Record Session : Type := {
  pending : list Task;
  stored : list Task
}.

(** Calls that leave the process. *)
Inductive event : Type :=
  | CallClassifier (prompt : string)
  | CallExtractor (content : string).

(** What a run carries: the state dictionary, the session and the calls
    made so far. *)
Record Machine : Type := {
  st : TaskInferenceState;
  db : Session;
  calls : list event
}.

Definition with_st (s : TaskInferenceState) (m : Machine) : Machine :=
  {| st := s; db := db m; calls := calls m |}.

(** The settings the pipeline reads and the behaviour of everything outside
    the repository. An oracle answers [None] (or [Ok]) when the call
    succeeds and gives the exception otherwise. *)
Record World : Type := {
  USE_LOCAL_LLM_FOR_CLASSIFICATION : bool;
  MIN_CONFIDENCE_THRESHOLD : Z;
  ANTHROPIC_API_KEY : string;
  (** [ollama.generate(...)["response"]] for a prompt *)
  ollama_generate : string -> result string;
  (** [client.messages.create(...).content[0].text], by attempt number *)
  messages_create : nat -> string -> result string;
  (** [json.loads]; [None] is [JSONDecodeError] *)
  json_loads : string -> option json;
  (** [datetime.fromisoformat] on a string; [None] is [ValueError] *)
  fromisoformat : string -> option datetime;
  datetime_now : datetime;
  datetime_utcnow : datetime;
  db_add : Task -> option exn;
  db_commit : list Task -> option exn;
  db_refresh : Task -> option exn;
  (** the record as it is loaded back from the row written for it: column
      defaults filled in, values as the column types return them *)
  db_row : Task -> Task
}.

Definition NL : string := String (ascii_of_nat 10) EmptyString.

Definition TRIPLE_BACKTICK : string := "```".

(** [tenacity.retry(stop=stop_after_attempt(1 + more), reraise=True)]:
    attempt [i] is made, and on failure the next one while any is left; the
    last exception is raised again. *)
Fixpoint retrying {A : Type} (more : nat) (i : nat) (call : nat -> result A) : result A :=
  match call i, more with
  | Ok a, _ => Ok a
  | Raise e, O => Raise e
  | Raise _, S more' => retrying more' (S i) call
  end.

Section Pipeline.

Variable w : World.

(** *** [llm_clients.py] *)

(** [ClaudeClient.generate]; the fixed prompt text is left out and the
    request is identified by the content it carries. *)
Definition ClaudeClient_generate (user_content : string) : result string :=
  retrying 2 0 (fun attempt =>
    if Py.is_empty (ANTHROPIC_API_KEY w) then Raise ValueError
    else messages_create w attempt user_content).

(** The code-fence handling of [ClaudeClient.generate_json]. *)
Definition unfence (response_text : string) : string :=
  if Py.contains (TRIPLE_BACKTICK +:+ "json") response_text then
    let json_start := Z.to_nat (Py.find (TRIPLE_BACKTICK +:+ "json") response_text 0 + 7) in
    let json_end := Py.find TRIPLE_BACKTICK response_text json_start in
    Py.strip (Py.slice response_text json_start json_end)
  else if Py.contains TRIPLE_BACKTICK response_text then
    let json_start := Z.to_nat (Py.find TRIPLE_BACKTICK response_text 0 + 3) in
    let json_end := Py.find TRIPLE_BACKTICK response_text json_start in
    Py.strip (Py.slice response_text json_start json_end)
  else response_text.

Definition ClaudeClient_generate_json (user_content : string) : result json :=
  response_text ← ClaudeClient_generate user_content;
  match json_loads w (unfence response_text) with
  | Some v => Ok v
  | None => Raise ValueError
  end.

(** [OllamaClient.generate]: every failure becomes a [ConnectionError]. *)
Definition OllamaClient_generate (prompt : string) : result string :=
  try_except (ollama_generate w prompt) (fun _ => Raise ConnectionError).

Definition classifier_prompt (message : string) : string :=
  "Message: " +:+ Py.slice message 0 500 +:+ NL +:+ NL +:+ "Is this actionable?".

Definition OllamaClient_is_actionable (message : string) : result bool :=
  try_except
    (response ← OllamaClient_generate (classifier_prompt message);
     Ok (Py.contains "yes" (Py.slice (Py.lower response) 0 10)))
    (fun _ => Ok true).

(** *** Node 1 *)

(** [analyze_message] over any classifier with the interface of
    [OllamaClient.is_actionable]. *)
Definition analyze_message_with (classify : string -> result bool) (m : Machine)
  : result Machine :=
  let verdict :=
    try_except
      (if USE_LOCAL_LLM_FOR_CLASSIFICATION w
       then classify (content (st m))
       else Ok true)
      (fun _ => Ok true) in
  actionable ← verdict;
  Ok {| st := with_is_actionable actionable (st m);
        db := db m;
        calls := if USE_LOCAL_LLM_FOR_CLASSIFICATION w
                 then calls m ++ [CallClassifier (classifier_prompt (content (st m)))]
                 else calls m |}.

Definition analyze_message : Machine -> result Machine :=
  analyze_message_with OllamaClient_is_actionable.

(** *** Node 2 *)

(** The shape test on the parsed response. *)
Definition tasks_of_response (response_json : json) : json :=
  match response_json with
  | JList _ => response_json
  | JDict d =>
      match assoc "tasks" d with
      | Some tasks => tasks
      | None => JList []
      end
  | _ => JList []
  end.

(** The call [claude.generate_json(system_prompt, user_prompt, ...)]: its
    outcome, and the call as the trace of the run records it. *)
Definition call_generate_json (user_content : string) : result json * event :=
  (ClaudeClient_generate_json user_content, CallExtractor user_content).

(** What the [try] block of [extract_tasks] does with the answer of the
    client. *)
Definition extract_response (state : TaskInferenceState) (response_json : json)
  : result TaskInferenceState :=
  let tasks := tasks_of_response response_json in
  items ← py_iter tasks;
  scores ← mapM (fun task => py_get task "confidence" (JInt 50)) items;
  Ok (with_confidence_scores scores (with_extracted_tasks tasks state)).

(** The [try] block of [extract_tasks]: its outcome and the calls it made. *)
Definition extract_try (state : TaskInferenceState)
  : result TaskInferenceState * list event :=
  let call := call_generate_json (content state) in
  (response_json ← call.1; extract_response state response_json, [call.2]).

(** Its [except Exception as e] handler. The assignment to
    [extracted_tasks] the block may have made is overwritten. *)
Definition extract_except (state : TaskInferenceState) (e : exn)
  : result TaskInferenceState :=
  Ok (with_errors (errors state ++ [TaskExtractionFailed e])
        (with_extracted_tasks (JList []) state)).

Definition extract_tasks (m : Machine) : result Machine :=
  let state := st m in
  if negb (is_actionable state) then
    Ok (with_st (with_extracted_tasks (JList []) state) m)
  else
    let block := extract_try state in
    state' ← try_except block.1 (extract_except state);
    Ok {| st := state'; db := db m; calls := calls m ++ block.2 |}.

(** *** Node 3 *)

Fixpoint validate_loop (threshold : Z) (tasks : list json)
    (validated : list json) (seen_titles : gset string) : result (list json) :=
  match tasks with
  | [] => Ok validated
  | task_data :: rest =>
      confidence ← py_get task_data "confidence" (JInt 0);
      low ← py_lt_int confidence threshold;
      if low : bool then validate_loop threshold rest validated seen_titles
      else
        raw_title ← py_get task_data "title" (JStr EmptyString);
        title ← py_strip raw_title;
        if Py.is_empty title then validate_loop threshold rest validated seen_titles
        else
          let title_lower := Py.lower title in
          if bool_decide (title_lower ∈ seen_titles)
          then validate_loop threshold rest validated seen_titles
          else validate_loop threshold rest (validated ++ [task_data])
                 ({[title_lower]} ∪ seen_titles)
  end.

Definition validate_tasks (m : Machine) : result Machine :=
  tasks ← py_iter (extracted_tasks (st m));
  validated ← validate_loop (MIN_CONFIDENCE_THRESHOLD w) tasks [] ∅;
  Ok (with_st (with_validated_tasks validated (st m)) m).

(** *** Node 4 *)

Definition session_add (task : Task) (s : Session) : result Session :=
  match db_add w task with
  | Some e => Raise e
  | None => Ok {| pending := pending s ++ [task]; stored := stored s |}
  end.

(** [db.commit()]: the pending records are written, and the table holds
    for each the row the database made of it. *)
Definition session_commit (s : Session) : result Session :=
  match db_commit w (pending s) with
  | Some e => Raise e
  | None => Ok {| pending := []; stored := stored s ++ (db_row w <$> pending s) |}
  end.

Definition session_rollback (s : Session) : Session :=
  {| pending := []; stored := stored s |}.

(** [db.refresh(task)]: the attributes of the object are loaded again from
    its row, so the object the caller holds becomes the record of the row. *)
Definition session_refresh (task : Task) : result Task :=
  match db_refresh w task with
  | Some e => Raise e
  | None => Ok (db_row w task)
  end.

(** The [due_date] block of the loop body. A value that is not a string
    makes [fromisoformat] raise [TypeError], and then [date_str.lower()]
    raises [AttributeError] inside [_parse_relative_date]. *)
Definition resolve_due_date (task_data : json) : result (option datetime) :=
  expr ← py_get task_data "due_date" JNull;
  if truthy expr then
    match expr with
    | JStr s =>
        match fromisoformat w s with
        | Some dt => Ok (Some dt)
        | None => dt ← _parse_relative_date (datetime_now w) s; Ok (Some dt)
        end
    | _ => Raise AttributeError
    end
  else Ok None.

(** The [Task(...)] call of the loop body. *)
Definition build_task (state : TaskInferenceState) (task_data : json) : result Task :=
  due ← resolve_due_date task_data;
  full_title ← py_getitem task_data "title";
  short_title ← py_prefix 500 full_title;
  descr ← py_get task_data "description" JNull;
  ctx ← py_get task_data "context" JNull;
  prio ← py_get task_data "priority" (JInt 3);
  conf ← py_get task_data "confidence" (JInt 50);
  Task_new short_title descr ctx "todo" prio conf
    (source state) (py_str_int (message_id state)) due (datetime_utcnow w).

(** The [for task_data in state["validated_tasks"]] loop: the session, the
    [created_tasks] list and [state["errors"]] after it. *)
Fixpoint generate_loop (state : TaskInferenceState) (tasks : list json)
    (s : Session) (created : list Task) (errs : list diagnostic)
  : Session * list Task * list diagnostic :=
  match tasks with
  | [] => (s, created, errs)
  | task_data :: rest =>
      match build_task state task_data with
      | Raise e => generate_loop state rest s created (errs ++ [FailedToCreateTask e])
      | Ok task =>
          match session_add task s with
          | Raise e => generate_loop state rest s created (errs ++ [FailedToCreateTask e])
          | Ok s' => generate_loop state rest s' (created ++ [task]) errs
          end
      end
  end.

(** The commit block: the session, [created_tasks] and [state["errors"]]
    after it. *)
Definition commit_all (s : Session) (created : list Task) (errs : list diagnostic)
  : Session * list Task * list diagnostic :=
  match session_commit s with
  | Raise e => (session_rollback s, [], errs ++ [DatabaseCommitFailed e])
  | Ok s' =>
      match mapM session_refresh created with
      | Raise e => (session_rollback s', [], errs ++ [DatabaseCommitFailed e])
      | Ok reloaded => (s', reloaded, errs)
      end
  end.

Definition generate_tasks (m : Machine) : result Machine :=
  let state := st m in
  let '(s1, created, errs1) :=
    generate_loop state (validated_tasks state) (db m) [] (errors state) in
  let '(s2, created', errs2) := commit_all s1 created errs1 in
  Ok {| st := with_created_tasks created' (with_errors errs2 state);
        db := s2; calls := calls m |}.

(** *** The graph and the public entry point *)

Definition initial_state (content source : string) (message_id : Z) : TaskInferenceState :=
  {| content := content; source := source; message_id := message_id;
     is_actionable := false; extracted_tasks := JList [];
     validated_tasks := []; confidence_scores := [];
     created_tasks := []; errors := [] |}.

(** [graph.ainvoke]: analyze, extract, validate, generate, in this order. *)
Definition ainvoke (m : Machine) : result Machine :=
  m1 ← analyze_message m;
  m2 ← extract_tasks m1;
  m3 ← validate_tasks m2;
  generate_tasks m3.

Definition infer_tasks_from_text (content source : string) (message_id : Z)
    (s : Session) : result (list Task) :=
  final ← ainvoke {| st := initial_state content source message_id; db := s; calls := [] |};
  Ok (created_tasks (st final)).

End Pipeline.


(** ** Sample inputs *)

Module Sample.

Definition morning : datetime :=
  {| ordinal := 739565; hour := 9; minute := 30; second := 12; microsecond := 345 |}.

Definition empty_session : Session := {| pending := []; stored := [] |}.

Definition candidate (title : string) (confidence : Z) : json :=
  JDict [("title", JStr title); ("confidence", JInt confidence)].

(** A world whose settings, classifier answer, extraction reply and commit
    outcome are given: the extraction service answers [reply], [json.loads]
    turns that text (without its fence) into [parsed] and rejects every
    other text; every other call succeeds, and the database gives every
    record back as it was handed over. *)
Definition world (use_local : bool) (threshold : Z) (classifier : result string)
    (reply : string) (parsed : option json) (commit : option exn) : World :=
  {| USE_LOCAL_LLM_FOR_CLASSIFICATION := use_local;
     MIN_CONFIDENCE_THRESHOLD := threshold;
     ANTHROPIC_API_KEY := "sk-test";
     ollama_generate := fun _ => classifier;
     messages_create := fun _ _ => Ok reply;
     json_loads := fun text => if String.eqb text reply then parsed else None;
     fromisoformat := fun _ => None;
     datetime_now := morning;
     datetime_utcnow := morning;
     db_add := fun _ => None;
     db_commit := fun _ => commit;
     db_refresh := fun _ => None;
     db_row := fun task => task |}.

Definition quoted (s : string) : string :=
  String (ascii_of_nat 34) EmptyString +:+ s +:+ String (ascii_of_nat 34) EmptyString.

Definition start (text : string) : Machine :=
  {| st := initial_state text "manual_text" 1; db := empty_session; calls := [] |}.

Definition request : string := "Can you send me the Q4 report by tomorrow?".

(** The run as the Generate stage finds it when [cs] came out of the
    validator. *)
Definition validated (cs : list json) : Machine :=
  {| st := with_validated_tasks cs
             (with_extracted_tasks (JList cs)
                (with_is_actionable true (initial_state request "manual_text" 1)));
     db := empty_session;
     calls := [CallExtractor request] |}.

(** [w] with a database that cannot refresh any record. *)
Definition refresh_down (w : World) : World :=
  {| USE_LOCAL_LLM_FOR_CLASSIFICATION := USE_LOCAL_LLM_FOR_CLASSIFICATION w;
     MIN_CONFIDENCE_THRESHOLD := MIN_CONFIDENCE_THRESHOLD w;
     ANTHROPIC_API_KEY := ANTHROPIC_API_KEY w;
     ollama_generate := ollama_generate w;
     messages_create := messages_create w;
     json_loads := json_loads w;
     fromisoformat := fromisoformat w;
     datetime_now := datetime_now w;
     datetime_utcnow := datetime_utcnow w;
     db_add := db_add w;
     db_commit := db_commit w;
     db_refresh := fun _ => Some (OtherError "connection lost");
     db_row := db_row w |}.

(** [w] with other credentials and another extraction service. *)
Definition with_service (key : string) (service : nat -> string -> result string)
    (w : World) : World :=
  {| USE_LOCAL_LLM_FOR_CLASSIFICATION := USE_LOCAL_LLM_FOR_CLASSIFICATION w;
     MIN_CONFIDENCE_THRESHOLD := MIN_CONFIDENCE_THRESHOLD w;
     ANTHROPIC_API_KEY := key;
     ollama_generate := ollama_generate w;
     messages_create := service;
     json_loads := json_loads w;
     fromisoformat := fromisoformat w;
     datetime_now := datetime_now w;
     datetime_utcnow := datetime_utcnow w;
     db_add := db_add w;
     db_commit := db_commit w;
     db_refresh := db_refresh w;
     db_row := db_row w |}.

(** The record SQLite gives back for the columns of [models/task.py]: the
    column default 3 where the priority was [None], and the confidence score
    of the [Float] column as a [float]. *)
Definition sqlite_row (task : Task) : Task :=
  {| title := title task; description := description task; context := context task;
     status := status task;
     priority := match priority task with JNull => JInt 3 | p => p end;
     confidence_score := match confidence_score task with
                         | JInt z => JFloat (Finite (inject_Z z))
                         | c => c
                         end;
     source_type := source_type task; source_id := source_id task;
     due_date := due_date task; inferred_at := inferred_at task |}.

(** [w] with a database that gives records back as [row] says. *)
Definition with_rows (row : Task -> Task) (w : World) : World :=
  {| USE_LOCAL_LLM_FOR_CLASSIFICATION := USE_LOCAL_LLM_FOR_CLASSIFICATION w;
     MIN_CONFIDENCE_THRESHOLD := MIN_CONFIDENCE_THRESHOLD w;
     ANTHROPIC_API_KEY := ANTHROPIC_API_KEY w;
     ollama_generate := ollama_generate w;
     messages_create := messages_create w;
     json_loads := json_loads w;
     fromisoformat := fromisoformat w;
     datetime_now := datetime_now w;
     datetime_utcnow := datetime_utcnow w;
     db_add := db_add w;
     db_commit := db_commit w;
     db_refresh := db_refresh w;
     db_row := row |}.

(** The run as the Validate stage finds it when [cs] was extracted. *)
Definition extracted (cs : list json) : Machine :=
  {| st := with_extracted_tasks (JList cs)
             (with_is_actionable true (initial_state request "manual_text" 1));
     db := empty_session;
     calls := [CallExtractor request] |}.

(** Three candidates: the second repeats the title of the first in another
    case, the third is below a threshold of 70. *)
Definition three_candidates : list json :=
  [candidate "Send report" 90; candidate " send REPORT " 95; candidate "Book room" 40].

(** A title of 500 letters [a] followed by [ending]. *)
Definition long_title (ending : string) : string :=
  string_of_list_ascii (replicate 500 "a"%char) +:+ ending.

(** The JSON text of [candidate title confidence]. *)
Definition candidate_text (title : string) (confidence : string) : string :=
  "{" +:+ quoted "title" +:+ ": " +:+ quoted title +:+ ", "
  +:+ quoted "confidence" +:+ ": " +:+ confidence +:+ "}".

(** The run as the Extract stage finds it when the content was classified
    as actionable. *)
Definition analyzed (text : string) : Machine :=
  {| st := with_is_actionable true (initial_state text "manual_text" 1);
     db := empty_session;
     calls := [] |}.

End Sample.

(** ** What the validator reads from a candidate *)

(** [task_data.get("confidence", 0)] as a number, when it is one. *)
Definition candidate_confidence (c : json) : option number :=
  match c with
  | JDict d => as_number (from_option id (JInt 0) (assoc "confidence" d))
  | _ => None
  end.

(** [task_data.get("title", default)] with the empty string as default,
    when it is a string. *)
Definition candidate_title (c : json) : option string :=
  match c with
  | JDict d =>
      match from_option id (JStr EmptyString) (assoc "title" d) with
      | JStr s => Some s
      | _ => None
      end
  | _ => None
  end.

(** A candidate the validator can read: an object whose [confidence], if
    present, is a number (NaN and the infinities included) and whose
    [title], if present, is a string. *)
Definition well_formed (c : json) : Prop :=
  is_Some (candidate_confidence c) /\ is_Some (candidate_title c).

Definition confidence_of (c : json) : number :=
  default (Finite 0) (candidate_confidence c).

(** [n <= x]: true of no NaN. *)
Definition at_least (n : Z) (x : number) : Prop :=
  match x with
  | Finite q => (inject_Z n <= q)%Q
  | PosInf => True
  | NegInf | NaN => False
  end.

(** [x <= n]: true of no NaN. *)
Definition at_most (n : Z) (x : number) : Prop :=
  match x with
  | Finite q => (q <= inject_Z n)%Q
  | NegInf => True
  | PosInf | NaN => False
  end.

Definition trimmed_title (c : json) : string := Py.strip (default EmptyString (candidate_title c)).

(** The title as the duplicate check compares it. *)
Definition title_key (c : json) : string := Py.lower (trimmed_title c).

(** The sublist of [l] at the positions marked [true], in the order of [l]. *)
Fixpoint keep {A : Type} (mask : list bool) (l : list A) : list A :=
  match mask, l with
  | b :: mask', x :: l' => if b then x :: keep mask' l' else keep mask' l'
  | _, _ => []
  end.

(** The three tests of the loop body, for a seen-set [seen]. *)
Definition passes (threshold : Z) (seen : gset string) (c : json) : bool :=
  negb (lt_int (confidence_of c) threshold)
  && negb (Py.is_empty (trimmed_title c))
  && negb (bool_decide (title_key c ∈ seen)).

(** ** Shapes of an extraction response *)

(** The recognized shapes as the specification words them: a bare list, or
    an object with a [tasks] list. *)
Definition recognized_shape (v : json) : bool :=
  match v with
  | JList _ => true
  | JDict d =>
      match assoc "tasks" d with
      | Some (JList _) => true
      | _ => false
      end
  | _ => false
  end.

(** The test the code makes on an object: ["tasks" in response_json]. *)
Definition has_tasks_key (v : json) : bool :=
  match v with
  | JDict d => bool_decide (is_Some (assoc "tasks" d))
  | _ => false
  end.

(** ** The validator as a filter *)

(** The exception the body of the validation loop raises on a candidate, if
    any: [.get] on a value that is not an object, the comparison of a
    confidence that is not a number, or, once the confidence test is passed,
    [.strip()] on a title that is not a string. *)
Definition candidate_fault (threshold : Z) (c : json) : option exn :=
  match c with
  | JDict _ =>
      match candidate_confidence c with
      | None => Some TypeError
      | Some x =>
          if lt_int x threshold then None
          else match candidate_title c with
               | None => Some AttributeError
               | Some _ => None
               end
      end
  | _ => Some AttributeError
  end.

(** The candidates the loop appends to [validated], from a seen-set. *)
Fixpoint accepted (threshold : Z) (seen : gset string) (cs : list json) : list json :=
  match cs with
  | [] => []
  | c :: rest =>
      if passes threshold seen c
      then c :: accepted threshold ({[title_key c]} ∪ seen) rest
      else accepted threshold seen rest
  end.

(** ** Records the model accepts *)

(** A number from [lo] to [hi]. *)
Definition in_range (lo hi : Z) (v : json) : Prop :=
  exists x, as_number v = Some x /\ at_least lo x /\ at_most hi x.

(** What a test [value < lo or value > hi] lets through: the numbers from
    [lo] to [hi], and NaN, of which both comparisons are false. *)
Definition not_outside (lo hi : Z) (v : json) : Prop :=
  in_range lo hi v \/ as_number v = Some NaN.

(** What the three [@validates] hooks of [Task] let through. *)
Definition task_valid (t : Task) : Prop :=
  In (status t) TaskStatus /\
  (priority t = JNull \/ not_outside 1 5 (priority t)) /\
  not_outside 0 100 (confidence_score t).

(** ** The staging loop as two filters *)

(** The loop body on one candidate: the record built and added, or the
    exception the handler of the body receives. *)
Definition stage_one (w : World) (state : TaskInferenceState) (c : json) : result Task :=
  task ← build_task w state c;
  match db_add w task with
  | Some e => Raise e
  | None => Ok task
  end.

Definition staged (w : World) (state : TaskInferenceState) (cs : list json) : list Task :=
  omap (fun c => match stage_one w state c with
                 | Ok task => Some task
                 | Raise _ => None
                 end) cs.

Definition stage_failures (w : World) (state : TaskInferenceState) (cs : list json)
  : list diagnostic :=
  omap (fun c => match stage_one w state c with
                 | Ok _ => None
                 | Raise e => Some (FailedToCreateTask e)
                 end) cs.

(** The length bound the slice [[:500]] gives a title. *)
Definition title_within (n : nat) (v : json) : Prop :=
  match v with
  | JStr s => (String.length s <= n)%nat
  | JList l => (length l <= n)%nat
  | _ => False
  end.

(** ** Extraction responses that can be used *)

Definition is_object (v : json) : bool :=
  match v with
  | JDict _ => true
  | _ => false
  end.

(** [task.get("confidence", 50)] on an object. *)
Definition confidence_or_50 (c : json) : json :=
  match c with
  | JDict d => from_option id (JInt 50) (assoc "confidence" d)
  | _ => JNull
  end.

(** ** The first two nodes of the graph *)

Definition analyze_then_extract (w : World) (m : Machine) : result Machine :=
  m1 ← analyze_message w m; extract_tasks w m1.

(** ** Strings of one kind of character *)

Fixpoint all_chars (p : ascii -> bool) (s : string) : bool :=
  match s with
  | EmptyString => true
  | String c s' => p c && all_chars p s'
  end.

(** No backtick occurs in [s]. *)
Definition no_backtick (s : string) : bool :=
  all_chars (fun c => negb (Ascii.eqb c "`")) s.

(** ** The endpoint [POST /infer-tasks] ([api/tasks.py]) *)

Module Msg.

(** The columns of [Message] the endpoint sets. *)
Record Message : Type := {
  external_id : string;
  platform : string;
  channel_id : string;
  user_id : string;
  user_name : string;
  content : string;
  timestamp : datetime;
  processed : bool;
  is_actionable : option bool
}.

Definition mark (done : bool) (actionable : option bool) (m : Message) : Message :=
  {| external_id := external_id m; platform := platform m;
     channel_id := channel_id m; user_id := user_id m; user_name := user_name m;
     content := content m; timestamp := timestamp m;
     processed := done; is_actionable := actionable |}.

End Msg.

Record InferTasksResponse : Type := {
  message : string;
  tasks_inferred : nat;
  tasks : list Task
}.

(** What a call of the endpoint ends in: the response body, an
    [HTTPException] with its status and error code, or an exception the
    endpoint does not handle. *)
Inductive outcome : Type :=
  | Respond (body : InferTasksResponse)
  | HTTPException (status_code : Z) (error_code : string)
  | Unhandled (e : exn).

(** The database as the endpoint leaves it: the session of the tasks and the
    row of the message, if it was committed. *)
Record Store : Type := {
  session : Session;
  message_row : option Msg.Message
}.

(** What the endpoint meets beyond the pipeline's world: the text of
    [datetime.utcnow().timestamp()], the outcomes of its own three commits
    and of the refresh that loads the message id, and whether
    [TaskResponse.model_validate] accepts a record. *)
Record ApiWorld : Type := {
  utcnow_timestamp : string;
  commit_insert : option exn;
  refresh_message : result Z;
  commit_processed : option exn;
  commit_failed : option exn;
  model_validate : Task -> option exn
}.

Section Api.

Variable w : World.
Variable aw : ApiWorld.

(** The [except Exception] block of the endpoint. *)
Definition infer_tasks_except (s : Session) (row : option Msg.Message)
    (msg : Msg.Message) : outcome * Store :=
  let msg' := Msg.mark true (Some false) msg in
  match commit_failed aw with
  | Some e => (Unhandled e, {| session := s; message_row := row |})
  | None =>
      (HTTPException 500 "INFERENCE_FAILED",
       {| session := s; message_row := Some msg' |})
  end.

(** [TaskResponse.model_validate(task)]: the record as the response shows
    it, or the exception of the response model. *)
Definition validate_response (task : Task) : result Task :=
  match model_validate aw task with
  | Some e => Raise e
  | None => Ok task
  end.

(** [infer_tasks(request, db)] on a session [s]. The call of
    [infer_tasks_from_text] is written as the run of the graph it consists
    of, whose final machine also holds the session the call leaves behind.
    The graph changes the session in its last node only, which does not
    raise, so a run that raises has left the session as it was. *)
Definition infer_tasks (request_content request_source : string) (s : Session)
  : outcome * Store :=
  let msg :=
    {| Msg.external_id := request_source +:+ "_" +:+ utcnow_timestamp aw;
       Msg.platform := request_source;
       Msg.channel_id := "manual_input";
       Msg.user_id := "user";
       Msg.user_name := "Manual Input";
       Msg.content := request_content;
       Msg.timestamp := datetime_utcnow w;
       Msg.processed := false;
       Msg.is_actionable := None |} in
  match commit_insert aw with
  | Some e => (Unhandled e, {| session := s; message_row := None |})
  | None =>
      match refresh_message aw with
      | Raise e => (Unhandled e, {| session := s; message_row := Some msg |})
      | Ok message_id =>
          match ainvoke w {| st := initial_state request_content request_source message_id;
                             db := s; calls := [] |} with
          | Raise _ => infer_tasks_except s (Some msg) msg
          | Ok final =>
              let inferred_tasks := created_tasks (st final) in
              let msg' :=
                Msg.mark true (Some (0 <? length inferred_tasks)%nat) msg in
              match commit_processed aw with
              | Some _ => infer_tasks_except (db final) (Some msg) msg'
              | None =>
                  match mapM validate_response inferred_tasks with
                  | Raise _ => infer_tasks_except (db final) (Some msg') msg'
                  | Ok responses =>
                      (Respond {| message := "Tasks inferred successfully";
                                  tasks_inferred := length inferred_tasks;
                                  tasks := responses |},
                       {| session := db final; message_row := Some msg' |})
                  end
              end
          end
      end
  end.

End Api.

Module SampleApi.

(** An API layer in which the message is stored and gets id 1, the commit
    that marks it ends as [commit] says, and every other call succeeds. *)
Definition api (commit : option exn) : ApiWorld :=
  {| utcnow_timestamp := "1793698212.000345";
     commit_insert := None;
     refresh_message := Ok 1;
     commit_processed := commit;
     commit_failed := None;
     model_validate := fun _ => None |}.

(** The same with a commit of the [except] block that ends as [second]
    says. *)
Definition api_except (commit second : option exn) : ApiWorld :=
  {| utcnow_timestamp := utcnow_timestamp (api commit);
     commit_insert := commit_insert (api commit);
     refresh_message := refresh_message (api commit);
     commit_processed := commit_processed (api commit);
     commit_failed := second;
     model_validate := model_validate (api commit) |}.

(** A world in which the content is classified as actionable and the
    extraction service proposes two tasks, one above and one below a
    threshold of 70. *)
Definition two_proposals : World :=
  Sample.world true 70 (Ok "yes")
    ("[" +:+ Sample.candidate_text "Send report" "90" +:+ ", "
     +:+ Sample.candidate_text "Book room" "40" +:+ "]")
    (Some (JList [Sample.candidate "Send report" 90; Sample.candidate "Book room" 40]))
    None.

End SampleApi.
(** * Properties *)

(** ** The string and number helpers on examples *)

Example strip_ex : Py.strip "  Send report  " = "Send report".
Proof. reflexivity. Qed.

Example lower_ex : Py.lower "Send Report" = "send report".
Proof. reflexivity. Qed.

Example search_ex : Py.re_search_in_days "due in 12 days or so" = Some "12".
Proof. reflexivity. Qed.

Example find_ex : Py.find "```" "ab```cd```" 5 = 7.
Proof. reflexivity. Qed.

Example slice_ex : Py.slice "abcdef" 2 (-1) = "cde".
Proof. reflexivity. Qed.

Example py_str_int_ex : py_str_int 42 = "42" /\ py_str_int (-7) = "-7" /\ py_str_int 0 = "0".
Proof. repeat split; reflexivity. Qed.

(** [String.prefix] and [Py.contains] against concatenation: the [in]
    operator of the source is substring membership. *)
Lemma prefix_iff (sub s : string) :
  String.prefix sub s = true <-> exists post, s = sub +:+ post.
Proof.
  revert s. induction sub as [| a sub IH]; intros s.
  - split; [intros _; exists s; reflexivity | intros _; destruct s; reflexivity].
  - destruct s as [| b s]; simpl;
      [split; [discriminate | intros [post Hpost]; discriminate] |].
    destruct (Ascii.ascii_dec a b) as [-> | Hne].
    + rewrite IH. split; intros [post Hpost]; exists post.
      * now rewrite Hpost.
      * now injection Hpost.
    + split; [discriminate |]. intros [post Hpost]. injection Hpost as Hab _.
      congruence.
Qed.

Lemma contains_iff (sub s : string) :
  Py.contains sub s = true <-> exists pre post, s = pre +:+ sub +:+ post.
Proof.
  induction s as [| c s IH]; cbn [Py.contains].
  - destruct (String.prefix sub EmptyString) eqn:Hp.
    + split; [intros _ | reflexivity].
      apply prefix_iff in Hp as [post Hpost]. exists EmptyString, post. exact Hpost.
    + split; [discriminate |]. intros (pre & post & Heq).
      destruct pre; [| discriminate].
      assert (String.prefix sub EmptyString = true) by (apply prefix_iff; eauto).
      congruence.
  - destruct (String.prefix sub (String c s)) eqn:Hp.
    + split; [intros _ | reflexivity].
      apply prefix_iff in Hp as [post Hpost]. exists EmptyString, post. exact Hpost.
    + rewrite IH. split.
      * intros (pre & post & ->). exists (String c pre), post. reflexivity.
      * intros (pre & post & Heq). destruct pre as [| c' pre].
        -- assert (String.prefix sub (String c s) = true)
             by (apply prefix_iff; eauto).
           congruence.
        -- injection Heq as _ ->. eauto.
Qed.

(** ** General facts about the stages *)

Lemma try_except_total {A : Type} (m : result A) (h : exn -> result A) :
  (forall e, returns (h e)) -> returns (try_except m h).
Proof.
  intros Hh. destruct m as [a | e]; simpl.
  - now exists a.
  - apply Hh.
Qed.

(** The handler of [extract_tasks] makes the protected block total. *)
Lemma extract_block_total (w : World) (state : TaskInferenceState) :
  exists state',
    try_except (extract_try w state).1 (extract_except state) = Ok state'.
Proof.
  apply try_except_total. intros e. eexists. reflexivity.
Qed.

(** The [try] block makes one call of the extraction client, with the
    content of the state, and goes on from the answer of that call. *)
Lemma extract_try_unfold (w : World) (state : TaskInferenceState) :
  extract_try w state
  = (response_json ← ClaudeClient_generate_json w (content state);
     extract_response state response_json,
     [CallExtractor (content state)]).
Proof. reflexivity. Qed.

(** [extract_tasks] always returns, and calls the extraction client exactly
    when the state says the content is actionable. *)
Lemma extract_tasks_calls (w : World) (m : Machine) :
  exists m2,
    extract_tasks w m = Ok m2 /\
    db m2 = db m /\
    calls m2 = calls m ++ (if is_actionable (st m)
                           then [CallExtractor (content (st m))] else []).
Proof.
  unfold extract_tasks.
  destruct (is_actionable (st m)) eqn:Hact; cbn [negb].
  - destruct (extract_block_total w (st m)) as [state' Hblock].
    cbv zeta. rewrite Hblock. simpl. eexists. repeat split; reflexivity.
  - eexists. repeat split; simpl. now rewrite app_nil_r.
Qed.

Lemma extract_tasks_skip (w : World) (m : Machine) :
  is_actionable (st m) = false ->
  extract_tasks w m = Ok (with_st (with_extracted_tasks (JList []) (st m)) m).
Proof.
  intros Hact. unfold extract_tasks. now rewrite Hact.
Qed.

Lemma mapM_confidence_ok (l : list json) :
  Forall (fun c => is_object c = true) l ->
  mapM (fun task => py_get task "confidence" (JInt 50)) l = Ok (confidence_or_50 <$> l).
Proof.
  induction 1 as [| c l Hc Hl IH].
  - reflexivity.
  - change (mapM (fun task => py_get task "confidence" (JInt 50)) (c :: l))
      with (y ← py_get c "confidence" (JInt 50);
            k ← mapM (fun task => py_get task "confidence" (JInt 50)) l;
            mret (y :: k)).
    rewrite IH. destruct c; try discriminate Hc. reflexivity.
Qed.

Lemma mapM_confidence_fails (l : list json) :
  Exists (fun c => is_object c = false) l ->
  mapM (fun task => py_get task "confidence" (JInt 50)) l = Raise AttributeError.
Proof.
  induction l as [| c l IH]; intros Hex; [inversion Hex |].
  change (mapM (fun task => py_get task "confidence" (JInt 50)) (c :: l))
    with (y ← py_get c "confidence" (JInt 50);
          k ← mapM (fun task => py_get task "confidence" (JInt 50)) l;
          mret (y :: k)).
  destruct (is_object c) eqn:Hc.
  - apply Exists_cons in Hex as [Hbad | Hrest]; [congruence |].
    rewrite (IH Hrest). destruct c; try discriminate Hc. reflexivity.
  - destruct c; try discriminate Hc; reflexivity.
Qed.

(** The Extract stage on actionable content, from the answer of the
    extraction client. *)
Lemma extract_tasks_from_try (w : World) (m : Machine) :
  is_actionable (st m) = true ->
  extract_tasks w m =
  Ok {| st := match response_json ← ClaudeClient_generate_json w (content (st m));
                    extract_response (st m) response_json with
              | Ok state' => state'
              | Raise e =>
                  with_errors (errors (st m) ++ [TaskExtractionFailed e])
                    (with_extracted_tasks (JList []) (st m))
              end;
        db := db m;
        calls := calls m ++ [CallExtractor (content (st m))] |}.
Proof.
  intros Hact. unfold extract_tasks. rewrite Hact. cbn [negb]. cbv zeta.
  rewrite extract_try_unfold. cbn [fst snd].
  destruct (response_json ← ClaudeClient_generate_json w (content (st m));
            extract_response (st m) response_json); reflexivity.
Qed.

(** What the block makes of a list of objects, and of a list with
    something else in it. *)
Lemma extract_response_objects (state : TaskInferenceState) (v : json) (l : list json) :
  tasks_of_response v = JList l ->
  Forall (fun c => is_object c = true) l ->
  extract_response state v
  = Ok (with_confidence_scores (confidence_or_50 <$> l)
          (with_extracted_tasks (JList l) state)).
Proof.
  intros Htasks Hobj. unfold extract_response. cbv zeta. rewrite Htasks.
  cbn [py_iter mbind result_bind]. now rewrite (mapM_confidence_ok l Hobj).
Qed.

Lemma extract_response_spoiled (state : TaskInferenceState) (v : json) (l : list json) :
  tasks_of_response v = JList l ->
  Exists (fun c => is_object c = false) l ->
  extract_response state v = Raise AttributeError.
Proof.
  intros Htasks Hbad. unfold extract_response. cbv zeta. rewrite Htasks.
  cbn [py_iter mbind result_bind]. now rewrite (mapM_confidence_fails l Hbad).
Qed.

(** The client's own handler: a failed request is answered [True]. *)
Lemma is_actionable_fail_open (w : World) (message : string) (e : exn) :
  ollama_generate w (classifier_prompt message) = Raise e ->
  OllamaClient_is_actionable w message = Ok true.
Proof.
  intros Hfail. unfold OllamaClient_is_actionable, OllamaClient_generate.
  now rewrite Hfail.
Qed.

Lemma analyze_message_with_total (w : World) (classify : string -> result bool) (m : Machine) :
  exists m1, analyze_message_with w classify m = Ok m1.
Proof.
  unfold analyze_message_with.
  destruct (USE_LOCAL_LLM_FOR_CLASSIFICATION w); simpl.
  - destruct (classify (content (st m))); simpl; eexists; reflexivity.
  - eexists; reflexivity.
Qed.

(** ** C1: classification fails open *)

(** C1. When the classification call fails, the Analyze stage does not
    propagate the failure: it returns with [is_actionable] set to true, and
    the Extract stage that follows invokes the extraction client. The failure
    is either the request of the classification client failing (absorbed by
    the client itself) or the classifier handed to the stage raising
    (absorbed by the stage). *)
Theorem analyze_message_fail_open (w : World) (classify : string -> result bool)
    (m : Machine) (e : exn) :
  (classify = OllamaClient_is_actionable w /\
   ollama_generate w (classifier_prompt (content (st m))) = Raise e) \/
  classify (content (st m)) = Raise e ->
  exists m1 m2,
    analyze_message_with w classify m = Ok m1 /\
    is_actionable (st m1) = true /\
    content (st m1) = content (st m) /\
    errors (st m1) = errors (st m) /\
    extract_tasks w m1 = Ok m2 /\
    CallExtractor (content (st m)) ∈ calls m2.
Proof.
  intros Hfail.
  assert (Hverdict :
    try_except
      (if USE_LOCAL_LLM_FOR_CLASSIFICATION w
       then classify (content (st m)) else Ok true)
      (fun _ => Ok true) = Ok true).
  { destruct (USE_LOCAL_LLM_FOR_CLASSIFICATION w); [| reflexivity].
    destruct Hfail as [[-> Hreq] | Hraise].
    - now rewrite (is_actionable_fail_open w _ e Hreq).
    - now rewrite Hraise. }
  unfold analyze_message_with. rewrite Hverdict. simpl.
  match goal with |- exists m1 m2, Ok ?x = Ok m1 /\ _ => set (m1 := x) end.
  destruct (extract_tasks_calls w m1) as (m2 & Hext & _ & Hcalls).
  exists m1, m2. repeat split; try reflexivity; try assumption.
  rewrite Hcalls. subst m1; simpl.
  apply elem_of_app. right. apply list_elem_of_singleton. reflexivity.
Qed.

Lemma analyze_message_fail_open_witness :
  let w := Sample.world true 70 (Raise (OtherError "connection refused"))
             "[]" (Some (JList [])) None in
  let m := Sample.start Sample.request in
  ollama_generate w (classifier_prompt (content (st m)))
    = Raise (OtherError "connection refused") /\
  exists m1 m2,
    analyze_message_with w (OllamaClient_is_actionable w) m = Ok m1 /\
    is_actionable (st m1) = true /\
    content (st m1) = content (st m) /\
    errors (st m1) = errors (st m) /\
    extract_tasks w m1 = Ok m2 /\
    CallExtractor (content (st m)) ∈ calls m2.
Proof.
  intros w m. split; [reflexivity |].
  apply (analyze_message_fail_open w (OllamaClient_is_actionable w) m
           (OtherError "connection refused")).
  left. split; reflexivity.
Defined.

(** ** C8: the extraction client is called exactly for actionable content *)

(** C8. The Extract stage always returns. When [is_actionable] is false it
    makes no call of the extraction client: the trace is unchanged, the
    candidate list is empty, nothing is logged in [errors], and the result
    is the same in every world, so no service, parser or setting was
    consulted. When [is_actionable] is true it makes exactly one call of the
    extraction client, and the state it leaves is made from the answer to
    that call: an exception of the client ends up in [errors] with an empty
    candidate list, and a list of objects the client returns becomes the
    candidate list. With classification disabled the Analyze stage sets
    [is_actionable] to true without calling the classifier, and the Extract
    stage then calls the extraction client. *)
Theorem extraction_called_iff_actionable (w : World) (m : Machine) :
  (exists m2,
     extract_tasks w m = Ok m2 /\
     calls m2 = calls m ++ (if is_actionable (st m)
                            then [CallExtractor (content (st m))] else []) /\
     (is_actionable (st m) = false ->
        extracted_tasks (st m2) = JList [] /\
        errors (st m2) = errors (st m) /\
        forall w' : World, extract_tasks w' m = Ok m2) /\
     (is_actionable (st m) = true ->
        (forall e : exn,
           ClaudeClient_generate_json w (content (st m)) = Raise e ->
           extracted_tasks (st m2) = JList [] /\
           errors (st m2) = errors (st m) ++ [TaskExtractionFailed e]) /\
        (forall l : list json,
           ClaudeClient_generate_json w (content (st m)) = Ok (JList l) ->
           Forall (fun c => is_object c = true) l ->
           extracted_tasks (st m2) = JList l /\
           errors (st m2) = errors (st m)))) /\
  (USE_LOCAL_LLM_FOR_CLASSIFICATION w = false ->
     exists m1 m2,
       analyze_message w m = Ok m1 /\
       is_actionable (st m1) = true /\
       calls m1 = calls m /\
       extract_tasks w m1 = Ok m2 /\
       calls m2 = calls m ++ [CallExtractor (content (st m))]).
Proof.
  split.
  - destruct (is_actionable (st m)) eqn:Hact.
    + eexists. split; [apply (extract_tasks_from_try w m Hact) |].
      split; [reflexivity |]. split; [discriminate |]. intros _. split.
      * intros e Hfail. rewrite Hfail. split; reflexivity.
      * intros l Hreply Hobj. rewrite Hreply. cbn [mbind result_bind].
        rewrite (extract_response_objects (st m) (JList l) l eq_refl Hobj).
        split; reflexivity.
    + eexists. split; [apply (extract_tasks_skip w m Hact) |].
      split; [cbn; now rewrite app_nil_r |].
      split; [| discriminate]. intros _.
      split; [reflexivity |]. split; [reflexivity |].
      intros w'. apply (extract_tasks_skip w' m Hact).
  - intros Hoff.
    unfold analyze_message, analyze_message_with. rewrite Hoff. simpl.
    match goal with |- exists m1 m2, Ok ?x = Ok m1 /\ _ => set (m1 := x) end.
    destruct (extract_tasks_calls w m1) as (m2 & Hext & _ & Hcalls).
    exists m1, m2. repeat split; try reflexivity; assumption.
Qed.

(** The theorem at content the state marks as not actionable, and at
    content marked actionable to which the client answers one candidate. *)
Lemma extraction_called_iff_actionable_witness :
  let c := Sample.candidate "Send report" 90 in
  let reply := "[" +:+ Sample.candidate_text "Send report" "90" +:+ "]" in
  let w := Sample.world false 70 (Ok "no") reply (Some (JList [c])) None in
  let idle := Sample.start Sample.request in
  let busy := Sample.analyzed Sample.request in
  (is_actionable (st idle) = false /\
   USE_LOCAL_LLM_FOR_CLASSIFICATION w = false /\
   exists m2,
     extract_tasks w idle = Ok m2 /\
     calls m2 = calls idle /\
     extracted_tasks (st m2) = JList [] /\
     errors (st m2) = errors (st idle)) /\
  (is_actionable (st busy) = true /\
   ClaudeClient_generate_json w (content (st busy)) = Ok (JList [c]) /\
   Forall (fun c => is_object c = true) [c] /\
   exists m2,
     extract_tasks w busy = Ok m2 /\
     calls m2 = calls busy ++ [CallExtractor (content (st busy))] /\
     extracted_tasks (st m2) = JList [c] /\
     errors (st m2) = errors (st busy)).
Proof.
  intros c reply w idle busy.
  assert (Hobj : Forall (fun c => is_object c = true) [c]) by (repeat constructor).
  split.
  - split; [reflexivity |]. split; [reflexivity |].
    destruct (extraction_called_iff_actionable w idle)
      as [(m2 & Hrun & Hcalls & Hidle & _) _].
    destruct (Hidle eq_refl) as (Hnone & Herr & _).
    exists m2. split; [exact Hrun |]. split; [| split; assumption].
    rewrite Hcalls. cbn. reflexivity.
  - split; [reflexivity |]. split; [reflexivity |]. split; [exact Hobj |].
    destruct (extraction_called_iff_actionable w busy)
      as [(m2 & Hrun & Hcalls & _ & Hbusy) _].
    destruct (Hbusy eq_refl) as [_ Hlist].
    destruct (Hlist [c] eq_refl Hobj) as [Hext Herr].
    exists m2. split; [exact Hrun |]. split; [exact Hcalls |]. split; assumption.
Defined.

(** ** The staging loop of the Generate stage *)

Lemma generate_loop_app (w : World) (state : TaskInferenceState) (l1 l2 : list json) :
  forall (s : Session) (created : list Task) (errs : list diagnostic),
    generate_loop w state (l1 ++ l2) s created errs =
    let '(s1, created1, errs1) := generate_loop w state l1 s created errs in
    generate_loop w state l2 s1 created1 errs1.
Proof.
  induction l1 as [| c l1 IH]; intros s created errs; simpl.
  - reflexivity.
  - destruct (build_task w state c) as [task | e]; [| apply IH].
    destruct (session_add w task s) as [s' | e]; apply IH.
Qed.

(** The loop only ever extends the error log it is given. *)
Lemma generate_loop_errors (w : World) (state : TaskInferenceState) (l : list json) :
  forall (s : Session) (created : list Task) (errs : list diagnostic),
    generate_loop w state l s created errs =
    let '(s', created', errs') := generate_loop w state l s created [] in
    (s', created', errs ++ errs').
Proof.
  induction l as [| c l IH]; intros s created errs; simpl.
  - now rewrite app_nil_r.
  - assert (Hfail : forall e,
      generate_loop w state l s created (errs ++ [FailedToCreateTask e]) =
      let '(s', created', errs') :=
        generate_loop w state l s created [FailedToCreateTask e] in
      (s', created', errs ++ errs')).
    { intros e. rewrite IH. rewrite (IH s created [FailedToCreateTask e]).
      destruct (generate_loop w state l s created []) as [[s' created'] errs'].
      now rewrite app_assoc. }
    destruct (build_task w state c) as [task | e]; [| apply Hfail].
    destruct (session_add w task s) as [s' | e]; [apply IH | apply Hfail].
Qed.

(** Staging never touches the rows already in the table. *)
Lemma generate_loop_stored (w : World) (state : TaskInferenceState) (l : list json) :
  forall (s : Session) (created : list Task) (errs : list diagnostic),
    stored (generate_loop w state l s created errs).1.1 = stored s.
Proof.
  induction l as [| c l IH]; intros s created errs; simpl.
  - reflexivity.
  - destruct (build_task w state c) as [task | e]; [| apply IH].
    unfold session_add. destruct (db_add w task) as [e |]; rewrite IH; reflexivity.
Qed.

Lemma generate_loop_step (w : World) (state : TaskInferenceState) (c : json)
    (rest : list json) (s : Session) (created : list Task) (errs : list diagnostic) :
  generate_loop w state (c :: rest) s created errs =
  match stage_one w state c with
  | Ok task =>
      generate_loop w state rest
        {| pending := pending s ++ [task]; stored := stored s |}
        (created ++ [task]) errs
  | Raise e => generate_loop w state rest s created (errs ++ [FailedToCreateTask e])
  end.
Proof.
  cbn [generate_loop]. unfold stage_one, session_add.
  destruct (build_task w state c) as [task | e]; cbn [mbind result_bind]; [| reflexivity].
  destruct (db_add w task); reflexivity.
Qed.

(** The loop as the two filters [staged] and [stage_failures]. *)
Lemma generate_loop_filters (w : World) (state : TaskInferenceState) (cs : list json) :
  forall (s : Session) (created : list Task) (errs : list diagnostic),
    generate_loop w state cs s created errs
    = ({| pending := pending s ++ staged w state cs; stored := stored s |},
       created ++ staged w state cs,
       errs ++ stage_failures w state cs).
Proof.
  induction cs as [| c cs IH]; intros s created errs.
  - cbn. rewrite !app_nil_r. now destruct s.
  - rewrite generate_loop_step. unfold staged, stage_failures in *.
    cbn [omap list_omap]. destruct (stage_one w state c) as [task | e].
    + rewrite IH. cbn [pending stored]. now rewrite <- !app_assoc.
    + rewrite IH. now rewrite <- !app_assoc.
Qed.

Lemma staged_count (w : World) (state : TaskInferenceState) (cs : list json) :
  (length (staged w state cs) + length (stage_failures w state cs) = length cs)%nat.
Proof.
  induction cs as [| c cs IH]; [reflexivity |].
  unfold staged, stage_failures in *. cbn [omap list_omap].
  destruct (stage_one w state c); cbn [length]; lia.
Qed.

Lemma staged_elem (w : World) (state : TaskInferenceState) (cs : list json) (t : Task) :
  t ∈ staged w state cs ->
  exists c, c ∈ cs /\ build_task w state c = Ok t /\ db_add w t = None.
Proof.
  unfold staged. intros Hin.
  apply list_elem_of_omap in Hin as (c & Hc & Hstage).
  exists c. split; [exact Hc |]. unfold stage_one in Hstage.
  destruct (build_task w state c) as [task |]; [| discriminate].
  cbn [mbind result_bind] in Hstage.
  destruct (db_add w task) eqn:Hadd; [discriminate |].
  injection Hstage as <-. split; [reflexivity | exact Hadd].
Qed.

(** A candidate of the list that can be built and added has its record
    among the staged ones. *)
Lemma staged_intro (w : World) (state : TaskInferenceState) (cs : list json)
    (c : json) (t : Task) :
  c ∈ cs -> build_task w state c = Ok t -> db_add w t = None ->
  t ∈ staged w state cs.
Proof.
  intros Hc Hbuild Hadd. unfold staged. apply list_elem_of_omap.
  exists c. split; [exact Hc |]. unfold stage_one. rewrite Hbuild.
  cbn [mbind result_bind]. now rewrite Hadd.
Qed.

Lemma staged_app (w : World) (state : TaskInferenceState) (l1 l2 : list json) :
  staged w state (l1 ++ l2) = staged w state l1 ++ staged w state l2.
Proof. unfold staged. apply omap_app. Qed.

Lemma stage_failures_app (w : World) (state : TaskInferenceState) (l1 l2 : list json) :
  stage_failures w state (l1 ++ l2)
  = stage_failures w state l1 ++ stage_failures w state l2.
Proof. unfold stage_failures. apply omap_app. Qed.

Lemma generate_tasks_total (w : World) (m : Machine) :
  exists m', generate_tasks w m = Ok m'.
Proof.
  unfold generate_tasks.
  destruct (generate_loop w (st m) (validated_tasks (st m)) (db m) [] (errors (st m)))
    as [[s1 created] errs1].
  destruct (commit_all w s1 created errs1) as [[s2 created'] errs2].
  eexists; reflexivity.
Qed.

(** ** C2: a failed commit rolls the batch back *)

(** C2. When the commit of the records the staging loop added fails, the
    Generate stage still returns; [created_tasks] is empty, the commit error
    is appended to [errors] after whatever the staging loop logged, the
    session is rolled back (nothing is pending) and the table is as it was.
    The Generate stage is the last node of the graph, so this is the final
    state of the run. *)
Theorem commit_failure_rolls_back (w : World) (m : Machine) (e : exn)
    (s1 : Session) (staged : list Task) (errs1 : list diagnostic) :
  generate_loop w (st m) (validated_tasks (st m)) (db m) [] (errors (st m))
    = (s1, staged, errs1) ->
  db_commit w (pending s1) = Some e ->
  exists m',
    generate_tasks w m = Ok m' /\
    created_tasks (st m') = [] /\
    errors (st m') = errs1 ++ [DatabaseCommitFailed e] /\
    pending (db m') = [] /\
    stored (db m') = stored (db m).
Proof.
  intros Hloop Hcommit.
  unfold generate_tasks. rewrite Hloop.
  unfold commit_all, session_commit. rewrite Hcommit.
  eexists. repeat split; simpl.
  pose proof (generate_loop_stored w (st m) (validated_tasks (st m)) (db m) []
                (errors (st m))) as Hstored.
  now rewrite Hloop in Hstored.
Qed.

Lemma commit_failure_rolls_back_witness :
  let w := Sample.world true 70 (Ok "yes") "[]" (Some (JList []))
             (Some (OtherError "database is locked")) in
  let m := Sample.validated [Sample.candidate "Send report" 90;
                             Sample.candidate "Review PR" 80] in
  exists t1 t2,
    generate_loop w (st m) (validated_tasks (st m)) (db m) [] (errors (st m))
      = ({| pending := [t1; t2]; stored := [] |}, [t1; t2], []) /\
    db_commit w [t1; t2] = Some (OtherError "database is locked") /\
    exists m',
      generate_tasks w m = Ok m' /\
      created_tasks (st m') = [] /\
      errors (st m') = [] ++ [DatabaseCommitFailed (OtherError "database is locked")] /\
      pending (db m') = [] /\
      stored (db m') = stored (db m).
Proof.
  intros w m. eexists. eexists.
  split; [vm_compute; reflexivity |].
  split; [reflexivity |].
  eapply (commit_failure_rolls_back w m (OtherError "database is locked")).
  - vm_compute. reflexivity.
  - reflexivity.
Defined.

(** ** The validator *)

Lemma is_empty_true (s : string) : Py.is_empty s = true <-> s = EmptyString.
Proof. destruct s; simpl; split; congruence. Qed.

Lemma Qltb_false (a b : Q) : Qltb a b = false <-> (b <= a)%Q.
Proof.
  unfold Qltb. rewrite negb_false_iff. apply Qle_bool_iff.
Qed.

(** The comparisons with an integer, as propositions: a number that is not
    below [n] is at least [n] or is NaN, and likewise from above. *)
Lemma lt_int_false (x : number) (n : Z) :
  lt_int x n = false <-> at_least n x \/ x = NaN.
Proof.
  destruct x as [q | | |]; cbn.
  - rewrite Qltb_false. split; [now left | intros [H | H]; [exact H | discriminate]].
  - split; [now left | reflexivity].
  - split; [discriminate | intros [[] | H]; discriminate].
  - split; [now right | reflexivity].
Qed.

Lemma gt_int_false (x : number) (n : Z) :
  gt_int x n = false <-> at_most n x \/ x = NaN.
Proof.
  destruct x as [q | | |]; cbn.
  - rewrite Qltb_false. split; [now left | intros [H | H]; [exact H | discriminate]].
  - split; [discriminate | intros [[] | H]; discriminate].
  - split; [now left | reflexivity].
  - split; [now right | reflexivity].
Qed.

(** One iteration on a candidate the validator can read. *)
Lemma validate_loop_cons (threshold : Z) (c : json) (rest validated : list json)
    (seen : gset string) :
  well_formed c ->
  validate_loop threshold (c :: rest) validated seen =
  if passes threshold seen c
  then validate_loop threshold rest (validated ++ [c]) ({[title_key c]} ∪ seen)
  else validate_loop threshold rest validated seen.
Proof.
  intros [[q Hq] [s Hs]].
  unfold passes, title_key, trimmed_title, confidence_of.
  rewrite Hq, Hs.
  destruct c as [| | | | | | d]; try discriminate.
  cbn [candidate_confidence candidate_title] in Hq, Hs.
  cbn [validate_loop py_get mbind result_bind default from_option id].
  unfold py_lt_int. rewrite Hq.
  destruct (lt_int q threshold);
    cbn [negb andb mbind result_bind]; [reflexivity |].
  destruct (from_option id (JStr EmptyString) (assoc "title" d)); try discriminate.
  injection Hs as ->. cbn [py_strip mbind result_bind].
  destruct (Py.is_empty (Py.strip s)); cbn [negb andb]; [reflexivity |].
  destruct (bool_decide (Py.lower (Py.strip s) ∈ seen)); reflexivity.
Qed.

Lemma passes_spec (threshold : Z) (seen : gset string) (c : json) :
  passes threshold seen c = true <->
  lt_int (confidence_of c) threshold = false /\
  trimmed_title c <> EmptyString /\
  (title_key c ∉ seen).
Proof.
  unfold passes. rewrite !andb_true_iff, !negb_true_iff.
  rewrite bool_decide_eq_false.
  rewrite <- (not_true_iff_false (Py.is_empty _)), is_empty_true. tauto.
Qed.

(** The loop from any accumulator and seen-set. *)
Lemma validate_loop_spec (threshold : Z) (cs : list json) :
  Forall well_formed cs ->
  forall (validated : list json) (seen : gset string),
  exists mask : list bool,
    length mask = length cs /\
    validate_loop threshold cs validated seen = Ok (validated ++ keep mask cs) /\
    forall (i : nat) (c : json),
      cs !! i = Some c ->
      (mask !! i = Some true <->
       lt_int (confidence_of c) threshold = false /\
       trimmed_title c <> EmptyString /\
       (title_key c ∉ seen) /\
       forall (j : nat) (c' : json),
         (j < i)%nat -> cs !! j = Some c' -> mask !! j = Some true ->
         title_key c' <> title_key c).
Proof.
  induction 1 as [| c cs Hc Hcs IH]; intros validated seen.
  - exists []. repeat split; simpl; try (now rewrite ?app_nil_r).
    all: intros; discriminate.
  - rewrite (validate_loop_cons threshold c cs validated seen Hc).
    destruct (passes threshold seen c) eqn:Hpass.
    + destruct (IH (validated ++ [c]) ({[title_key c]} ∪ seen))
        as (mask & Hlen & Hrun & Hmask).
      exists (true :: mask). split; [simpl; congruence |].
      split; [rewrite Hrun; simpl; now rewrite <- app_assoc |].
      apply passes_spec in Hpass as (Hconf & Htitle & Hseen).
      intros [| i] x Hx; simpl in Hx.
      * injection Hx as <-. simpl. split; [| reflexivity].
        intros _. repeat split; try assumption. intros j c' Hj. lia.
      * simpl. rewrite (Hmask i x Hx). split.
        -- intros (H1 & H2 & H3 & H4). repeat split; try assumption.
           ++ intros Hin. apply H3, elem_of_union. now right.
           ++ intros [| j] c' Hj Hc' Hm; simpl in Hc', Hm.
              ** injection Hc' as <-. intros Heq. apply H3, elem_of_union.
                 left. now apply elem_of_singleton.
              ** apply (H4 j c'); [lia | assumption | assumption].
        -- intros (H1 & H2 & H3 & H4). repeat split; try assumption.
           ++ assert (title_key c <> title_key x) as Hne.
              { apply (H4 0%nat c); [lia | reflexivity | reflexivity]. }
              intros [Hin | Hin]%elem_of_union; [| exact (H3 Hin)].
              apply elem_of_singleton in Hin. congruence.
           ++ intros j c' Hj Hc' Hm.
              apply (H4 (S j) c'); [lia | assumption | assumption].
    + destruct (IH validated seen) as (mask & Hlen & Hrun & Hmask).
      exists (false :: mask). split; [simpl; congruence |].
      split; [rewrite Hrun; reflexivity |].
      intros [| i] x Hx; simpl in Hx.
      * injection Hx as <-. simpl. split; [discriminate |].
        intros (H1 & H2 & H3 & _).
        assert (passes threshold seen c = true) by (apply passes_spec; tauto).
        congruence.
      * simpl. rewrite (Hmask i x Hx). split.
        -- intros (H1 & H2 & H3 & H4). repeat split; try assumption.
           intros [| j] c' Hj Hc' Hm; simpl in Hc', Hm; [discriminate |].
           apply (H4 j c'); [lia | assumption | assumption].
        -- intros (H1 & H2 & H3 & H4). repeat split; try assumption.
           intros j c' Hj Hc' Hm.
           apply (H4 (S j) c'); [lia | assumption | assumption].
Qed.

(** ** C3: what the validator accepts *)

(** On a sequence of candidates the validator can read, the Validate stage
    returns the candidates at the accepted positions, in extraction order;
    position [i] is accepted exactly when the candidate's confidence is not
    below the threshold, its trimmed title is not empty, and no candidate
    accepted at an earlier position has the same trimmed title up to case.
    Of several candidates with the same title the first acceptable one is
    kept. *)
Lemma validate_tasks_accepts (w : World) (m : Machine) (cs : list json) :
  extracted_tasks (st m) = JList cs ->
  Forall well_formed cs ->
  exists mask : list bool,
    length mask = length cs /\
    validate_tasks w m = Ok (with_st (with_validated_tasks (keep mask cs) (st m)) m) /\
    forall (i : nat) (c : json),
      cs !! i = Some c ->
      (mask !! i = Some true <->
       lt_int (confidence_of c) (MIN_CONFIDENCE_THRESHOLD w) = false /\
       trimmed_title c <> EmptyString /\
       forall (j : nat) (c' : json),
         (j < i)%nat -> cs !! j = Some c' -> mask !! j = Some true ->
         title_key c' <> title_key c).
Proof.
  intros Hcs Hwf.
  destruct (validate_loop_spec (MIN_CONFIDENCE_THRESHOLD w) cs Hwf [] ∅)
    as (mask & Hlen & Hrun & Hmask).
  exists mask. split; [assumption |]. split.
  - unfold validate_tasks. rewrite Hcs. simpl. rewrite Hrun. reflexivity.
  - intros i c Hc. rewrite (Hmask i c Hc). split.
    + intros (H1 & H2 & _ & H4). auto.
    + intros (H1 & H2 & H4). repeat split; try assumption.
      apply not_elem_of_empty.
Qed.

(** One iteration on a candidate whose confidence is NaN: the comparison
    with the threshold is false, so the candidate goes on to the title
    tests. *)
Lemma validate_loop_nan (threshold : Z) (d : list (string * json)) (t : string)
    (rest validated : list json) (seen : gset string) :
  assoc "confidence" d = Some (JFloat NaN) ->
  assoc "title" d = Some (JStr t) ->
  Py.strip t <> EmptyString ->
  Py.lower (Py.strip t) ∉ seen ->
  validate_loop threshold (JDict d :: rest) validated seen
  = validate_loop threshold rest (validated ++ [JDict d])
      ({[Py.lower (Py.strip t)]} ∪ seen).
Proof.
  intros Hconf Htitle Hne Hseen.
  cbn [validate_loop py_get mbind result_bind]. rewrite Hconf, Htitle.
  cbn [from_option id py_lt_int as_number lt_int mbind result_bind py_strip].
  destruct (Py.is_empty (Py.strip t)) eqn:Hempty;
    [apply is_empty_true in Hempty; contradiction |].
  now rewrite bool_decide_eq_false_2.
Qed.

(** C3 at the failing input: the extraction service answers with one
    candidate whose [confidence] is [NaN], which [json.loads] reads. The
    comparison [confidence < MIN_CONFIDENCE_THRESHOLD] is false of NaN, so
    the candidate is validated whatever the threshold is, although its
    confidence is not at least any threshold; the constructor of [Task]
    lets the value through as well, and the record is staged with a
    confidence score of NaN. Next to it a candidate with confidence 69 is
    dropped at threshold 70. *)
Theorem validate_tasks_keeps_nan_confidence :
  let c := JDict [("title", JStr "Send report"); ("confidence", JFloat NaN)] in
  let low := Sample.candidate "Book room" 69 in
  let reply := "[{" +:+ Sample.quoted "title" +:+ ": " +:+ Sample.quoted "Send report"
               +:+ ", " +:+ Sample.quoted "confidence" +:+ ": NaN}, "
               +:+ Sample.candidate_text "Book room" "69" +:+ "]" in
  let w := Sample.world true 70 (Ok "yes") reply (Some (JList [c; low])) None in
  (forall threshold : Z,
     validate_loop threshold [c] [] ∅ = Ok [c] /\
     ~ at_least threshold (confidence_of c)) /\
  (exists m1 m2 m3,
     analyze_message w (Sample.start Sample.request) = Ok m1 /\
     extract_tasks w m1 = Ok m2 /\
     extracted_tasks (st m2) = JList [c; low] /\
     validate_tasks w m2 = Ok m3 /\
     validated_tasks (st m3) = [c] /\
     exists task,
       generate_loop w (st m3) (validated_tasks (st m3)) (db m3) [] (errors (st m3))
       = ({| pending := [task]; stored := [] |}, [task], []) /\
       title task = JStr "Send report" /\
       confidence_score task = JFloat NaN).
Proof.
  intros c low reply w. split.
  - intros threshold. split.
    + unfold c.
      rewrite (validate_loop_nan threshold _ "Send report" [] [] ∅);
        [reflexivity | reflexivity | reflexivity | discriminate
        | apply not_elem_of_empty].
    + cbn. tauto.
  - do 3 eexists. split; [vm_compute; reflexivity |].
    split; [vm_compute; reflexivity |]. split; [reflexivity |].
    split; [vm_compute; reflexivity |]. split; [reflexivity |].
    eexists. split; [vm_compute; reflexivity |]. split; reflexivity.
Qed.

(** The example of the specification: of two candidates whose titles differ
    only in case, the first is the one kept. *)
Example validate_duplicate_titles :
  validate_loop 70
    [Sample.candidate "Send report" 90; Sample.candidate "send report" 95] [] ∅
  = Ok [Sample.candidate "Send report" 90].
Proof. vm_compute. reflexivity. Qed.

(** The threshold is inclusive, for every threshold and every title with a
    character that is not white space. *)
Lemma validate_threshold_boundary (threshold : Z) (title : string) :
  Py.strip title <> EmptyString ->
  validate_loop threshold [Sample.candidate title threshold] [] ∅
    = Ok [Sample.candidate title threshold] /\
  validate_loop threshold [Sample.candidate title (threshold - 1)] [] ∅ = Ok [].
Proof.
  intros Htitle.
  assert (Hwf : forall z, well_formed (Sample.candidate title z)).
  { intros z. split; simpl; eexists; reflexivity. }
  rewrite !validate_loop_cons by apply Hwf.
  assert (Hkeep : passes threshold ∅ (Sample.candidate title threshold) = true).
  { apply passes_spec. repeat split.
    - apply lt_int_false. left. simpl. apply Qle_refl.
    - exact Htitle.
    - apply not_elem_of_empty. }
  assert (Hdrop : passes threshold ∅ (Sample.candidate title (threshold - 1)) = false).
  { apply not_true_iff_false. intros (Hconf & _)%passes_spec.
    apply lt_int_false in Hconf as [Hconf | Hconf]; [| discriminate].
    simpl in Hconf. unfold Qle in Hconf. simpl in Hconf. lia. }
  rewrite Hkeep, Hdrop. split; reflexivity.
Qed.

(** ** C5: extraction responses that cannot be used *)

(** C5 at the failing input: the extraction service answers with an object
    without a [tasks] entry, which is an unrecognized shape. The Extract
    stage returns with an empty candidate list, but [errors] is as it was:
    the [else] branch of the shape test writes to the log only, where the
    [except] branch of the same block appends its diagnostic to [errors]. *)
Theorem unrecognized_shape_not_recorded :
  let reply := "{" +:+ Sample.quoted "note" +:+ ": "
               +:+ Sample.quoted "nothing to do" +:+ "}" in
  let w := Sample.world true 70 (Ok "yes") reply
             (Some (JDict [("note", JStr "nothing to do")])) None in
  let m := Sample.analyzed Sample.request in
  is_actionable (st m) = true /\
  (exists text v,
     ClaudeClient_generate w (content (st m)) = Ok text /\
     json_loads w (unfence text) = Some v /\
     recognized_shape v = false) /\
  (exists m',
     extract_tasks w m = Ok m' /\
     extracted_tasks (st m') = JList [] /\
     errors (st m') = errors (st m)) /\
  ~ (exists m' e,
       extract_tasks w m = Ok m' /\
       errors (st m') = errors (st m) ++ [TaskExtractionFailed e]).
Proof.
  intros reply w m. split; [reflexivity |]. split; [| split].
  - exists reply, (JDict [("note", JStr "nothing to do")]).
    repeat split; reflexivity.
  - eexists. split; [vm_compute; reflexivity |]. split; reflexivity.
  - intros (m' & e & Hrun & Herr).
    vm_compute in Hrun. injection Hrun as <-.
    vm_compute in Herr. discriminate.
Qed.

(** The candidates of a value that is not a recognized shape never reach
    the state: the block either fails, which takes a [tasks] entry that is
    not a list, or leaves an empty collection. *)
Lemma extract_response_unrecognized (state : TaskInferenceState) (v : json) :
  recognized_shape v = false ->
  ((exists e, extract_response state v = Raise e) /\ has_tasks_key v = true) \/
  (exists tasks,
     extract_response state v
       = Ok (with_confidence_scores [] (with_extracted_tasks tasks state)) /\
     py_iter tasks = Ok [] /\
     (has_tasks_key v = false -> tasks = JList [])).
Proof.
  intros Hshape. unfold extract_response.
  destruct v as [| b | z | q | s | l | d]; try discriminate Hshape;
    try (right; exists (JList []); repeat split; fail).
  simpl in Hshape. cbn [tasks_of_response has_tasks_key].
  destruct (assoc "tasks" d) as [t |] eqn:Ht.
  - assert (Hkey : bool_decide (is_Some (Some t)) = true)
      by (apply bool_decide_eq_true; eexists; reflexivity).
    rewrite Hkey.
    destruct t as [| b | z | q | s | l | d']; try discriminate Hshape;
      try (left; split; [eexists |]; reflexivity).
    + destruct s as [| c s].
      * right. exists (JStr EmptyString). repeat split. discriminate.
      * left. split; [eexists |]; reflexivity.
    + destruct d' as [| [k x] d'].
      * right. exists (JDict []). repeat split. discriminate.
      * left. split; [eexists |]; reflexivity.
  - right. exists (JList []). repeat split.
Qed.

(** When the normalized payload cannot be parsed, the Extract stage empties
    the candidate list and appends a diagnostic to [errors]. When it parses
    to a value that is not a recognized shape, no candidate is emitted
    either: iterating [extracted_tasks] yields nothing; and when the value
    is neither a list nor an object with a [tasks] entry, the candidate list
    is the empty list and [errors] is left as it was. *)
Lemma extract_unusable_response (w : World) (m : Machine) (text : string) :
  is_actionable (st m) = true ->
  ClaudeClient_generate w (content (st m)) = Ok text ->
  exists m',
    extract_tasks w m = Ok m' /\
    (json_loads w (unfence text) = None ->
       extracted_tasks (st m') = JList [] /\
       errors (st m') = errors (st m) ++ [TaskExtractionFailed ValueError]) /\
    (forall v : json,
       json_loads w (unfence text) = Some v ->
       recognized_shape v = false ->
       py_iter (extracted_tasks (st m')) = Ok [] /\
       (has_tasks_key v = false ->
          extracted_tasks (st m') = JList [] /\ errors (st m') = errors (st m))).
Proof.
  intros Hact Hgen.
  rewrite (extract_tasks_from_try w m Hact).
  unfold ClaudeClient_generate_json. rewrite Hgen. cbn [mbind result_bind].
  destruct (json_loads w (unfence text)) as [v |] eqn:Hload; cbn [mbind result_bind].
  - destruct (recognized_shape v) eqn:Hshape.
    + eexists. split; [reflexivity |].
      split; [discriminate |]. intros v' [= <-] Hv'. congruence.
    + destruct (extract_response_unrecognized (st m) v Hshape)
        as [[[e He] Hkey] | (tasks & Hok & Hiter & Hkey)].
      * rewrite He. eexists. split; [reflexivity |].
        split; [discriminate |]. intros v' [= <-] _. simpl.
        split; [reflexivity |]. congruence.
      * rewrite Hok. eexists. split; [reflexivity |].
        split; [discriminate |]. intros v' [= <-] _. simpl.
        split; [assumption |]. intros Hnokey. split; [auto | reflexivity].
  - eexists. split; [reflexivity |].
    split; [| discriminate]. intros _. split; reflexivity.
Qed.

(** ** C9: one candidate that cannot be staged does not stop the others *)

(** The range check of [Task.validate_confidence_score]. *)
Lemma validate_confidence_score_range (value : json) (x : number) :
  as_number value = Some x ->
  validate_confidence_score value =
  if lt_int x 0 || gt_int x 100 then Raise ValueError else Ok value.
Proof.
  intros Hx. unfold validate_confidence_score, py_lt_int, py_gt_int.
  rewrite Hx. cbn [mbind result_bind].
  destruct (lt_int x 0); cbn [orb]; [reflexivity |].
  destruct (gt_int x 100); reflexivity.
Qed.

(** The range check of [Task.validate_priority]; [None] is let through. *)
Lemma validate_priority_range (value : json) (x : number) :
  as_number value = Some x ->
  validate_priority value =
  if lt_int x 1 || gt_int x 5 then Raise ValueError else Ok value.
Proof.
  intros Hx. unfold validate_priority, py_lt_int, py_gt_int.
  destruct value; try discriminate Hx; rewrite Hx; cbn [mbind result_bind];
    (destruct (lt_int x 1); cbn [orb]; [reflexivity |]);
    destruct (gt_int x 5); reflexivity.
Qed.

(** One iteration of the staging loop on a candidate that fails. *)
Lemma generate_loop_failed (w : World) (state : TaskInferenceState) (c : json)
    (rest : list json) (s : Session) (created : list Task)
    (errs : list diagnostic) (e : exn) :
  build_task w state c = Raise e \/
  (exists task, build_task w state c = Ok task /\ db_add w task = Some e) ->
  generate_loop w state (c :: rest) s created errs =
  generate_loop w state rest s created (errs ++ [FailedToCreateTask e]).
Proof.
  intros [Hbuild | (task & Hbuild & Hadd)]; simpl; rewrite Hbuild.
  - reflexivity.
  - unfold session_add. now rewrite Hadd.
Qed.

(** C9. When constructing the record of one candidate fails, or adding it
    to the session fails, the staging loop appends that error to [errors],
    skips the candidate and goes on: the session and the list of created
    records gain exactly the records of the candidates before and after it
    that can be built and added, in their order, and [errors] gains the
    entries of the candidates that fail, in their order. So every other
    candidate that can be staged is staged. *)
Theorem staging_failure_isolated (w : World) (state : TaskInferenceState)
    (pre post : list json) (c : json) (s : Session) (created : list Task)
    (errs : list diagnostic) (e : exn) :
  build_task w state c = Raise e \/
  (exists task, build_task w state c = Ok task /\ db_add w task = Some e) ->
  exists s' created' errs',
    generate_loop w state (pre ++ c :: post) s created errs = (s', created', errs') /\
    pending s' = pending s ++ staged w state pre ++ staged w state post /\
    stored s' = stored s /\
    created' = created ++ staged w state pre ++ staged w state post /\
    errs' = errs ++ stage_failures w state pre ++ [FailedToCreateTask e]
                 ++ stage_failures w state post /\
    (forall (x : json) (task : Task),
       x ∈ pre ++ post ->
       build_task w state x = Ok task -> db_add w task = None ->
       task ∈ created' /\ task ∈ pending s').
Proof.
  intros Hfail.
  assert (Hone : stage_one w state c = Raise e).
  { unfold stage_one. destruct Hfail as [-> | (task & -> & Hadd)]; [reflexivity |].
    cbn [mbind result_bind]. now rewrite Hadd. }
  assert (Hstaged : staged w state (pre ++ c :: post)
                    = staged w state pre ++ staged w state post).
  { rewrite staged_app. f_equal. unfold staged. cbn [omap list_omap].
    now rewrite Hone. }
  assert (Hfailed : stage_failures w state (pre ++ c :: post)
                    = stage_failures w state pre ++ [FailedToCreateTask e]
                      ++ stage_failures w state post).
  { rewrite stage_failures_app. f_equal. unfold stage_failures.
    cbn [omap list_omap]. now rewrite Hone. }
  do 3 eexists. split; [apply generate_loop_filters |].
  rewrite Hstaged, Hfailed. cbn [pending stored].
  repeat split.
  - apply elem_of_app. right. rewrite <- staged_app.
    eapply staged_intro; eassumption.
  - apply elem_of_app. right. rewrite <- staged_app.
    eapply staged_intro; eassumption.
Qed.

Lemma staging_failure_isolated_witness :
  let w := Sample.world true 70 (Ok "yes") "[]" (Some (JList [])) None in
  let state := st (Sample.validated []) in
  let pre := [Sample.candidate "Send report" 90] in
  let c := Sample.candidate "Review PR" 150 in
  let post := [Sample.candidate "Book room" 80] in
  build_task w state c = Raise ValueError /\
  exists t1 t2,
    build_task w state (Sample.candidate "Send report" 90) = Ok t1 /\
    build_task w state (Sample.candidate "Book room" 80) = Ok t2 /\
    generate_loop w state (pre ++ c :: post) Sample.empty_session [] []
      = ({| pending := [t1; t2]; stored := [] |}, [t1; t2],
         [FailedToCreateTask ValueError]).
Proof.
  intros w state pre c post. split; [reflexivity |].
  destruct (staging_failure_isolated w state pre post c Sample.empty_session [] []
              ValueError (or_introl eq_refl))
    as (s' & created' & errs' & Hrun & Hpending & Hstored & Hcreated & Herrs & _).
  do 2 eexists. split; [reflexivity |]. split; [reflexivity |].
  rewrite Hrun. destruct s' as [p r]. cbn [pending stored] in Hpending, Hstored.
  rewrite Hpending, Hstored, Hcreated, Herrs. reflexivity.
Defined.

(** On that input two records are staged and one error is logged. *)
Example staging_skips_out_of_range_confidence :
  let w := Sample.world true 70 (Ok "yes") "[]" (Some (JList [])) None in
  let m := Sample.validated [Sample.candidate "Send report" 90;
                             Sample.candidate "Review PR" 150;
                             Sample.candidate "Book room" 80] in
  exists m' t1 t2,
    generate_tasks w m = Ok m' /\
    created_tasks (st m') = [t1; t2] /\
    title t1 = JStr "Send report" /\ title t2 = JStr "Book room" /\
    errors (st m') = [FailedToCreateTask ValueError].
Proof.
  intros w m. vm_compute. do 3 eexists. repeat split; reflexivity.
Qed.

(** ** C6: the confidence of a candidate that states none *)

(** The validator compares an absent confidence as 0. *)
Lemma absent_confidence_validated_as_0 (d : list (string * json)) :
  assoc "confidence" d = None ->
  candidate_confidence (JDict d) = Some (Finite 0).
Proof.
  intros Habsent. unfold candidate_confidence. now rewrite Habsent.
Qed.

(** The Generate stage stores 50 for it, whatever else the candidate says. *)
Lemma absent_confidence_built_as_50 (w : World) (state : TaskInferenceState)
    (d : list (string * json)) (task : Task) :
  assoc "confidence" d = None ->
  build_task w state (JDict d) = Ok task ->
  confidence_score task = JInt 50.
Proof.
  intros Habsent. unfold build_task.
  destruct (resolve_due_date w (JDict d)) as [due | e]; [| discriminate].
  cbn [mbind result_bind].
  destruct (py_getitem (JDict d) "title") as [t | e]; [| discriminate].
  cbn [mbind result_bind].
  destruct (py_prefix 500 t) as [short | e]; [| discriminate].
  cbn [mbind result_bind py_get]. rewrite Habsent. cbn [from_option].
  unfold Task_new.
  destruct (validate_status "todo") as [status' | e]; [| discriminate].
  cbn [mbind result_bind].
  destruct (validate_priority _) as [prio | e]; [| discriminate].
  cbn [mbind result_bind].
  change (validate_confidence_score (JInt 50)) with (@Ok json (JInt 50)).
  cbn [mbind result_bind]. intros [= <-]. reflexivity.
Qed.

(** C6 at the failing input: with the threshold set to 0, a candidate
    without a [confidence] entry passes validation (it is compared as 0) and
    the record persisted for it has confidence score 50, not 0. *)
Theorem absent_confidence_persisted_as_50 :
  let c := JDict [("title", JStr "Call Bob")] in
  let reply := "[{" +:+ Sample.quoted "title" +:+ ": "
               +:+ Sample.quoted "Call Bob" +:+ "}]" in
  let w := Sample.world true 0 (Ok "yes") reply (Some (JList [c])) None in
  candidate_confidence c = Some (Finite 0) /\
  validate_loop (MIN_CONFIDENCE_THRESHOLD w) [c] [] ∅ = Ok [c] /\
  exists task,
    infer_tasks_from_text w Sample.request "manual_text" 1 Sample.empty_session
      = Ok [task] /\
    title task = JStr "Call Bob" /\
    confidence_score task = JInt 50.
Proof.
  intros c reply w.
  split; [reflexivity |]. split; [vm_compute; reflexivity |].
  vm_compute. eexists. repeat split; reflexivity.
Qed.

(** ** C7: relative due dates *)

Example parse_relative_date_examples :
  let now := Sample.morning in
  _parse_relative_date now "Tomorrow" = plus_days now 1 /\
  _parse_relative_date now "next week, tomorrow at the latest" = plus_days now 1 /\
  _parse_relative_date now "by EOD next week" = plus_days now 7 /\
  _parse_relative_date now "End of Day" = Ok (replace_time now 17 0 0 0) /\
  _parse_relative_date now "eod next month" = Ok (replace_time now 17 0 0 0) /\
  _parse_relative_date now "next month, in 3 days" = plus_days now 30 /\
  _parse_relative_date now "in 3 days" = plus_days now 3 /\
  _parse_relative_date now "in 1 day" = plus_days now 1 /\
  _parse_relative_date now "whenever" = plus_days now 1.
Proof. repeat split; reflexivity. Qed.

(** The branches of the resolver in their order, on the lowered and
    stripped expression. *)
Lemma parse_relative_date_precedence (now : datetime) (date_str : string) :
  let s := Py.strip (Py.lower date_str) in
  (Py.contains "tomorrow" s = true ->
     _parse_relative_date now date_str = plus_days now 1) /\
  (Py.contains "tomorrow" s = false -> Py.contains "next week" s = true ->
     _parse_relative_date now date_str = plus_days now 7) /\
  (Py.contains "tomorrow" s = false -> Py.contains "next week" s = false ->
   Py.contains "eod" s = true \/ Py.contains "end of day" s = true ->
     _parse_relative_date now date_str = Ok (replace_time now 17 0 0 0)) /\
  (Py.contains "tomorrow" s = false -> Py.contains "next week" s = false ->
   Py.contains "eod" s = false -> Py.contains "end of day" s = false ->
   Py.contains "next month" s = true ->
     _parse_relative_date now date_str = plus_days now 30) /\
  (Py.contains "tomorrow" s = false -> Py.contains "next week" s = false ->
   Py.contains "eod" s = false -> Py.contains "end of day" s = false ->
   Py.contains "next month" s = false ->
     _parse_relative_date now date_str =
     match Py.re_search_in_days s with
     | Some digits => days ← Py.int_of_digits digits; plus_days now days
     | None => plus_days now 1
     end).
Proof.
  intros s. unfold _parse_relative_date. fold s. repeat split.
  - intros ->. reflexivity.
  - intros -> ->. reflexivity.
  - intros -> -> [-> | ->]; [reflexivity |].
    now rewrite orb_true_r.
  - intros -> -> -> -> ->. reflexivity.
  - intros -> -> -> -> ->. reflexivity.
Qed.


(** C7 at the failing input: the expression matches the pattern
    [in N days] with an [N] that [timedelta] refuses, and the resolver
    raises [OverflowError] whatever the current moment is; a smaller [N]
    that leads past the year 9999 does the same. In the Generate stage the
    exception reaches the handler of the loop body and the candidate is
    dropped. *)
Theorem parse_relative_date_overflow :
  (forall now : datetime,
     _parse_relative_date now "in 1000000000 days" = Raise OverflowError) /\
  _parse_relative_date Sample.morning "in 4000000 days" = Raise OverflowError /\
  (let c := JDict [("title", JStr "Archive the logs"); ("confidence", JInt 90);
                   ("due_date", JStr "in 4000000 days")] in
   let w := Sample.world true 70 (Ok "yes") "[]" (Some (JList [])) None in
   exists m',
     generate_tasks w (Sample.validated [c]) = Ok m' /\
     created_tasks (st m') = [] /\
     errors (st m') = [FailedToCreateTask OverflowError]).
Proof.
  split; [| split].
  - intros now. reflexivity.
  - reflexivity.
  - vm_compute. eexists. repeat split; reflexivity.
Qed.

(** ** C10: titles are cut after the duplicate check *)

(** The record built for a candidate whose title is a string holds the
    first 500 characters of that title, whatever the rest of the candidate
    says. *)
Lemma build_task_title (w : World) (state : TaskInferenceState)
    (d : list (string * json)) (t : string) (task : Task) :
  assoc "title" d = Some (JStr t) ->
  build_task w state (JDict d) = Ok task ->
  title task = JStr (Py.slice t 0 500).
Proof.
  intros Htitle. unfold build_task.
  destruct (resolve_due_date w (JDict d)) as [due | e]; [| discriminate].
  cbn [mbind result_bind py_getitem]. rewrite Htitle.
  cbn [mbind result_bind py_prefix].
  destruct (py_get (JDict d) "description" JNull) as [descr | e]; [| discriminate].
  cbn [mbind result_bind].
  destruct (py_get (JDict d) "context" JNull) as [ctx | e]; [| discriminate].
  cbn [mbind result_bind].
  destruct (py_get (JDict d) "priority" (JInt 3)) as [prio | e]; [| discriminate].
  cbn [mbind result_bind].
  destruct (py_get (JDict d) "confidence" (JInt 50)) as [conf | e]; [| discriminate].
  cbn [mbind result_bind]. unfold Task_new.
  destruct (validate_status "todo") as [status' | e]; [| discriminate].
  cbn [mbind result_bind].
  destruct (validate_priority prio) as [prio' | e]; [| discriminate].
  cbn [mbind result_bind].
  destruct (validate_confidence_score conf) as [conf' | e]; [| discriminate].
  cbn [mbind result_bind]. intros [= <-]. reflexivity.
Qed.

(** C10. There are two candidates whose titles have 501 characters, agree on
    the first 500 and differ in the last one. The validator compares the
    whole titles, trimmed and lowered, which differ, and keeps both; the
    Generate stage cuts each title to its first 500 characters when it
    builds the record, and persists both records, whose stored titles are
    that same string of 500 characters. *)
Theorem truncation_after_deduplication :
  exists (t1 t2 : string) (task1 task2 : Task) (final : Machine),
    let cs := [Sample.candidate t1 90; Sample.candidate t2 90] in
    let reply := "[" +:+ Sample.candidate_text t1 "90" +:+ ", "
                 +:+ Sample.candidate_text t2 "90" +:+ "]" in
    let w := Sample.world true 70 (Ok "yes") reply (Some (JList cs)) None in
    String.length t1 = 501%nat /\
    String.length t2 = 501%nat /\
    t1 <> t2 /\
    Py.slice t1 0 500 = Py.slice t2 0 500 /\
    String.length (Py.slice t1 0 500) = 500%nat /\
    title_key (Sample.candidate t1 90) <> title_key (Sample.candidate t2 90) /\
    ainvoke w (Sample.start Sample.request) = Ok final /\
    validated_tasks (st final) = cs /\
    created_tasks (st final) = [task1; task2] /\
    stored (db final) = [task1; task2] /\
    errors (st final) = [] /\
    title task1 = JStr (Py.slice t1 0 500) /\
    title task2 = JStr (Py.slice t2 0 500) /\
    title task1 = title task2.
Proof.
  exists (Sample.long_title "x"), (Sample.long_title "y").
  do 3 eexists. intros cs reply w.
  assert (Hdrop : forall a b : string,
            Sample.long_title a = Sample.long_title b -> a = b).
  { intros a b Heq. apply (f_equal (Py.drop 500)) in Heq. exact Heq. }
  split; [vm_compute; reflexivity |].
  split; [vm_compute; reflexivity |].
  split; [intros Heq; apply Hdrop in Heq; discriminate |].
  split; [vm_compute; reflexivity |].
  split; [vm_compute; reflexivity |].
  split.
  { intros Heq. apply (f_equal (Py.drop 500)) in Heq.
    vm_compute in Heq. discriminate. }
  split; [vm_compute; reflexivity |].
  repeat split; vm_compute; reflexivity.
Qed.

(** ** C4: which stages always return *)

(** The Validate stage returns on candidates of the data model. *)
Lemma validate_tasks_total_on_well_formed (w : World) (m : Machine) (cs : list json) :
  extracted_tasks (st m) = JList cs ->
  Forall well_formed cs ->
  returns (validate_tasks w m).
Proof.
  intros Hcs Hwf.
  destruct (validate_loop_spec (MIN_CONFIDENCE_THRESHOLD w) cs Hwf [] ∅)
    as (mask & _ & Hrun & _).
  unfold validate_tasks. rewrite Hcs. simpl. rewrite Hrun. eexists; reflexivity.
Qed.

(** C4 at the failing input: the extraction service answers with one
    candidate whose [title] is [null]. Analyze and Extract return normally
    and hand the candidate on; in the Validate stage [.strip()] is called on
    [None], the [AttributeError] is not handled by the stage, and it leaves
    the graph and the entry point. A [confidence] of [null] does the same
    with a [TypeError] at the comparison with the threshold. *)
Theorem validate_tasks_raises_on_null_title :
  let c := JDict [("title", JNull); ("confidence", JInt 90)] in
  let reply := "[{" +:+ Sample.quoted "title" +:+ ": null, "
               +:+ Sample.quoted "confidence" +:+ ": 90}]" in
  let w := Sample.world true 70 (Ok "yes") reply (Some (JList [c])) None in
  (exists m1 m2,
     analyze_message w (Sample.start Sample.request) = Ok m1 /\
     extract_tasks w m1 = Ok m2 /\
     extracted_tasks (st m2) = JList [c] /\
     errors (st m2) = [] /\
     validate_tasks w m2 = Raise AttributeError) /\
  ainvoke w (Sample.start Sample.request) = Raise AttributeError /\
  infer_tasks_from_text w Sample.request "manual_text" 1 Sample.empty_session
    = Raise AttributeError /\
  validate_loop 70 [JDict [("title", JStr "Call Bob"); ("confidence", JNull)]] [] ∅
    = Raise TypeError.
Proof.
  intros c reply w. split; [| repeat split; vm_compute; reflexivity].
  do 2 eexists. split; [vm_compute; reflexivity |].
  split; [vm_compute; reflexivity |].
  repeat split.
Qed.

(** ** Whole runs *)

(** The end-to-end example of the specification: one candidate with
    confidence 85 and no due date, threshold 70. *)
Example infer_one_task :
  let c := JDict [("title", JStr "Send Q4 report"); ("confidence", JInt 85);
                  ("due_date", JNull)] in
  let reply := "[{" +:+ Sample.quoted "title" +:+ ": " +:+ Sample.quoted "Send Q4 report"
               +:+ ", " +:+ Sample.quoted "confidence" +:+ ": 85, "
               +:+ Sample.quoted "due_date" +:+ ": null}]" in
  let w := Sample.world true 70 (Ok "Yes") reply (Some (JList [c])) None in
  infer_tasks_from_text w Sample.request "manual_text" 1 Sample.empty_session
  = Ok [ {| title := JStr "Send Q4 report"; description := JNull; context := JNull;
            status := "todo"; priority := JInt 3; confidence_score := JInt 85;
            source_type := "manual_text"; source_id := "1";
            due_date := None; inferred_at := Sample.morning |} ].
Proof. vm_compute. reflexivity. Qed.

(** A run whose commit fails after two candidates were staged returns no
    record at all. *)
Example infer_commit_failure :
  let cs := [Sample.candidate "Send report" 90; Sample.candidate "Review PR" 80] in
  let reply := "[" +:+ Sample.candidate_text "Send report" "90" +:+ ", "
               +:+ Sample.candidate_text "Review PR" "80" +:+ "]" in
  let w := Sample.world true 70 (Ok "yes") reply (Some (JList cs))
             (Some (OtherError "database is locked")) in
  infer_tasks_from_text w Sample.request "manual_text" 1 Sample.empty_session = Ok [].
Proof. vm_compute. reflexivity. Qed.

(** Non-actionable content: the classifier says no, nothing is extracted
    and nothing is stored. *)
Example infer_not_actionable :
  let w := Sample.world true 70 (Ok "No.") "[]" (Some (JList [])) None in
  exists final,
    ainvoke w (Sample.start "Thanks, see you tomorrow!") = Ok final /\
    is_actionable (st final) = false /\
    created_tasks (st final) = [] /\
    calls final = [CallClassifier (classifier_prompt "Thanks, see you tomorrow!")].
Proof. vm_compute. eexists. repeat split; reflexivity. Qed.

(** * Further properties of the code *)

(** ** The validation loop on arbitrary candidates *)

(** One iteration on a candidate the body does not fail on. *)
Lemma validate_loop_step (threshold : Z) (c : json) (rest validated : list json)
    (seen : gset string) :
  candidate_fault threshold c = None ->
  validate_loop threshold (c :: rest) validated seen =
  if passes threshold seen c
  then validate_loop threshold rest (validated ++ [c]) ({[title_key c]} ∪ seen)
  else validate_loop threshold rest validated seen.
Proof.
  intros Hok. destruct c as [| | | | | | d]; try discriminate Hok.
  unfold candidate_fault in Hok.
  destruct (candidate_confidence (JDict d)) as [q |] eqn:Hq; [| discriminate].
  destruct (lt_int q threshold) eqn:Hlow.
  - unfold passes, confidence_of. rewrite Hq. cbn [default from_option id].
    rewrite Hlow. cbn [negb andb].
    cbn [candidate_confidence] in Hq.
    cbn [validate_loop py_get mbind result_bind].
    unfold py_lt_int. rewrite Hq. cbn [mbind result_bind]. now rewrite Hlow.
  - destruct (candidate_title (JDict d)) as [s |] eqn:Hs; [| discriminate].
    apply validate_loop_cons. split; eexists; eassumption.
Qed.

(** One iteration on a candidate the body fails on. *)
Lemma validate_loop_fault (threshold : Z) (c : json) (rest validated : list json)
    (seen : gset string) (e : exn) :
  candidate_fault threshold c = Some e ->
  validate_loop threshold (c :: rest) validated seen = Raise e.
Proof.
  intros Hbad. destruct c as [| | | | | | d];
    try (injection Hbad as <-; reflexivity).
  unfold candidate_fault in Hbad. cbn [candidate_confidence candidate_title] in Hbad.
  cbn [validate_loop py_get mbind result_bind]. unfold py_lt_int.
  destruct (as_number (from_option id (JInt 0) (assoc "confidence" d))) as [q |];
    [| injection Hbad as <-; reflexivity].
  cbn [mbind result_bind].
  destruct (lt_int q threshold); [discriminate |].
  destruct (from_option id (JStr EmptyString) (assoc "title" d));
    try discriminate; injection Hbad as <-; reflexivity.
Qed.

(** On candidates without a fault the loop is the filter [accepted]. *)
Lemma validate_loop_accepted (threshold : Z) (cs : list json) :
  Forall (fun c => candidate_fault threshold c = None) cs ->
  forall (validated : list json) (seen : gset string),
    validate_loop threshold cs validated seen
    = Ok (validated ++ accepted threshold seen cs).
Proof.
  induction 1 as [| c cs Hc Hcs IH]; intros validated seen.
  - simpl. now rewrite app_nil_r.
  - rewrite (validate_loop_step threshold c cs validated seen Hc). simpl.
    destruct (passes threshold seen c).
    + rewrite IH. now rewrite <- app_assoc.
    + apply IH.
Qed.

(** The loop raises at the first candidate with a fault. *)
Lemma validate_loop_first_fault (threshold : Z) (pre post : list json) (c : json)
    (e : exn) :
  Forall (fun x => candidate_fault threshold x = None) pre ->
  candidate_fault threshold c = Some e ->
  forall (validated : list json) (seen : gset string),
    validate_loop threshold (pre ++ c :: post) validated seen = Raise e.
Proof.
  induction 1 as [| x pre Hx Hpre IH]; intros Hbad validated seen.
  - apply validate_loop_fault, Hbad.
  - cbn [app]. rewrite (validate_loop_step threshold x _ validated seen Hx).
    destruct (passes threshold seen x); apply IH, Hbad.
Qed.

(** A list either has no faulty candidate or splits at its first one. *)
Lemma first_fault_split (threshold : Z) (cs : list json) :
  Forall (fun c => candidate_fault threshold c = None) cs \/
  exists pre c post e,
    cs = pre ++ c :: post /\
    Forall (fun x => candidate_fault threshold x = None) pre /\
    candidate_fault threshold c = Some e.
Proof.
  induction cs as [| c cs IH].
  - left. constructor.
  - destruct (candidate_fault threshold c) as [e |] eqn:Hc.
    + right. exists [], c, cs, e. repeat split; [constructor | assumption].
    + destruct IH as [Hall | (pre & x & post & e & -> & Hpre & Hx)].
      * left. now constructor.
      * right. exists (c :: pre), x, post, e. repeat split; [now constructor | assumption].
Qed.

(** The Validate stage returns exactly when no candidate has a fault, and
    then with the filtered list; otherwise it raises the exception of the
    first faulty candidate, whatever comes before or after it: candidates
    already accepted are lost with it. *)
Theorem validate_loop_outcome (threshold : Z) (cs : list json) :
  (Forall (fun c => candidate_fault threshold c = None) cs <->
   validate_loop threshold cs [] ∅ = Ok (accepted threshold ∅ cs)) /\
  (forall e : exn,
     validate_loop threshold cs [] ∅ = Raise e <->
     exists pre c post,
       cs = pre ++ c :: post /\
       Forall (fun x => candidate_fault threshold x = None) pre /\
       candidate_fault threshold c = Some e).
Proof.
  destruct (first_fault_split threshold cs)
    as [Hall | (pre & c & post & e0 & -> & Hpre & Hc)].
  - pose proof (validate_loop_accepted threshold cs Hall [] ∅) as Hrun.
    split; [split; [intros _; exact Hrun | intros _; exact Hall] |].
    intros e. split.
    + rewrite Hrun. discriminate.
    + intros (pre & c & post & -> & _ & Hc).
      apply Forall_app in Hall as [_ Hall]. inversion Hall; congruence.
  - pose proof (validate_loop_first_fault threshold pre post c e0 Hpre Hc [] ∅) as Hrun.
    split.
    + split.
      * intros Hall. apply Forall_app in Hall as [_ Hall].
        inversion Hall; congruence.
      * rewrite Hrun. discriminate.
    + intros e. rewrite Hrun. split.
      * intros [= <-]. exists pre, c, post. auto.
      * intros (pre' & c' & post' & Heq & Hpre' & Hc').
        pose proof (validate_loop_first_fault threshold pre' post' c' e Hpre' Hc' [] ∅)
          as Hrun'.
        rewrite <- Heq, Hrun in Hrun'. exact Hrun'.
Qed.

(** ** What the filter keeps *)

Lemma accepted_sublist (threshold : Z) (cs : list json) :
  forall seen : gset string, sublist (accepted threshold seen cs) cs.
Proof.
  induction cs as [| c cs IH]; intros seen; simpl.
  - constructor.
  - destruct (passes threshold seen c).
    + apply sublist_skip, IH.
    + apply sublist_cons, IH.
Qed.

(** Every kept candidate passed the three tests, its title was not in the
    seen-set, and no two kept candidates have the same title key. *)
Lemma accepted_sound (threshold : Z) (cs : list json) :
  forall seen : gset string,
    Forall (fun c => lt_int (confidence_of c) threshold = false /\
                     trimmed_title c <> EmptyString /\
                     title_key c ∉ seen)
           (accepted threshold seen cs) /\
    NoDup (title_key <$> accepted threshold seen cs).
Proof.
  induction cs as [| c cs IH]; intros seen; simpl.
  - split; constructor.
  - destruct (passes threshold seen c) eqn:Hpass; [| apply IH].
    destruct (IH ({[title_key c]} ∪ seen)) as [Hall Hnodup].
    apply passes_spec in Hpass as (Hconf & Htitle & Hseen).
    split.
    + constructor; [auto |].
      eapply Forall_impl; [exact Hall |]. cbv beta.
      intros x (H1 & H2 & H3). repeat split; try assumption.
      intros Hin. apply H3, elem_of_union. now right.
    + cbn [fmap list_fmap]. constructor; [| exact Hnodup].
      intros Hin. apply list_elem_of_fmap in Hin as (x & Hkey & Hx).
      rewrite Forall_forall in Hall. destruct (Hall x Hx) as (_ & _ & Hnot).
      apply Hnot, elem_of_union. left. apply elem_of_singleton. now symmetry.
Qed.

(** Filtering the output again, from the same seen-set, changes nothing. *)
Lemma accepted_idempotent (threshold : Z) (cs : list json) :
  forall seen : gset string,
    accepted threshold seen (accepted threshold seen cs) = accepted threshold seen cs.
Proof.
  induction cs as [| c cs IH]; intros seen; simpl.
  - reflexivity.
  - destruct (passes threshold seen c) eqn:Hpass; [| apply IH].
    simpl. rewrite Hpass. f_equal. apply IH.
Qed.

(** Every acceptable title of the input is represented in the output. *)
Lemma accepted_complete (threshold : Z) (cs : list json) :
  forall (seen : gset string) (c : json),
    c ∈ cs ->
    lt_int (confidence_of c) threshold = false ->
    trimmed_title c <> EmptyString ->
    title_key c ∈ seen \/
    exists c', c' ∈ accepted threshold seen cs /\ title_key c' = title_key c.
Proof.
  induction cs as [| x cs IH]; intros seen c Hin Hconf Htitle.
  - inversion Hin.
  - simpl. destruct (decide (title_key c ∈ seen)) as [Hseen | Hseen]; [now left |].
    right. destruct (passes threshold seen x) eqn:Hpass.
    + destruct (decide (title_key x = title_key c)) as [Heq | Hne].
      * exists x. split; [apply list_elem_of_here | exact Heq].
      * apply elem_of_cons in Hin as [-> | Hin]; [congruence |].
        destruct (IH ({[title_key x]} ∪ seen) c Hin Hconf Htitle)
          as [Hseen' | (c' & Hc' & Hkey)].
        -- apply elem_of_union in Hseen' as [Hx | Hs]; [| contradiction].
           apply elem_of_singleton in Hx. congruence.
        -- exists c'. split; [now apply list_elem_of_further | exact Hkey].
    + apply elem_of_cons in Hin as [-> | Hin].
      * assert (passes threshold seen x = true) by (apply passes_spec; auto).
        congruence.
      * destruct (IH seen c Hin Hconf Htitle) as [Hseen' | Hex];
          [contradiction | exact Hex].
Qed.

(** What a returning Validate stage did. *)
Lemma validate_tasks_inv (w : World) (m m' : Machine) :
  validate_tasks w m = Ok m' ->
  exists cs,
    py_iter (extracted_tasks (st m)) = Ok cs /\
    Forall (fun c => candidate_fault (MIN_CONFIDENCE_THRESHOLD w) c = None) cs /\
    m' = with_st (with_validated_tasks
                    (accepted (MIN_CONFIDENCE_THRESHOLD w) ∅ cs) (st m)) m.
Proof.
  unfold validate_tasks. intros Hrun.
  destruct (py_iter (extracted_tasks (st m))) as [cs | e]; [| discriminate].
  cbn [mbind result_bind] in Hrun. exists cs. split; [reflexivity |].
  destruct (first_fault_split (MIN_CONFIDENCE_THRESHOLD w) cs)
    as [Hall | (pre & c & post & e & -> & Hpre & Hc)].
  - split; [exact Hall |].
    rewrite (validate_loop_accepted _ cs Hall [] ∅) in Hrun.
    cbn [mbind result_bind app] in Hrun. now injection Hrun as <-.
  - rewrite (validate_loop_first_fault _ pre post c e Hpre Hc [] ∅) in Hrun.
    discriminate.
Qed.

(** Whenever the Validate stage returns, the validated candidates are a
    subsequence of the extracted ones, in the same order, and so never
    more. *)
Theorem validated_is_subsequence (w : World) (m m' : Machine) (cs : list json) :
  extracted_tasks (st m) = JList cs ->
  validate_tasks w m = Ok m' ->
  sublist (validated_tasks (st m')) cs /\
  (length (validated_tasks (st m')) <= length cs)%nat.
Proof.
  intros Hcs Hrun.
  destruct (validate_tasks_inv w m m' Hrun) as (cs' & Hiter & _ & ->).
  rewrite Hcs in Hiter. injection Hiter as <-. cbn.
  pose proof (accepted_sublist (MIN_CONFIDENCE_THRESHOLD w) cs ∅) as Hsub.
  split; [exact Hsub | now apply sublist_length].
Qed.

(** Whenever the Validate stage returns, no validated candidate has a
    confidence below the threshold: the confidence is at least the threshold
    or it is NaN, which the comparison lets through. Every validated
    candidate has a title that is not blank, and no two validated candidates
    have the same trimmed title up to case. *)
Theorem validated_unique_not_below_threshold (w : World) (m m' : Machine) :
  validate_tasks w m = Ok m' ->
  Forall (fun c => (at_least (MIN_CONFIDENCE_THRESHOLD w) (confidence_of c) \/
                    confidence_of c = NaN) /\
                   trimmed_title c <> EmptyString)
         (validated_tasks (st m')) /\
  NoDup (title_key <$> validated_tasks (st m')).
Proof.
  intros Hrun.
  destruct (validate_tasks_inv w m m' Hrun) as (cs & _ & _ & ->). cbn.
  destruct (accepted_sound (MIN_CONFIDENCE_THRESHOLD w) cs ∅) as [Hall Hnodup].
  split; [| exact Hnodup].
  eapply Forall_impl; [exact Hall |]. cbv beta.
  intros c (Hconf & Htitle & _). split; [| exact Htitle].
  now apply lt_int_false.
Qed.

(** Running the Validate stage on its own output gives the same output. *)
Theorem validate_tasks_idempotent (w : World) (m m' : Machine) :
  validate_tasks w m = Ok m' ->
  validate_tasks w
    (with_st (with_extracted_tasks (JList (validated_tasks (st m'))) (st m')) m')
  = Ok (with_st (with_extracted_tasks (JList (validated_tasks (st m'))) (st m')) m').
Proof.
  intros Hrun.
  destruct (validate_tasks_inv w m m' Hrun) as (cs & _ & Hall & ->).
  set (thr := MIN_CONFIDENCE_THRESHOLD w) in *.
  assert (Hout : Forall (fun c => candidate_fault thr c = None) (accepted thr ∅ cs)).
  { rewrite Forall_forall in Hall |- *. intros c Hc. apply Hall.
    eapply elem_of_sublist; [exact Hc | apply accepted_sublist]. }
  unfold validate_tasks. cbn.
  fold thr. rewrite (validate_loop_accepted thr _ Hout [] ∅).
  rewrite accepted_idempotent. reflexivity.
Qed.

(** Deduplication loses no title: whenever the Validate stage returns,
    every extracted candidate that reaches the threshold and has a title
    that is not blank has a validated candidate with the same title key. *)
Theorem validated_keeps_every_title (w : World) (m m' : Machine) (cs : list json)
    (c : json) :
  extracted_tasks (st m) = JList cs ->
  validate_tasks w m = Ok m' ->
  c ∈ cs ->
  at_least (MIN_CONFIDENCE_THRESHOLD w) (confidence_of c) ->
  trimmed_title c <> EmptyString ->
  exists c', c' ∈ validated_tasks (st m') /\ title_key c' = title_key c.
Proof.
  intros Hcs Hrun Hin Hconf Htitle.
  destruct (validate_tasks_inv w m m' Hrun) as (cs' & Hiter & _ & ->).
  rewrite Hcs in Hiter. injection Hiter as <-. cbn.
  assert (Hnot : lt_int (confidence_of c) (MIN_CONFIDENCE_THRESHOLD w) = false)
    by (apply lt_int_false; now left).
  destruct (accepted_complete (MIN_CONFIDENCE_THRESHOLD w) cs ∅ c Hin Hnot Htitle)
    as [Hseen | Hex]; [| exact Hex].
  exfalso. revert Hseen. apply not_elem_of_empty.
Qed.

Lemma validated_is_subsequence_witness :
  let w := Sample.world true 70 (Ok "yes") "[]" (Some (JList [])) None in
  let cs := Sample.three_candidates in
  let m := Sample.extracted cs in
  let m' := with_st (with_validated_tasks [Sample.candidate "Send report" 90] (st m)) m in
  extracted_tasks (st m) = JList cs /\
  validate_tasks w m = Ok m' /\
  sublist (validated_tasks (st m')) cs /\
  (length (validated_tasks (st m')) <= length cs)%nat.
Proof.
  intros w cs m m'.
  assert (Hrun : validate_tasks w m = Ok m') by (vm_compute; reflexivity).
  split; [reflexivity |]. split; [exact Hrun |].
  apply (validated_is_subsequence w m m' cs); [reflexivity | exact Hrun].
Defined.

Lemma validated_unique_not_below_threshold_witness :
  let w := Sample.world true 70 (Ok "yes") "[]" (Some (JList [])) None in
  let unsure := JDict [("title", JStr "Call Bob"); ("confidence", JFloat NaN)] in
  let m := Sample.extracted (Sample.three_candidates ++ [unsure]) in
  let m' := with_st (with_validated_tasks [Sample.candidate "Send report" 90; unsure]
                       (st m)) m in
  validate_tasks w m = Ok m' /\
  Forall (fun c => (at_least (MIN_CONFIDENCE_THRESHOLD w) (confidence_of c) \/
                    confidence_of c = NaN) /\
                   trimmed_title c <> EmptyString)
         (validated_tasks (st m')) /\
  NoDup (title_key <$> validated_tasks (st m')).
Proof.
  intros w unsure m m'.
  assert (Hrun : validate_tasks w m = Ok m') by (vm_compute; reflexivity).
  split; [exact Hrun |].
  apply (validated_unique_not_below_threshold w m m' Hrun).
Defined.

Lemma validate_tasks_idempotent_witness :
  let w := Sample.world true 70 (Ok "yes") "[]" (Some (JList [])) None in
  let m := Sample.extracted Sample.three_candidates in
  let m' := with_st (with_validated_tasks [Sample.candidate "Send report" 90] (st m)) m in
  let again := with_st (with_extracted_tasks (JList (validated_tasks (st m'))) (st m')) m' in
  validate_tasks w m = Ok m' /\
  validate_tasks w again = Ok again.
Proof.
  intros w m m' again.
  assert (Hrun : validate_tasks w m = Ok m') by (vm_compute; reflexivity).
  split; [exact Hrun |].
  apply (validate_tasks_idempotent w m m' Hrun).
Defined.

Lemma validated_keeps_every_title_witness :
  let w := Sample.world true 70 (Ok "yes") "[]" (Some (JList [])) None in
  let cs := Sample.three_candidates in
  let m := Sample.extracted cs in
  let m' := with_st (with_validated_tasks [Sample.candidate "Send report" 90] (st m)) m in
  let c := Sample.candidate " send REPORT " 95 in
  extracted_tasks (st m) = JList cs /\
  validate_tasks w m = Ok m' /\
  c ∈ cs /\
  at_least (MIN_CONFIDENCE_THRESHOLD w) (confidence_of c) /\
  trimmed_title c <> EmptyString /\
  exists c', c' ∈ validated_tasks (st m') /\ title_key c' = title_key c.
Proof.
  intros w cs m m' c.
  assert (Hrun : validate_tasks w m = Ok m') by (vm_compute; reflexivity).
  assert (Hin : c ∈ cs) by (apply list_elem_of_further, list_elem_of_here).
  assert (Hconf : at_least (MIN_CONFIDENCE_THRESHOLD w) (confidence_of c))
    by (vm_compute; discriminate).
  assert (Htitle : trimmed_title c <> EmptyString) by (vm_compute; discriminate).
  split; [reflexivity |]. split; [exact Hrun |]. split; [exact Hin |].
  split; [exact Hconf |]. split; [exact Htitle |].
  apply (validated_keeps_every_title w m m' cs c); try assumption. reflexivity.
Defined.

(** ** The hooks of the task model *)

Lemma Qltb_true (a b : Q) : Qltb a b = true <-> (a < b)%Q.
Proof.
  unfold Qltb. rewrite negb_true_iff, <- not_true_iff_false, Qle_bool_iff.
  split; [apply Qnot_le_lt | apply Qlt_not_le].
Qed.

(** The two comparisons of a range test are both false exactly of the
    numbers of the range and of NaN. *)
Lemma range_test (x : number) (lo hi : Z) :
  lt_int x lo || gt_int x hi = false <->
  (at_least lo x /\ at_most hi x) \/ x = NaN.
Proof.
  rewrite orb_false_iff, lt_int_false, gt_int_false.
  destruct x as [q | | |]; cbn; intuition discriminate.
Qed.

Lemma validate_confidence_score_ok (value : json) :
  validate_confidence_score value = Ok value <-> not_outside 0 100 value.
Proof.
  unfold not_outside, in_range. destruct (as_number value) as [x |] eqn:Hx.
  - rewrite (validate_confidence_score_range value x Hx).
    destruct (lt_int x 0 || gt_int x 100) eqn:Htest.
    + split; [discriminate |]. intros Hok.
      assert (lt_int x 0 || gt_int x 100 = false); [| congruence].
      apply range_test. destruct Hok as [(x' & [= <-] & Hlo & Hhi) | [= ->]]; auto.
    + split; [intros _ | reflexivity].
      apply range_test in Htest as [[Hlo Hhi] | ->]; [left; eauto | now right].
  - unfold validate_confidence_score, py_lt_int. rewrite Hx.
    split; [discriminate | intros [(x & [=] & _) | [=]]].
Qed.

Lemma validate_priority_ok (value : json) :
  validate_priority value = Ok value <-> value = JNull \/ not_outside 1 5 value.
Proof.
  unfold not_outside, in_range. destruct (as_number value) as [x |] eqn:Hx.
  - rewrite (validate_priority_range value x Hx).
    assert (Hnn : value <> JNull) by (intros ->; discriminate).
    destruct (lt_int x 1 || gt_int x 5) eqn:Htest.
    + split; [discriminate |]. intros [? | Hok]; [contradiction |].
      assert (lt_int x 1 || gt_int x 5 = false); [| congruence].
      apply range_test. destruct Hok as [(x' & [= <-] & Hlo & Hhi) | [= ->]]; auto.
    + split; [intros _ | reflexivity]. right.
      apply range_test in Htest as [[Hlo Hhi] | ->]; [left; eauto | now right].
  - destruct value; try discriminate Hx; cbn.
    + split; [now left | reflexivity].
    + split; [discriminate | intros [[=] | [(x & [=] & _) | [=]]]].
    + split; [discriminate | intros [[=] | [(x & [=] & _) | [=]]]].
    + split; [discriminate | intros [[=] | [(x & [=] & _) | [=]]]].
Qed.

Lemma validate_status_ok (value : string) :
  validate_status value = Ok value <-> In value TaskStatus.
Proof.
  unfold validate_status.
  destruct (existsb (String.eqb value) TaskStatus) eqn:Hex.
  - split; [intros _ | reflexivity].
    apply existsb_exists in Hex as (x & Hin & Heq).
    apply String.eqb_eq in Heq. now subst.
  - split; [discriminate |]. intros Hin.
    assert (existsb (String.eqb value) TaskStatus = true).
    { apply existsb_exists. exists value. split; [exact Hin | apply String.eqb_refl]. }
    congruence.
Qed.

Lemma validator_returns_argument :
  (forall v v', validate_confidence_score v = Ok v' -> v' = v) /\
  (forall v v', validate_priority v = Ok v' -> v' = v) /\
  (forall v v', validate_status v = Ok v' -> v' = v).
Proof.
  repeat split; intros v v'.
  - unfold validate_confidence_score.
    destruct (py_lt_int v 0) as [[] |]; cbn; try discriminate.
    destruct (py_gt_int v 100) as [[] |]; cbn; try discriminate. now intros [= <-].
  - unfold validate_priority.
    destruct v; cbv beta iota; try (now intros [= <-]);
      (match goal with
       | |- context [py_lt_int ?x 1] => destruct (py_lt_int x 1) as [[] |]
       end; cbn [mbind result_bind]; try discriminate;
       match goal with
       | |- context [py_gt_int ?x 5] => destruct (py_gt_int x 5) as [[] |]
       end; cbn [mbind result_bind]; try discriminate; now intros [= <-]).
  - unfold validate_status. destruct (existsb _ _); [now intros [= <-] | discriminate].
Qed.

(** What a successful construction tells about the arguments. *)
Lemma Task_new_hooks (ttl descr ctx : json) (stat : string)
    (prio conf : json) (src sid : string)
    (due : option datetime) (inferred : datetime) (t : Task) :
  Task_new ttl descr ctx stat prio conf src sid due inferred = Ok t ->
  In stat TaskStatus /\
  (prio = JNull \/ not_outside 1 5 prio) /\
  not_outside 0 100 conf /\
  t = {| title := ttl; description := descr; context := ctx; status := stat;
         priority := prio; confidence_score := conf;
         source_type := src; source_id := sid;
         due_date := due; inferred_at := inferred |}.
Proof.
  destruct validator_returns_argument as (Hc & Hp & Hs).
  unfold Task_new.
  destruct (validate_status stat) as [s' |] eqn:Es; [| discriminate].
  pose proof (Hs _ _ Es) as ->. cbn [mbind result_bind].
  destruct (validate_priority prio) as [p' |] eqn:Ep; [| discriminate].
  pose proof (Hp _ _ Ep) as ->. cbn [mbind result_bind].
  destruct (validate_confidence_score conf) as [c' |] eqn:Ec; [| discriminate].
  pose proof (Hc _ _ Ec) as ->. cbn [mbind result_bind].
  intros [= <-].
  split; [now apply validate_status_ok |].
  split; [now apply validate_priority_ok |].
  split; [now apply validate_confidence_score_ok | reflexivity].
Qed.

(** The constructor of [Task] succeeds exactly on a status of the
    enumeration, a priority that is [None] or a number that is neither below
    1 nor above 5, and a confidence score that is a number neither below 0
    nor above 100: the numbers of the range and, since every comparison with
    it is false, NaN. The record then holds the arguments unchanged. *)
Theorem Task_new_outcome (ttl descr ctx : json) (stat : string)
    (prio conf : json) (src sid : string)
    (due : option datetime) (inferred : datetime) (t : Task) :
  Task_new ttl descr ctx stat prio conf src sid due inferred = Ok t
  <->
  In stat TaskStatus /\
  (prio = JNull \/ not_outside 1 5 prio) /\
  not_outside 0 100 conf /\
  t = {| title := ttl; description := descr; context := ctx; status := stat;
         priority := prio; confidence_score := conf;
         source_type := src; source_id := sid;
         due_date := due; inferred_at := inferred |}.
Proof.
  split; [apply Task_new_hooks |].
  intros (Hst & Hpr & Hco & ->). unfold Task_new.
  apply validate_status_ok in Hst. apply validate_priority_ok in Hpr.
  apply validate_confidence_score_ok in Hco.
  rewrite Hst. cbn [mbind result_bind]. rewrite Hpr. cbn [mbind result_bind].
  rewrite Hco. reflexivity.
Qed.

(** ** The staging loop in closed form *)

(** The staging loop adds to the session and to [created_tasks] the records
    of the candidates that can be staged, in their order, and to [errors]
    one entry for each of the others, in their order; it changes nothing
    else, and every candidate ends in exactly one of the two lists. *)
Theorem generate_loop_closed_form (w : World) (state : TaskInferenceState)
    (cs : list json) (s : Session) (created : list Task) (errs : list diagnostic) :
  generate_loop w state cs s created errs
  = ({| pending := pending s ++ staged w state cs; stored := stored s |},
     created ++ staged w state cs,
     errs ++ stage_failures w state cs)
  /\ (length (staged w state cs) + length (stage_failures w state cs) = length cs)%nat.
Proof.
  split; [apply generate_loop_filters |].
  pose proof (generate_loop_filters w state cs s created errs) as Hrun.
  assert (Hlen : (length (generate_loop w state cs s created errs).1.2
                  + length (generate_loop w state cs s created errs).2
                  = length created + length errs + length cs)%nat).
  { clear Hrun. revert s created errs.
    induction cs as [| c cs IH]; intros s created errs.
    - cbn. lia.
    - rewrite generate_loop_step.
      destruct (stage_one w state c); rewrite IH, length_app; cbn [length]; lia. }
  rewrite Hrun in Hlen. cbn [fst snd] in Hlen. rewrite !length_app in Hlen. lia.
Qed.

(** What a record built by the loop body looks like. *)
Lemma build_task_inv (w : World) (state : TaskInferenceState) (c : json) (t : Task) :
  build_task w state c = Ok t ->
  status t = "todo" /\
  task_valid t /\
  source_type t = source state /\
  source_id t = py_str_int (message_id state) /\
  inferred_at t = datetime_utcnow w /\
  resolve_due_date w c = Ok (due_date t) /\
  exists full, py_getitem c "title" = Ok full /\ py_prefix 500 full = Ok (title t).
Proof.
  unfold build_task. intros Hbuild.
  destruct (resolve_due_date w c) as [due |]; [| discriminate].
  cbn [mbind result_bind] in Hbuild.
  destruct (py_getitem c "title") as [full |]; [| discriminate].
  cbn [mbind result_bind] in Hbuild.
  destruct (py_prefix 500 full) as [short |] eqn:Hshort; [| discriminate].
  cbn [mbind result_bind] in Hbuild.
  destruct (py_get c "description" JNull) as [descr |]; [| discriminate].
  cbn [mbind result_bind] in Hbuild.
  destruct (py_get c "context" JNull) as [ctx |]; [| discriminate].
  cbn [mbind result_bind] in Hbuild.
  destruct (py_get c "priority" (JInt 3)) as [prio |]; [| discriminate].
  cbn [mbind result_bind] in Hbuild.
  destruct (py_get c "confidence" (JInt 50)) as [conf |]; [| discriminate].
  cbn [mbind result_bind] in Hbuild.
  apply Task_new_hooks in Hbuild as (Hst & Hpr & Hco & ->). cbn.
  repeat split; try assumption; try reflexivity.
  exists full. split; [reflexivity | exact Hshort].
Qed.

(** ** The Generate stage *)

Lemma substring_length_le (s : string) :
  forall a n : nat, (String.length (String.substring a n s) <= n)%nat.
Proof.
  induction s as [| c s IH]; intros a n.
  - destruct a, n; cbn; lia.
  - destruct a as [| a]; cbn.
    + destruct n as [| n]; cbn; [lia |]. specialize (IH 0%nat n). lia.
    + apply IH.
Qed.

Lemma py_prefix_within (n : nat) (v short : json) :
  py_prefix n v = Ok short -> title_within n short.
Proof.
  destruct v; cbn; try discriminate; intros [= <-]; cbn.
  - unfold Py.slice. cbv zeta.
    etransitivity; [apply substring_length_le |].
    destruct (Z.of_nat n <? 0) eqn:Hneg; lia.
  - rewrite length_take. lia.
Qed.

(** Refreshing a list of records gives the records of their rows, or fails
    at the first record that cannot be refreshed. *)
Lemma mapM_refresh_ok (w : World) (l : list Task) :
  Forall (fun t => db_refresh w t = None) l ->
  mapM (session_refresh w) l = Ok (db_row w <$> l).
Proof.
  induction 1 as [| t l Ht Hl IH].
  - reflexivity.
  - change (mapM (session_refresh w) (t :: l))
      with (y ← session_refresh w t; k ← mapM (session_refresh w) l; mret (y :: k)).
    assert (session_refresh w t = Ok (db_row w t)) as ->
      by (unfold session_refresh; now rewrite Ht).
    rewrite IH. reflexivity.
Qed.

Lemma mapM_refresh_inv (w : World) (l reloaded : list Task) :
  mapM (session_refresh w) l = Ok reloaded -> reloaded = db_row w <$> l.
Proof.
  revert reloaded. induction l as [| t l IH]; intros reloaded.
  - now intros [= <-].
  - change (mapM (session_refresh w) (t :: l))
      with (y ← session_refresh w t; k ← mapM (session_refresh w) l; mret (y :: k)).
    destruct (db_refresh w t) as [e |] eqn:Ht.
    + assert (session_refresh w t = Raise e) as ->
        by (unfold session_refresh; now rewrite Ht).
      intros [=].
    + assert (session_refresh w t = Ok (db_row w t)) as ->
        by (unfold session_refresh; now rewrite Ht).
      destruct (mapM (session_refresh w) l) as [k |]; [| intros [=]].
      intros [= <-]. now rewrite (IH k eq_refl).
Qed.

Lemma mapM_refresh_fails (w : World) (pre post : list Task) (t : Task) (e : exn) :
  Forall (fun x => db_refresh w x = None) pre ->
  db_refresh w t = Some e ->
  mapM (session_refresh w) (pre ++ t :: post) = Raise e.
Proof.
  induction 1 as [| x pre Hx Hpre IH]; intros Ht.
  - change (mapM (session_refresh w) ([] ++ t :: post))
      with (y ← session_refresh w t; k ← mapM (session_refresh w) post; mret (y :: k)).
    assert (session_refresh w t = Raise e) as ->
      by (unfold session_refresh; now rewrite Ht).
    reflexivity.
  - change (mapM (session_refresh w) ((x :: pre) ++ t :: post))
      with (y ← session_refresh w x;
            k ← mapM (session_refresh w) (pre ++ t :: post); mret (y :: k)).
    assert (session_refresh w x = Ok (db_row w x)) as ->
      by (unfold session_refresh; now rewrite Hx).
    now rewrite (IH Ht).
Qed.

(** What [commit_all] leaves in [created_tasks]: the records of the rows of
    all the records it was given, or nothing. *)
Lemma commit_all_created (w : World) (s : Session) (created : list Task)
    (errs : list diagnostic) :
  (commit_all w s created errs).1.2 = db_row w <$> created \/
  (commit_all w s created errs).1.2 = [].
Proof.
  unfold commit_all.
  destruct (session_commit w s); [| now right].
  destruct (mapM (session_refresh w) created) as [reloaded |] eqn:Hmap; [| now right].
  left. cbn. now apply mapM_refresh_inv.
Qed.

Lemma generate_tasks_unfold (w : World) (m : Machine) :
  let batch := staged w (st m) (validated_tasks (st m)) in
  let out := commit_all w
               {| pending := pending (db m) ++ batch; stored := stored (db m) |}
               batch
               (errors (st m) ++ stage_failures w (st m) (validated_tasks (st m))) in
  generate_tasks w m
  = Ok {| st := with_created_tasks out.1.2 (with_errors out.2 (st m));
          db := out.1.1; calls := calls m |}.
Proof.
  intros batch out. unfold generate_tasks.
  rewrite (generate_loop_filters w (st m) (validated_tasks (st m)) (db m) []
             (errors (st m))).
  cbn [app]. fold batch. subst out.
  destruct (commit_all w _ batch _) as [[s2 created'] errs2]. reflexivity.
Qed.

(** The Generate stage always returns, with at most one record per
    validated candidate. Each record it returns is what the database gives
    back for a record the stage built, and every record the stage builds
    has status [todo], a confidence score that is not outside 0 to 100, a
    priority that is [None] or not outside 1 to 5 (NaN passes both range
    tests), a title of at most 500 characters, and the source and message
    of the run. *)
Theorem created_tasks_well_formed (w : World) (m : Machine) :
  exists m',
    generate_tasks w m = Ok m' /\
    (length (created_tasks (st m')) <= length (validated_tasks (st m)))%nat /\
    Forall (fun t =>
              exists built c,
                t = db_row w built /\
                c ∈ validated_tasks (st m) /\
                build_task w (st m) c = Ok built /\
                status built = "todo" /\
                task_valid built /\
                title_within 500 (title built) /\
                source_type built = source (st m) /\
                source_id built = py_str_int (message_id (st m)) /\
                inferred_at built = datetime_utcnow w)
           (created_tasks (st m')).
Proof.
  eexists. split; [apply generate_tasks_unfold |]. cbn.
  set (batch := staged w (st m) (validated_tasks (st m))).
  assert (Hbatch : Forall (fun t =>
              exists built c,
                t = db_row w built /\
                c ∈ validated_tasks (st m) /\
                build_task w (st m) c = Ok built /\
                status built = "todo" /\ task_valid built /\
                title_within 500 (title built) /\
                source_type built = source (st m) /\
                source_id built = py_str_int (message_id (st m)) /\
                inferred_at built = datetime_utcnow w) (db_row w <$> batch)).
  { apply Forall_forall. intros t Ht.
    apply list_elem_of_fmap in Ht as (built & -> & Ht).
    apply staged_elem in Ht as (c & Hc & Hbuild & _).
    pose proof Hbuild as Hinv.
    apply build_task_inv in Hinv
      as (H1 & H2 & H3 & H4 & H5 & _ & full & _ & Hshort).
    exists built, c. repeat split; try assumption; try apply H2.
    eapply py_prefix_within, Hshort. }
  assert (Hlen : (length batch <= length (validated_tasks (st m)))%nat).
  { pose proof (staged_count w (st m) (validated_tasks (st m))) as Hcount.
    fold batch in Hcount. lia. }
  destruct (commit_all_created w
              {| pending := pending (db m) ++ batch; stored := stored (db m) |}
              batch
              (errors (st m) ++ stage_failures w (st m) (validated_tasks (st m))))
    as [-> | ->].
  - split; [now rewrite length_fmap | assumption].
  - split; [cbn; lia | constructor].
Qed.

(** When the commit and every refresh succeed, the Generate stage returns,
    in candidate order, the records the database gives back for the staged
    ones, which need not be the records as they were built; the table gains
    exactly the rows of the records that were pending (those of the caller
    first, then the staged ones), nothing is left pending, and [errors]
    gains only the entries of the candidates that could not be staged. *)
Theorem generate_tasks_commits (w : World) (m : Machine) :
  let batch := staged w (st m) (validated_tasks (st m)) in
  db_commit w (pending (db m) ++ batch) = None ->
  Forall (fun t => db_refresh w t = None) batch ->
  exists m',
    generate_tasks w m = Ok m' /\
    created_tasks (st m') = db_row w <$> batch /\
    stored (db m') = stored (db m) ++ (db_row w <$> (pending (db m) ++ batch)) /\
    pending (db m') = [] /\
    errors (st m') = errors (st m) ++ stage_failures w (st m) (validated_tasks (st m)) /\
    validated_tasks (st m') = validated_tasks (st m) /\
    calls m' = calls m.
Proof.
  intros batch Hcommit Hrefresh.
  eexists. split; [apply generate_tasks_unfold |]. fold batch.
  unfold commit_all, session_commit. cbn [pending stored]. rewrite Hcommit.
  rewrite (mapM_refresh_ok w batch Hrefresh).
  cbn. repeat split.
Qed.

(** When the commit succeeds and refreshing one of the records then fails,
    the rows are in the table all the same, but the Generate stage returns
    no record and logs the failure as a failed commit. *)
Theorem generate_tasks_refresh_failure (w : World) (m : Machine)
    (pre post : list Task) (t : Task) (e : exn) :
  let batch := staged w (st m) (validated_tasks (st m)) in
  batch = pre ++ t :: post ->
  db_commit w (pending (db m) ++ batch) = None ->
  Forall (fun x => db_refresh w x = None) pre ->
  db_refresh w t = Some e ->
  exists m',
    generate_tasks w m = Ok m' /\
    created_tasks (st m') = [] /\
    stored (db m') = stored (db m) ++ (db_row w <$> (pending (db m) ++ batch)) /\
    errors (st m') = (errors (st m) ++ stage_failures w (st m) (validated_tasks (st m)))
                     ++ [DatabaseCommitFailed e].
Proof.
  intros batch Hsplit Hcommit Hpre Ht.
  eexists. split; [apply generate_tasks_unfold |]. fold batch.
  unfold commit_all, session_commit. cbn [pending stored]. rewrite Hcommit.
  assert (Hmap : mapM (session_refresh w) batch = Raise e)
    by (rewrite Hsplit; now apply mapM_refresh_fails).
  rewrite Hmap. cbn. repeat split.
Qed.

(** The theorem with a database that behaves as SQLite does on the columns
    of the model: the candidate states a priority of [null] and an integer
    confidence, and the record that is returned has priority 3 and a
    [float] confidence. *)
Lemma generate_tasks_commits_witness :
  let w := Sample.with_rows Sample.sqlite_row
             (Sample.world true 70 (Ok "yes") "[]" (Some (JList [])) None) in
  let c := JDict [("title", JStr "Send report"); ("confidence", JInt 90);
                  ("priority", JNull)] in
  let m := Sample.validated [c; Sample.candidate "Review PR" 150] in
  let batch := staged w (st m) (validated_tasks (st m)) in
  db_commit w (pending (db m) ++ batch) = None /\
  Forall (fun t => db_refresh w t = None) batch /\
  (exists built,
     batch = [built] /\ priority built = JNull /\ confidence_score built = JInt 90) /\
  exists m' t,
    generate_tasks w m = Ok m' /\
    created_tasks (st m') = [t] /\
    priority t = JInt 3 /\
    confidence_score t = JFloat (Finite 90) /\
    stored (db m') = [t] /\
    pending (db m') = [] /\
    errors (st m') = [FailedToCreateTask ValueError].
Proof.
  intros w c m batch.
  assert (Hrefresh : Forall (fun t => db_refresh w t = None) batch).
  { apply Forall_forall. intros t _. reflexivity. }
  split; [reflexivity |]. split; [exact Hrefresh |].
  split; [eexists; repeat split; reflexivity |].
  destruct (generate_tasks_commits w m eq_refl Hrefresh)
    as (m' & Hrun & Hcreated & Hstored & Hpending & Herrors & _).
  exists m'. eexists. split; [exact Hrun |].
  rewrite Hcreated, Hstored, Hpending, Herrors. repeat split; reflexivity.
Defined.

Lemma generate_tasks_refresh_failure_witness :
  let w := Sample.refresh_down
             (Sample.world true 70 (Ok "yes") "[]" (Some (JList [])) None) in
  let m := Sample.validated [Sample.candidate "Send report" 90;
                             Sample.candidate "Book room" 80] in
  let batch := staged w (st m) (validated_tasks (st m)) in
  let e := OtherError "connection lost" in
  exists t post,
    batch = [] ++ t :: post /\
    db_commit w (pending (db m) ++ batch) = None /\
    Forall (fun x => db_refresh w x = None) [] /\
    db_refresh w t = Some e /\
    exists m',
      generate_tasks w m = Ok m' /\
      created_tasks (st m') = [] /\
      stored (db m') = stored (db m) ++ (db_row w <$> (pending (db m) ++ batch)) /\
      errors (st m') = (errors (st m) ++ stage_failures w (st m) (validated_tasks (st m)))
                       ++ [DatabaseCommitFailed e].
Proof.
  intros w m batch e. do 2 eexists.
  split; [vm_compute; reflexivity |]. split; [reflexivity |].
  split; [constructor |]. split; [reflexivity |].
  eapply (generate_tasks_refresh_failure w m [] _ _ e);
    [vm_compute; reflexivity | reflexivity | constructor | reflexivity].
Defined.

(** ** The extraction client and the Extract stage *)

Lemma retrying_ok {A : Type} (call : nat -> result A) (a : A) :
  forall more i : nat,
    retrying more i call = Ok a <->
    exists k : nat,
      (k <= more)%nat /\ call (i + k)%nat = Ok a /\
      forall j : nat, (j < k)%nat -> exists e, call (i + j)%nat = Raise e.
Proof.
  induction more as [| more IH]; intros i; cbn [retrying].
  - destruct (call i) as [a' | e] eqn:Hi.
    + split.
      * intros [= ->]. exists 0%nat. rewrite Nat.add_0_r. repeat split; [lia | assumption |].
        intros j Hj. lia.
      * intros (k & Hk & Hcall & _). assert (k = 0%nat) as -> by lia.
        rewrite Nat.add_0_r in Hcall. congruence.
    + split; [discriminate |].
      intros (k & Hk & Hcall & _). assert (k = 0%nat) as -> by lia.
      rewrite Nat.add_0_r in Hcall. congruence.
  - destruct (call i) as [a' | e] eqn:Hi.
    + split.
      * intros [= ->]. exists 0%nat. rewrite Nat.add_0_r. repeat split; [lia | assumption |].
        intros j Hj. lia.
      * intros (k & Hk & Hcall & Hbefore). destruct k as [| k].
        -- rewrite Nat.add_0_r in Hcall. congruence.
        -- destruct (Hbefore 0%nat ltac:(lia)) as [e He].
           rewrite Nat.add_0_r in He. congruence.
    + rewrite IH. split.
      * intros (k & Hk & Hcall & Hbefore). exists (S k).
        repeat split; [lia | now rewrite Nat.add_succ_r |].
        intros [| j] Hj.
        -- exists e. now rewrite Nat.add_0_r.
        -- rewrite Nat.add_succ_r. apply Hbefore. lia.
      * intros (k & Hk & Hcall & Hbefore). destruct k as [| k].
        -- rewrite Nat.add_0_r in Hcall. congruence.
        -- exists k. repeat split; [lia | now rewrite Nat.add_succ_r in Hcall |].
           intros j Hj. specialize (Hbefore (S j) ltac:(lia)).
           now rewrite Nat.add_succ_r in Hbefore.
Qed.

Lemma retrying_raise {A : Type} (call : nat -> result A) (e : exn) :
  forall more i : nat,
    retrying more i call = Raise e <->
    call (i + more)%nat = Raise e /\
    forall j : nat, (j < more)%nat -> exists e', call (i + j)%nat = Raise e'.
Proof.
  induction more as [| more IH]; intros i; cbn [retrying].
  - rewrite Nat.add_0_r. destruct (call i) as [a | e0].
    + split; [discriminate | intros [[=] _]].
    + split; [intros [= ->]; split; [reflexivity | intros j Hj; lia] | now intros [? _]].
  - destruct (call i) as [a | e0] eqn:Hi.
    + split; [discriminate |]. intros [_ Hbefore].
      destruct (Hbefore 0%nat ltac:(lia)) as [e' He'].
      rewrite Nat.add_0_r in He'. congruence.
    + rewrite IH. rewrite Nat.add_succ_r. cbn [Nat.add]. split.
      * intros [Hlast Hbefore]. split; [exact Hlast |].
        intros [| j] Hj.
        -- exists e0. now rewrite Nat.add_0_r.
        -- rewrite Nat.add_succ_r. apply Hbefore. lia.
      * intros [Hlast Hbefore]. split; [exact Hlast |].
        intros j Hj. specialize (Hbefore (S j) ltac:(lia)).
        now rewrite Nat.add_succ_r in Hbefore.
Qed.

(** [ClaudeClient.generate] returns the answer of the first of at most three
    attempts that succeeds, and raises the exception of the third attempt
    when all three fail; without an API key it raises [ValueError] and the
    service is not consulted. *)
Theorem ClaudeClient_generate_outcome (w : World) (user_content : string) :
  (forall text : string,
     ClaudeClient_generate w user_content = Ok text <->
     ANTHROPIC_API_KEY w <> EmptyString /\
     exists k : nat,
       (k <= 2)%nat /\ messages_create w k user_content = Ok text /\
       forall j : nat, (j < k)%nat ->
         exists e, messages_create w j user_content = Raise e) /\
  (forall e : exn,
     ClaudeClient_generate w user_content = Raise e <->
     (ANTHROPIC_API_KEY w = EmptyString /\ e = ValueError) \/
     (ANTHROPIC_API_KEY w <> EmptyString /\
      messages_create w 2 user_content = Raise e /\
      forall j : nat, (j < 2)%nat ->
        exists e', messages_create w j user_content = Raise e')).
Proof.
  unfold ClaudeClient_generate. split.
  - intros text. rewrite retrying_ok. cbn [Nat.add].
    destruct (ANTHROPIC_API_KEY w) as [| c key]; cbn [Py.is_empty].
    + split; [intros (k & _ & [=] & _) | intros [Hkey _]; congruence].
    + split; [intros Hex; split; [discriminate | exact Hex] | now intros [_ Hex]].
  - intros e. rewrite retrying_raise. cbn [Nat.add].
    destruct (ANTHROPIC_API_KEY w) as [| c key]; cbn [Py.is_empty].
    + split.
      * intros [[= <-] _]. left. split; reflexivity.
      * intros [[_ ->] | [Hkey _]]; [| congruence].
        split; [reflexivity | intros j _; eexists; reflexivity].
    + split.
      * intros [Hlast Hbefore]. right. split; [discriminate | split; assumption].
      * intros [[[=] _] | [_ Hrest]]. exact Hrest.
Qed.

(** A response that is a list of objects, bare or as the [tasks] entry of
    an object, is taken over whole: the two shapes give the same state, with
    one confidence per candidate (50 where a candidate states none) and an
    unchanged [errors]. *)
Theorem extract_tasks_list_or_wrapper (w : World) (m : Machine) (text : string)
    (v : json) (l : list json) :
  is_actionable (st m) = true ->
  ClaudeClient_generate w (content (st m)) = Ok text ->
  json_loads w (unfence text) = Some v ->
  v = JList l \/ (exists d, v = JDict d /\ assoc "tasks" d = Some (JList l)) ->
  Forall (fun c => is_object c = true) l ->
  extract_tasks w m =
  Ok {| st := with_confidence_scores (confidence_or_50 <$> l)
                (with_extracted_tasks (JList l) (st m));
        db := db m;
        calls := calls m ++ [CallExtractor (content (st m))] |}.
Proof.
  intros Hact Hgen Hload Hshape Hobj.
  rewrite (extract_tasks_from_try w m Hact).
  assert (Htasks : tasks_of_response v = JList l).
  { destruct Hshape as [-> | (d & -> & Hd)]; [reflexivity |].
    cbn. now rewrite Hd. }
  unfold ClaudeClient_generate_json.
  rewrite Hgen. cbn [mbind result_bind]. rewrite Hload. cbn [mbind result_bind].
  now rewrite (extract_response_objects (st m) v l Htasks Hobj).
Qed.

(** One element that is not an object spoils the whole response: the
    candidate list is emptied, the other candidates are not kept, and an
    [AttributeError] diagnostic is appended to [errors]. *)
Theorem extract_tasks_all_or_nothing (w : World) (m : Machine) (text : string)
    (v : json) (l : list json) :
  is_actionable (st m) = true ->
  ClaudeClient_generate w (content (st m)) = Ok text ->
  json_loads w (unfence text) = Some v ->
  v = JList l \/ (exists d, v = JDict d /\ assoc "tasks" d = Some (JList l)) ->
  Exists (fun c => is_object c = false) l ->
  extract_tasks w m =
  Ok {| st := with_errors (errors (st m) ++ [TaskExtractionFailed AttributeError])
                (with_extracted_tasks (JList []) (st m));
        db := db m;
        calls := calls m ++ [CallExtractor (content (st m))] |}.
Proof.
  intros Hact Hgen Hload Hshape Hbad.
  rewrite (extract_tasks_from_try w m Hact).
  assert (Htasks : tasks_of_response v = JList l).
  { destruct Hshape as [-> | (d & -> & Hd)]; [reflexivity |].
    cbn. now rewrite Hd. }
  unfold ClaudeClient_generate_json.
  rewrite Hgen. cbn [mbind result_bind]. rewrite Hload. cbn [mbind result_bind].
  now rewrite (extract_response_spoiled (st m) v l Htasks Hbad).
Qed.

Lemma extract_tasks_list_or_wrapper_witness :
  let c := Sample.candidate "Send report" 90 in
  let reply := "{" +:+ Sample.quoted "tasks" +:+ ": ["
               +:+ Sample.candidate_text "Send report" "90" +:+ "]}" in
  let v := JDict [("tasks", JList [c])] in
  let w := Sample.world true 70 (Ok "yes") reply (Some v) None in
  let m := Sample.analyzed Sample.request in
  is_actionable (st m) = true /\
  ClaudeClient_generate w (content (st m)) = Ok reply /\
  json_loads w (unfence reply) = Some v /\
  (v = JList [c] \/ (exists d, v = JDict d /\ assoc "tasks" d = Some (JList [c]))) /\
  Forall (fun c => is_object c = true) [c] /\
  extract_tasks w m =
  Ok {| st := with_confidence_scores (confidence_or_50 <$> [c])
                (with_extracted_tasks (JList [c]) (st m));
        db := db m;
        calls := calls m ++ [CallExtractor (content (st m))] |}.
Proof.
  intros c reply v w m.
  assert (Hshape : v = JList [c] \/
                   (exists d, v = JDict d /\ assoc "tasks" d = Some (JList [c])))
    by (right; eexists; split; reflexivity).
  assert (Hobj : Forall (fun c => is_object c = true) [c])
    by (repeat constructor).
  split; [reflexivity |]. split; [reflexivity |]. split; [reflexivity |].
  split; [exact Hshape |]. split; [exact Hobj |].
  apply (extract_tasks_list_or_wrapper w m reply v [c]);
    [reflexivity | reflexivity | reflexivity | exact Hshape | exact Hobj].
Defined.

Lemma extract_tasks_all_or_nothing_witness :
  let c := Sample.candidate "Send report" 90 in
  let reply := "[" +:+ Sample.candidate_text "Send report" "90" +:+ ", "
               +:+ Sample.quoted "Call Bob" +:+ "]" in
  let l := [c; JStr "Call Bob"] in
  let w := Sample.world true 70 (Ok "yes") reply (Some (JList l)) None in
  let m := Sample.analyzed Sample.request in
  is_actionable (st m) = true /\
  ClaudeClient_generate w (content (st m)) = Ok reply /\
  json_loads w (unfence reply) = Some (JList l) /\
  (JList l = JList l \/ (exists d, JList l = JDict d /\ assoc "tasks" d = Some (JList l))) /\
  Exists (fun c => is_object c = false) l /\
  extract_tasks w m =
  Ok {| st := with_errors (errors (st m) ++ [TaskExtractionFailed AttributeError])
                (with_extracted_tasks (JList []) (st m));
        db := db m;
        calls := calls m ++ [CallExtractor (content (st m))] |}.
Proof.
  intros c reply l w m.
  assert (Hbad : Exists (fun c => is_object c = false) l)
    by (apply Exists_cons_tl, Exists_cons_hd; reflexivity).
  split; [reflexivity |]. split; [reflexivity |]. split; [reflexivity |].
  split; [now left |]. split; [exact Hbad |].
  apply (extract_tasks_all_or_nothing w m reply (JList l) l);
    [reflexivity | reflexivity | reflexivity | now left | exact Hbad].
Defined.

(** ** Whole runs of the graph *)

Lemma analyze_message_frame (w : World) (m : Machine) :
  exists b : bool,
    analyze_message w m =
    Ok {| st := with_is_actionable b (st m);
          db := db m;
          calls := if USE_LOCAL_LLM_FOR_CLASSIFICATION w
                   then calls m ++ [CallClassifier (classifier_prompt (content (st m)))]
                   else calls m |}.
Proof.
  unfold analyze_message, analyze_message_with.
  destruct (try_except _ _) as [b | e] eqn:Hverdict.
  - exists b. reflexivity.
  - exfalso. destruct (USE_LOCAL_LLM_FOR_CLASSIFICATION w); [| discriminate].
    destruct (OllamaClient_is_actionable w (content (st m))); discriminate.
Qed.

(** What the Extract stage can leave in [extracted_tasks]: something the
    Validate stage can iterate, with objects only. *)
Lemma extract_tasks_shape (w : World) (m : Machine) :
  exists m2 l,
    extract_tasks w m = Ok m2 /\
    py_iter (extracted_tasks (st m2)) = Ok l /\
    Forall (fun c => is_object c = true) l /\
    db m2 = db m /\
    content (st m2) = content (st m) /\
    source (st m2) = source (st m) /\
    message_id (st m2) = message_id (st m) /\
    is_actionable (st m2) = is_actionable (st m) /\
    (exists extra, errors (st m2) = errors (st m) ++ extra) /\
    calls m2 = calls m ++ (if is_actionable (st m)
                           then [CallExtractor (content (st m))] else []).
Proof.
  destruct (is_actionable (st m)) eqn:Hact.
  - rewrite (extract_tasks_from_try w m Hact).
    destruct (response_json ← ClaudeClient_generate_json w (content (st m));
              extract_response (st m) response_json) as [state' | e] eqn:Htry.
    + destruct (ClaudeClient_generate_json w (content (st m))) as [v |];
        [| discriminate].
      cbn [mbind result_bind] in Htry. unfold extract_response in Htry.
      cbv zeta in Htry.
      destruct (py_iter (tasks_of_response v)) as [items |] eqn:Hiter; [| discriminate].
      cbn [mbind result_bind] in Htry.
      destruct (mapM _ items) as [scores |] eqn:Hmap; [| discriminate].
      injection Htry as <-.
      eexists. exists items. split; [reflexivity |]. cbn.
      split; [exact Hiter |]. split.
      * apply Forall_forall. intros c Hc.
        destruct (is_object c) eqn:Hobj; [reflexivity |].
        rewrite mapM_confidence_fails in Hmap; [discriminate |].
        apply Exists_exists. exists c. split; [exact Hc | exact Hobj].
      * repeat split; try assumption. exists []. now rewrite app_nil_r.
    + eexists. exists []. split; [reflexivity |]. cbn.
      repeat split; try assumption; [constructor | eexists; reflexivity].
  - rewrite (extract_tasks_skip w m Hact).
    eexists. exists []. split; [reflexivity |]. cbn.
    repeat split; try assumption; [constructor | | now rewrite app_nil_r].
    exists []. now rewrite app_nil_r.
Qed.

Lemma candidate_fault_exn (threshold : Z) (c : json) (e : exn) :
  candidate_fault threshold c = Some e -> e = TypeError \/ e = AttributeError.
Proof.
  unfold candidate_fault. destruct c; try (intros [= <-]; now right).
  destruct (candidate_confidence _); [| intros [= <-]; now left].
  destruct (lt_int _ _); [discriminate |].
  destruct (candidate_title _); [discriminate | intros [= <-]; now right].
Qed.

Lemma validate_tasks_raise_inv (w : World) (m : Machine) (l : list json) (e : exn) :
  py_iter (extracted_tasks (st m)) = Ok l ->
  validate_tasks w m = Raise e <->
  exists pre c post,
    l = pre ++ c :: post /\
    Forall (fun x => candidate_fault (MIN_CONFIDENCE_THRESHOLD w) x = None) pre /\
    candidate_fault (MIN_CONFIDENCE_THRESHOLD w) c = Some e.
Proof.
  intros Hiter. unfold validate_tasks. rewrite Hiter. cbn [mbind result_bind].
  destruct (first_fault_split (MIN_CONFIDENCE_THRESHOLD w) l)
    as [Hall | (pre & c & post & e0 & -> & Hpre & Hc)].
  - rewrite (validate_loop_accepted _ l Hall [] ∅). cbn [mbind result_bind].
    split; [discriminate |]. intros (pre & c & post & -> & _ & Hc).
    apply Forall_app in Hall as [_ Hall]. inversion Hall; congruence.
  - pose proof (validate_loop_first_fault _ pre post c e0 Hpre Hc [] ∅) as Hrun.
    rewrite Hrun. cbn [mbind result_bind]. split.
    + intros [= <-]. exists pre, c, post. auto.
    + intros (pre' & c' & post' & Heq & Hpre' & Hc').
      pose proof (validate_loop_first_fault _ pre' post' c' e Hpre' Hc' [] ∅) as Hrun'.
      rewrite <- Heq, Hrun in Hrun'. now injection Hrun' as ->.
Qed.

Lemma ainvoke_after_extract (w : World) (m m2 : Machine) :
  analyze_then_extract w m = Ok m2 ->
  ainvoke w m = (m3 ← validate_tasks w m2; generate_tasks w m3).
Proof.
  unfold analyze_then_extract, ainvoke.
  destruct (analyze_message w m) as [m1 |]; [| discriminate].
  cbn [mbind result_bind]. now intros ->.
Qed.

(** Where an exception of the graph comes from. *)
Lemma ainvoke_raise_inv (w : World) (m : Machine) (e : exn) :
  ainvoke w m = Raise e ->
  exists m2 pre c post,
    analyze_then_extract w m = Ok m2 /\
    py_iter (extracted_tasks (st m2)) = Ok (pre ++ c :: post) /\
    Forall (fun x => candidate_fault (MIN_CONFIDENCE_THRESHOLD w) x = None) pre /\
    candidate_fault (MIN_CONFIDENCE_THRESHOLD w) c = Some e /\
    (e = TypeError \/ e = AttributeError).
Proof.
  unfold ainvoke, analyze_then_extract.
  destruct (analyze_message_frame w m) as [b ->]. cbn [mbind result_bind].
  match goal with |- context [extract_tasks w ?x] => set (m1 := x) end.
  destruct (extract_tasks_shape w m1) as (m2 & l & -> & Hiter & _).
  cbn [mbind result_bind].
  destruct (validate_tasks w m2) as [m3 | e0] eqn:Hval; cbn [mbind result_bind].
  - destruct (generate_tasks_total w m3) as [m4 ->]. discriminate.
  - apply (validate_tasks_raise_inv w m2 l e0 Hiter) in Hval
      as (pre & c & post & -> & Hpre & Hc).
    intros [= <-]. exists m2, pre, c, post.
    repeat split; try assumption. eapply candidate_fault_exn, Hc.
Qed.

(** The graph raises exactly when the candidates the Extract stage left
    contain one the validation loop fails on, and it raises the exception of
    the first such candidate, a [TypeError] or an [AttributeError]; nothing
    else escapes a run. *)
Theorem ainvoke_raises_iff (w : World) (m : Machine) (e : exn) :
  ainvoke w m = Raise e <->
  exists m2 pre c post,
    analyze_then_extract w m = Ok m2 /\
    py_iter (extracted_tasks (st m2)) = Ok (pre ++ c :: post) /\
    Forall (fun x => candidate_fault (MIN_CONFIDENCE_THRESHOLD w) x = None) pre /\
    candidate_fault (MIN_CONFIDENCE_THRESHOLD w) c = Some e /\
    (e = TypeError \/ e = AttributeError).
Proof.
  split; [apply ainvoke_raise_inv |].
  intros (m2 & pre & c & post & Hpre & Hiter & Hok & Hc & _).
  rewrite (ainvoke_after_extract w m m2 Hpre).
  assert (Hraise : validate_tasks w m2 = Raise e).
  { apply (validate_tasks_raise_inv w m2 (pre ++ c :: post) e Hiter).
    exists pre, c, post. auto. }
  now rewrite Hraise.
Qed.

(** What [commit_all] does to the session and the log. *)
Lemma commit_all_frame (w : World) (s : Session) (created : list Task)
    (errs : list diagnostic) :
  pending (commit_all w s created errs).1.1 = [] /\
  (exists added, stored (commit_all w s created errs).1.1 = stored s ++ added) /\
  (exists extra, (commit_all w s created errs).2 = errs ++ extra).
Proof.
  unfold commit_all, session_commit.
  destruct (db_commit w (pending s)); cbn.
  - repeat split; [exists [] | eexists]; [now rewrite app_nil_r | reflexivity].
  - destruct (mapM (session_refresh w) created); cbn.
    + repeat split; [eexists; reflexivity | exists []; now rewrite app_nil_r].
    + repeat split; eexists; reflexivity.
Qed.

(** When the Extract stage leaves no candidate, the run ends with nothing
    validated and nothing created. *)
Lemma ainvoke_no_candidates (w : World) (m m2 : Machine) :
  analyze_then_extract w m = Ok m2 ->
  py_iter (extracted_tasks (st m2)) = Ok [] ->
  exists final,
    ainvoke w m = Ok final /\
    validated_tasks (st final) = [] /\
    created_tasks (st final) = [] /\
    extracted_tasks (st final) = extracted_tasks (st m2) /\
    is_actionable (st final) = is_actionable (st m2) /\
    calls final = calls m2 /\
    (pending (db m2) = [] -> db_commit w [] = None ->
       db final = db m2 /\ errors (st final) = errors (st m2)).
Proof.
  intros Hpre Hiter. rewrite (ainvoke_after_extract w m m2 Hpre).
  unfold validate_tasks. rewrite Hiter. cbn [mbind result_bind validate_loop].
  rewrite generate_tasks_unfold. cbn [st with_st validated_tasks with_validated_tasks
    staged stage_failures omap list_omap db calls errors].
  rewrite !app_nil_r.
  eexists. split; [reflexivity |]. cbn.
  split; [reflexivity |]. split.
  { destruct (commit_all_created w
                {| pending := pending (db m2); stored := stored (db m2) |} []
                (errors (st m2))) as [H | H]; exact H. }
  split; [reflexivity |]. split; [reflexivity |]. split; [reflexivity |].
  intros Hpending Hcommit. unfold commit_all, session_commit. cbn.
  rewrite Hpending, Hcommit. cbn. rewrite app_nil_r.
  split; [| reflexivity].
  destruct (db m2) as [p s]; cbn in *; now subst.
Qed.

(** Content the classifier answers without a yes in the first ten
    characters: the extraction client is not called, nothing is extracted,
    validated or created; the commit of the session still takes place, and
    with nothing pending and a commit that succeeds the session and
    [errors] are as they were. *)
Theorem ainvoke_not_actionable (w : World) (m : Machine) (reply : string) :
  USE_LOCAL_LLM_FOR_CLASSIFICATION w = true ->
  ollama_generate w (classifier_prompt (content (st m))) = Ok reply ->
  Py.contains "yes" (Py.slice (Py.lower reply) 0 10) = false ->
  exists final,
    ainvoke w m = Ok final /\
    is_actionable (st final) = false /\
    extracted_tasks (st final) = JList [] /\
    validated_tasks (st final) = [] /\
    created_tasks (st final) = [] /\
    calls final = calls m ++ [CallClassifier (classifier_prompt (content (st m)))] /\
    (pending (db m) = [] -> db_commit w [] = None ->
       db final = db m /\ errors (st final) = errors (st m)).
Proof.
  intros Hlocal Hreply Hno.
  assert (Hpre : analyze_then_extract w m
    = Ok (with_st (with_extracted_tasks (JList []) (with_is_actionable false (st m)))
            {| st := with_is_actionable false (st m); db := db m;
               calls := calls m ++ [CallClassifier (classifier_prompt (content (st m)))] |})).
  { unfold analyze_then_extract, analyze_message, analyze_message_with.
    rewrite Hlocal. unfold OllamaClient_is_actionable, OllamaClient_generate.
    cbn [st content with_is_actionable]. rewrite Hreply.
    cbn [try_except mbind result_bind]. rewrite Hno.
    cbn [try_except mbind result_bind]. now rewrite extract_tasks_skip. }
  destruct (ainvoke_no_candidates w m _ Hpre eq_refl)
    as (final & Hrun & H1 & H2 & H3 & H4 & H5 & H6).
  exists final. cbn in H3, H4, H5, H6.
  split; [exact Hrun |]. split; [exact H4 |]. split; [exact H3 |].
  split; [exact H1 |]. split; [exact H2 |]. split; [exact H5 |]. exact H6.
Qed.

(** When the extraction client fails (no API key, three failed attempts, or
    a reply that is not JSON), [infer_tasks_from_text] returns the empty
    list rather than raising. *)
Theorem infer_tasks_client_failure (w : World) (text source_name : string)
    (id : Z) (s : Session) (e : exn) :
  ClaudeClient_generate_json w text = Raise e ->
  infer_tasks_from_text w text source_name id s = Ok [].
Proof.
  intros Hfail. unfold infer_tasks_from_text.
  set (m := {| st := initial_state text source_name id; db := s; calls := [] |}).
  assert (Hpre : exists m2, analyze_then_extract w m = Ok m2 /\
                            extracted_tasks (st m2) = JList []).
  { unfold analyze_then_extract.
    destruct (analyze_message_frame w m) as [b ->]. cbn [mbind result_bind].
    destruct b.
    - rewrite extract_tasks_from_try by reflexivity.
      cbn [st content with_is_actionable initial_state m].
      rewrite Hfail. eexists. split; reflexivity.
    - rewrite extract_tasks_skip by reflexivity. eexists. split; reflexivity. }
  destruct Hpre as (m2 & Hpre & Hnone).
  assert (Hiter : py_iter (extracted_tasks (st m2)) = Ok []) by now rewrite Hnone.
  destruct (ainvoke_no_candidates w m m2 Hpre Hiter) as (final & Hrun & _ & Hcreated & _).
  rewrite Hrun. cbn [mbind result_bind]. now rewrite Hcreated.
Qed.

(** Where the candidates the Extract stage leaves come from: the answer of
    the extraction client to the content of the state. *)
Lemma extract_tasks_origin (w : World) (m m2 : Machine) (l : list json) :
  extract_tasks w m = Ok m2 ->
  py_iter (extracted_tasks (st m2)) = Ok l ->
  l = [] \/
  exists v,
    ClaudeClient_generate_json w (content (st m)) = Ok v /\
    py_iter (tasks_of_response v) = Ok l.
Proof.
  destruct (is_actionable (st m)) eqn:Hact.
  - rewrite (extract_tasks_from_try w m Hact).
    destruct (ClaudeClient_generate_json w (content (st m))) as [v | e];
      cbn [mbind result_bind].
    + destruct (extract_response (st m) v) as [state' | e] eqn:Htry.
      * intros [= <-]. cbn [st]. unfold extract_response in Htry. cbv zeta in Htry.
        destruct (py_iter (tasks_of_response v)) as [items |] eqn:Hiter; [| discriminate].
        cbn [mbind result_bind] in Htry.
        destruct (mapM _ items); [| discriminate].
        injection Htry as <-. cbn. rewrite Hiter. intros [= <-].
        right. exists v. split; [reflexivity | exact Hiter].
      * intros [= <-]. cbn. intros [= <-]. now left.
    + intros [= <-]. cbn. intros [= <-]. now left.
  - rewrite (extract_tasks_skip w m Hact). intros [= <-]. cbn.
    intros [= <-]. now left.
Qed.

Lemma well_formed_no_fault (threshold : Z) (c : json) :
  well_formed c -> candidate_fault threshold c = None.
Proof.
  intros [[q Hq] [s Hs]]. unfold candidate_fault.
  destruct c; try discriminate Hq. rewrite Hq, Hs.
  now destruct (lt_int _ _).
Qed.

(** If the answer of the extraction client to the content, when there is
    one, holds only candidates the validator can read (an object each, with
    a confidence that is a number or absent and a title that is a string or
    absent), [infer_tasks_from_text] returns, whatever the classifier, the
    clock and the database do. *)
Theorem infer_tasks_returns (w : World) (text source_name : string) (id : Z)
    (s : Session) :
  (forall (v : json) (l : list json),
     ClaudeClient_generate_json w text = Ok v ->
     py_iter (tasks_of_response v) = Ok l ->
     Forall well_formed l) ->
  exists tasks, infer_tasks_from_text w text source_name id s = Ok tasks.
Proof.
  intros Hreply. unfold infer_tasks_from_text.
  set (m := {| st := initial_state text source_name id; db := s; calls := [] |}).
  destruct (ainvoke w m) as [final | e] eqn:Hrun.
  - eexists. reflexivity.
  - exfalso.
    apply ainvoke_raise_inv in Hrun
      as (m2 & pre & c & post & Hpre & Hiter & _ & Hc & _).
    unfold analyze_then_extract in Hpre.
    destruct (analyze_message_frame w m) as [b Hm1]. rewrite Hm1 in Hpre.
    cbn [mbind result_bind] in Hpre.
    destruct (extract_tasks_origin w _ m2 _ Hpre Hiter)
      as [Hnil | (v & Hanswer & Hv)].
    + destruct pre; discriminate.
    + cbn [st content with_is_actionable initial_state m] in Hanswer.
      pose proof (Hreply v _ Hanswer Hv) as Hwf.
      apply Forall_app in Hwf as [_ Hwf]. inversion Hwf as [| ? ? Hcwf _]; subst.
      rewrite (well_formed_no_fault _ c Hcwf) in Hc. discriminate.
Qed.

Lemma ainvoke_not_actionable_witness :
  let w := Sample.world true 70 (Ok "No, nothing to do, yes?") "[]" (Some (JList [])) None in
  let m := Sample.start "Thanks, see you tomorrow!" in
  let reply := "No, nothing to do, yes?" in
  USE_LOCAL_LLM_FOR_CLASSIFICATION w = true /\
  ollama_generate w (classifier_prompt (content (st m))) = Ok reply /\
  Py.contains "yes" (Py.slice (Py.lower reply) 0 10) = false /\
  exists final,
    ainvoke w m = Ok final /\
    is_actionable (st final) = false /\
    extracted_tasks (st final) = JList [] /\
    validated_tasks (st final) = [] /\
    created_tasks (st final) = [] /\
    calls final = calls m ++ [CallClassifier (classifier_prompt (content (st m)))] /\
    (pending (db m) = [] -> db_commit w [] = None ->
       db final = db m /\ errors (st final) = errors (st m)).
Proof.
  intros w m reply.
  split; [reflexivity |]. split; [reflexivity |]. split; [reflexivity |].
  apply (ainvoke_not_actionable w m reply); reflexivity.
Defined.

Lemma infer_tasks_client_failure_witness :
  let w := Sample.with_service EmptyString (fun _ _ => Ok "[]")
             (Sample.world true 70 (Ok "yes") "[]" (Some (JList [])) None) in
  ClaudeClient_generate_json w Sample.request = Raise ValueError /\
  infer_tasks_from_text w Sample.request "manual_text" 1 Sample.empty_session = Ok [].
Proof.
  intros w. split; [reflexivity |].
  apply (infer_tasks_client_failure w Sample.request "manual_text" 1
           Sample.empty_session ValueError).
  reflexivity.
Defined.

Lemma infer_tasks_returns_witness :
  let unsure := JDict [("title", JStr "Call Bob"); ("confidence", JFloat NaN)] in
  let cs := [Sample.candidate "Send report" 90; unsure;
             JDict [("description", JStr "no title, no confidence")]] in
  let reply := "[" +:+ Sample.candidate_text "Send report" "90" +:+ ", {"
               +:+ Sample.quoted "title" +:+ ": " +:+ Sample.quoted "Call Bob" +:+ ", "
               +:+ Sample.quoted "confidence" +:+ ": NaN}, {"
               +:+ Sample.quoted "description" +:+ ": "
               +:+ Sample.quoted "no title, no confidence" +:+ "}]" in
  let w := Sample.world true 70 (Ok "yes") reply (Some (JList cs)) None in
  ClaudeClient_generate_json w Sample.request = Ok (JList cs) /\
  Forall well_formed cs /\
  exists tasks,
    infer_tasks_from_text w Sample.request "manual_text" 1 Sample.empty_session
    = Ok tasks.
Proof.
  intros unsure cs reply w.
  assert (Hwf : Forall well_formed cs).
  { repeat constructor; cbn; eexists; reflexivity. }
  split; [reflexivity |]. split; [exact Hwf |].
  apply (infer_tasks_returns w Sample.request "manual_text" 1 Sample.empty_session).
  intros v l Hanswer Hiter.
  assert (Hgen : ClaudeClient_generate_json w Sample.request = Ok (JList cs))
    by reflexivity.
  rewrite Hgen in Hanswer. injection Hanswer as <-.
  cbn in Hiter. injection Hiter as <-. exact Hwf.
Defined.

(** A run that returns has left the inputs of the state alone, has only
    appended to [errors], has called the classifier at most once and then the
    extraction client at most once (exactly when the content counted as
    actionable), has committed or rolled back everything that was pending,
    and has not removed or changed a row of the table; it reports at most as
    many records as it validated candidates. *)
Theorem ainvoke_frame (w : World) (m final : Machine) :
  ainvoke w m = Ok final ->
  content (st final) = content (st m) /\
  source (st final) = source (st m) /\
  message_id (st final) = message_id (st m) /\
  (exists extra, errors (st final) = errors (st m) ++ extra) /\
  calls final =
    (calls m ++ (if USE_LOCAL_LLM_FOR_CLASSIFICATION w
                 then [CallClassifier (classifier_prompt (content (st m)))] else []))
    ++ (if is_actionable (st final) then [CallExtractor (content (st m))] else []) /\
  pending (db final) = [] /\
  (exists added, stored (db final) = stored (db m) ++ added) /\
  (length (created_tasks (st final)) <= length (validated_tasks (st final)))%nat.
Proof.
  unfold ainvoke.
  destruct (analyze_message_frame w m) as [b ->]. cbn [mbind result_bind].
  match goal with |- context [extract_tasks w ?x] => set (m1 := x) end.
  destruct (extract_tasks_shape w m1)
    as (m2 & l & -> & Hiter & _ & Hdb & Hcontent & Hsource & Hid & Hact & [ex1 Herr] & Hcalls).
  cbn [mbind result_bind].
  destruct (validate_tasks w m2) as [m3 |] eqn:Hval; [| discriminate].
  cbn [mbind result_bind].
  apply validate_tasks_inv in Hval as (cs & _ & _ & ->).
  rewrite generate_tasks_unfold. intros [= <-].
  cbn [st db calls with_st with_validated_tasks with_created_tasks with_errors
       content source message_id errors validated_tasks created_tasks is_actionable].
  match goal with |- context [commit_all w ?s ?c ?e] =>
    destruct (commit_all_frame w s c e) as (Hpending & [added Hstored] & [ex2 Hlog]);
    destruct (commit_all_created w s c e) as [Hcreated | Hcreated]
  end.
  all: rewrite Hcontent, Hsource, Hid, Hact, Hpending, Hstored, Hlog, Hcreated, Hcalls;
    cbn [stored pending]; rewrite Hdb, Herr; subst m1;
    cbn [st db calls content source message_id errors is_actionable with_is_actionable].
  all: split; [reflexivity |]; split; [reflexivity |]; split; [reflexivity |].
  all: split; [eexists; rewrite <- !app_assoc; reflexivity |].
  all: split; [destruct (USE_LOCAL_LLM_FOR_CLASSIFICATION w);
               rewrite ?app_nil_r; reflexivity |].
  all: split; [reflexivity |].
  all: split; [eexists; reflexivity |].
  - rewrite length_fmap.
    match goal with |- (length (staged ?w0 ?st0 ?cs0) <= _)%nat =>
      pose proof (staged_count w0 st0 cs0) as Hcount
    end.
    lia.
  - cbn. lia.
Qed.

Lemma ainvoke_frame_witness :
  let cs := [Sample.candidate "Send report" 90; Sample.candidate "Book room" 40] in
  let reply := "[" +:+ Sample.candidate_text "Send report" "90" +:+ ", "
               +:+ Sample.candidate_text "Book room" "40" +:+ "]" in
  let w := Sample.world true 70 (Ok "yes") reply (Some (JList cs)) None in
  let m := Sample.start Sample.request in
  exists final,
    ainvoke w m = Ok final /\
    content (st final) = content (st m) /\
    source (st final) = source (st m) /\
    message_id (st final) = message_id (st m) /\
    (exists extra, errors (st final) = errors (st m) ++ extra) /\
    calls final =
      (calls m ++ (if USE_LOCAL_LLM_FOR_CLASSIFICATION w
                   then [CallClassifier (classifier_prompt (content (st m)))] else []))
      ++ (if is_actionable (st final) then [CallExtractor (content (st m))] else []) /\
    pending (db final) = [] /\
    (exists added, stored (db final) = stored (db m) ++ added) /\
    (length (created_tasks (st final)) <= length (validated_tasks (st final)))%nat.
Proof.
  intros cs reply w m.
  assert (Hrun : {final | ainvoke w m = Ok final})
    by (eexists; vm_compute; reflexivity).
  destruct Hrun as [final Hrun]. exists final.
  split; [exact Hrun |]. apply (ainvoke_frame w m final Hrun).
Defined.

(** ** The date resolver *)








(** *** The pattern [in N days] *)

Lemma lower_app (a b : string) : Py.lower (a +:+ b) = Py.lower a +:+ Py.lower b.
Proof.
  induction a as [| c a IH]; simpl; [reflexivity | now rewrite IH].
Qed.

Lemma all_chars_impl (p q : ascii -> bool) (s : string) :
  (forall c, p c = true -> q c = true) ->
  all_chars p s = true -> all_chars q s = true.
Proof.
  intros Hpq. induction s as [| c s IH]; cbn; [reflexivity |].
  intros [Hc Hs]%andb_true_iff. now rewrite (Hpq c Hc), IH.
Qed.

Lemma all_chars_app (p : ascii -> bool) (a b : string) :
  all_chars p (a +:+ b) = all_chars p a && all_chars p b.
Proof.
  induction a as [| c a IH]; simpl; [reflexivity |].
  now rewrite IH, andb_assoc.
Qed.

Lemma digit_code (c : ascii) :
  Py.isdigit c = true -> (48 <= N_of_ascii c <= 57)%N.
Proof.
  unfold Py.isdigit. intros [Hlo Hhi]%andb_true_iff.
  apply N.leb_le in Hlo. apply N.leb_le in Hhi. lia.
Qed.

Lemma lower_digits (ds : string) :
  all_chars Py.isdigit ds = true -> Py.lower ds = ds.
Proof.
  induction ds as [| c ds IH]; cbn; [reflexivity |].
  intros [Hc Hds]%andb_true_iff. rewrite (IH Hds). f_equal.
  apply digit_code in Hc. unfold Py.lower_char.
  destruct (_ || _)%bool eqn:Hup; [| reflexivity].
  exfalso. apply orb_true_iff in Hup as [Hup | Hup].
  - apply andb_true_iff in Hup as [Hlo _]. apply N.leb_le in Hlo. lia.
  - apply andb_true_iff in Hup as [Hup _]. apply andb_true_iff in Hup as [Hlo _].
    apply N.leb_le in Hlo. lia.
Qed.

Lemma rstrip_app (a b : string) :
  Py.rstrip b <> EmptyString -> Py.rstrip (a +:+ b) = a +:+ Py.rstrip b.
Proof.
  intros Hb. induction a as [| c a IH]; [reflexivity |].
  change (String c a +:+ b) with (String c (a +:+ b)).
  change (String c a +:+ Py.rstrip b) with (String c (a +:+ Py.rstrip b)).
  cbn [Py.rstrip]. rewrite IH.
  destruct (a +:+ Py.rstrip b) eqn:Hab; [| reflexivity].
  destruct a; simpl in Hab; [contradiction | discriminate].
Qed.

(** A string in which the first character of [sub] does not occur does not
    contain [sub]. *)
Lemma contains_absent (k : ascii) (sub s : string) :
  all_chars (fun c => negb (Ascii.eqb c k)) s = true ->
  Py.contains (String k sub) s = false.
Proof.
  induction s as [| c s IH]; cbn; [reflexivity |].
  intros [Hc Hs]%andb_true_iff. apply negb_true_iff in Hc.
  destruct (Ascii.ascii_dec k c) as [-> | Hne].
  - now rewrite Ascii.eqb_refl in Hc.
  - exact (IH Hs).
Qed.

Lemma digit_is_not (k : ascii) (c : ascii) :
  Py.isdigit k = false -> Py.isdigit c = true -> negb (Ascii.eqb c k) = true.
Proof.
  intros Hk Hc. apply negb_true_iff. destruct (Ascii.eqb_spec c k) as [-> |];
    [congruence | reflexivity].
Qed.

Lemma span_digits_app (ds : string) (c : ascii) (rest : string) :
  all_chars Py.isdigit ds = true ->
  Py.isdigit c = false ->
  Py.span_digits (ds +:+ String c rest) = (ds, String c rest).
Proof.
  intros Hds Hc. induction ds as [| d ds IH].
  - change (EmptyString +:+ String c rest) with (String c rest).
    cbn [Py.span_digits]. now rewrite Hc.
  - change (String d ds +:+ String c rest) with (String d (ds +:+ String c rest)).
    cbn [Py.span_digits]. cbn [all_chars] in Hds.
    apply andb_true_iff in Hds as [Hd Hds]. now rewrite Hd, (IH Hds).
Qed.

(** Stripping leaves alone a string that neither starts nor ends with
    white space. *)
Lemma strip_frame (c : ascii) (a mid b : string) :
  Py.isspace c = false ->
  Py.rstrip b = b -> b <> EmptyString ->
  Py.strip (String c a +:+ mid +:+ b) = String c a +:+ mid +:+ b.
Proof.
  intros Hc Hb Hne. unfold Py.strip.
  change (String c a +:+ mid +:+ b) with (String c (a +:+ mid +:+ b)).
  cbn [Py.lstrip]. rewrite Hc.
  change (String c (a +:+ mid +:+ b)) with (String c a +:+ mid +:+ b).
  assert (Hmid : Py.rstrip (mid +:+ b) = mid +:+ b).
  { rewrite rstrip_app; rewrite Hb; [reflexivity | exact Hne]. }
  rewrite rstrip_app; rewrite Hmid; [reflexivity |].
  destruct mid; [exact Hne | discriminate].
Qed.

(** What the resolver does with a lowered and stripped expression [in N
    ...] whose tail starts with [day] and has none of the letters that the
    earlier keywords need: it converts the digits and adds the days. *)
Lemma parse_in_n_days_tail (now : datetime) (ds tail s : string) :
  ds <> EmptyString ->
  all_chars Py.isdigit ds = true ->
  Py.rstrip tail = tail -> tail <> EmptyString ->
  String.prefix "day" tail = true ->
  all_chars (fun c => negb (Ascii.eqb c "t")) tail = true ->
  all_chars (fun c => negb (Ascii.eqb c "e")) tail = true ->
  all_chars (fun c => negb (Ascii.eqb c "n")) tail = true ->
  Py.strip (Py.lower s) = "in " +:+ ds +:+ String " " tail ->
  _parse_relative_date now s = (days ← Py.int_of_digits ds; plus_days now days).
Proof.
  intros Hne Hds Hstrip Htail Hday Ht He Hn Hs.
  unfold _parse_relative_date. rewrite Hs.
  assert (Hrest : forall k, Py.isdigit k = false -> negb (Ascii.eqb " " k) = true ->
            all_chars (fun c => negb (Ascii.eqb c k)) tail = true ->
            all_chars (fun c => negb (Ascii.eqb c k)) (ds +:+ String " " tail) = true).
  { intros k Hk Hsp Hk'. rewrite all_chars_app. cbn [all_chars].
    rewrite Hsp, Hk', andb_true_r.
    eapply all_chars_impl; [| exact Hds]. intros c. now apply digit_is_not. }
  assert (H1 : Py.contains "tomorrow" ("in " +:+ ds +:+ String " " tail) = false).
  { apply contains_absent. cbn. now apply Hrest. }
  assert (H2 : Py.contains "eod" ("in " +:+ ds +:+ String " " tail) = false).
  { apply contains_absent. cbn. now apply Hrest. }
  assert (H3 : Py.contains "end of day" ("in " +:+ ds +:+ String " " tail) = false).
  { apply contains_absent. cbn. now apply Hrest. }
  assert (H4 : forall sub, Py.contains (String "n" (String "e" sub))
                             ("in " +:+ ds +:+ String " " tail) = false).
  { intros sub.
    change ("in " +:+ ds +:+ String " " tail)
      with (String "i" (String "n" (String " " (ds +:+ String " " tail)))).
    cbn [Py.contains String.prefix].
    destruct (Ascii.ascii_dec "n" "i") as [H | _]; [discriminate H |].
    destruct (Ascii.ascii_dec "n" "n") as [_ | H]; [| now contradiction H].
    destruct (Ascii.ascii_dec "e" " ") as [H | _]; [discriminate H |].
    apply contains_absent. cbn [all_chars].
    rewrite (Hrest "n"%char eq_refl eq_refl Hn). reflexivity. }
  rewrite H1, (H4 "xt week"), H2, H3, (H4 "xt month"). cbn [orb].
  assert (Hre : Py.re_search_in_days ("in " +:+ ds +:+ String " " tail) = Some ds).
  { change ("in " +:+ ds +:+ String " " tail)
      with (String "i" (String "n" (String " " (ds +:+ String " " tail)))).
    cbn [Py.re_search_in_days]. unfold Py.match_in_days.
    cbn [String.prefix Py.drop].
    destruct (Ascii.ascii_dec "i" "i") as [_ | H]; [| now contradiction H].
    destruct (Ascii.ascii_dec "n" "n") as [_ | H]; [| now contradiction H].
    destruct (Ascii.ascii_dec " " " ") as [_ | H]; [| now contradiction H].
    rewrite (span_digits_app ds " " tail Hds eq_refl).
    destruct ds; [contradiction |]. cbn [Py.is_empty].
    cbn [String.prefix].
    destruct (Ascii.ascii_dec " " " ") as [_ | H]; [| now contradiction H].
    now rewrite Hday. }
  now rewrite Hre.
Qed.

(** An expression [in N days], for a run [N] of at most 4300 decimal digits
    and in any mix of upper and lower case, resolves to the current moment
    plus [N] days, or raises [OverflowError] when that moment is beyond what
    a date can hold. A run of more than 4300 digits is refused by [int]:
    the resolver raises [ValueError]. *)
Theorem parse_in_n_days (now : datetime) (ds : string) :
  ds <> EmptyString ->
  all_chars Py.isdigit ds = true ->
  (Z.of_nat (String.length ds) <= Py.INT_MAX_STR_DIGITS ->
   _parse_relative_date now ("in " +:+ ds +:+ " days") = plus_days now (Py.int_digits 0 ds) /\
   _parse_relative_date now ("IN " +:+ ds +:+ " DAY") = plus_days now (Py.int_digits 0 ds)) /\
  (Py.INT_MAX_STR_DIGITS < Z.of_nat (String.length ds) ->
   _parse_relative_date now ("in " +:+ ds +:+ " days") = Raise ValueError /\
   _parse_relative_date now ("IN " +:+ ds +:+ " DAY") = Raise ValueError).
Proof.
  intros Hne Hds.
  assert (Hlower : _parse_relative_date now ("in " +:+ ds +:+ " days")
                   = (days ← Py.int_of_digits ds; plus_days now days)).
  { apply (parse_in_n_days_tail now ds "days"); try reflexivity; try assumption;
      [discriminate |].
    rewrite lower_app, lower_app, (lower_digits ds Hds).
    change (Py.lower "in ") with "in ". change (Py.lower " days") with " days".
    apply strip_frame; [reflexivity | reflexivity | discriminate]. }
  assert (Hupper : _parse_relative_date now ("IN " +:+ ds +:+ " DAY")
                   = (days ← Py.int_of_digits ds; plus_days now days)).
  { apply (parse_in_n_days_tail now ds "day"); try reflexivity; try assumption;
      [discriminate |].
    rewrite lower_app, lower_app, (lower_digits ds Hds).
    change (Py.lower "IN ") with "in ". change (Py.lower " DAY") with " day".
    apply strip_frame; [reflexivity | reflexivity | discriminate]. }
  rewrite Hlower, Hupper. unfold Py.int_of_digits. split; intros Hlen.
  - apply Z.ltb_ge in Hlen. rewrite Hlen. split; reflexivity.
  - apply Z.ltb_lt in Hlen. rewrite Hlen. split; reflexivity.
Qed.

(** The theorem at 14 days, and at a run of 4301 digits. *)
Lemma parse_in_n_days_witness :
  let now := Sample.morning in
  let long := string_of_list_ascii (replicate 4301 "1"%char) in
  (Z.of_nat (String.length "14") <= Py.INT_MAX_STR_DIGITS /\
   _parse_relative_date now "in 14 days" = plus_days now 14 /\
   _parse_relative_date now "IN 14 DAY" = plus_days now 14) /\
  (Py.INT_MAX_STR_DIGITS < Z.of_nat (String.length long) /\
   _parse_relative_date now ("in " +:+ long +:+ " days") = Raise ValueError /\
   _parse_relative_date now ("IN " +:+ long +:+ " DAY") = Raise ValueError).
Proof.
  intros now long. split.
  - split; [vm_compute; discriminate |].
    apply (parse_in_n_days now "14"); [discriminate | reflexivity |].
    vm_compute; discriminate.
  - assert (Hlen : Py.INT_MAX_STR_DIGITS < Z.of_nat (String.length long))
      by (vm_compute; reflexivity).
    split; [exact Hlen |].
    apply (parse_in_n_days now long); [discriminate | vm_compute; reflexivity |].
    exact Hlen.
Defined.

(** ** Code fences around the reply of the extraction service *)

Lemma string_length_app (a b : string) :
  String.length (a +:+ b) = (String.length a + String.length b)%nat.
Proof. induction a as [| c a IH]; simpl; [reflexivity | now rewrite IH]. Qed.

Lemma drop_add (a b : string) (n : nat) :
  Py.drop (String.length a + n) (a +:+ b) = Py.drop n b.
Proof. induction a as [| c a IH]; simpl; [reflexivity | exact IH]. Qed.

Lemma substring_add (a b : string) (n k : nat) :
  String.substring (String.length a + n) k (a +:+ b) = String.substring n k b.
Proof. induction a as [| c a IH]; simpl; [reflexivity | exact IH]. Qed.

Lemma substring_whole (a b : string) :
  String.substring 0 (String.length a) (a +:+ b) = a.
Proof.
  induction a as [| c a IH]; simpl.
  - now destruct b.
  - now rewrite IH.
Qed.

(** A prefix of [a +:+ b] no longer than [a] is a prefix of [a]. *)
Lemma substring_short (a b : string) (k : nat) :
  (k <= String.length a)%nat ->
  String.substring 0 k (a +:+ b) = String.substring 0 k a.
Proof.
  revert k. induction a as [| c a IH]; intros k Hk; simpl in *.
  - assert (k = 0%nat) as -> by lia. now destruct b.
  - destruct k as [| k]; [reflexivity |]. rewrite IH; [reflexivity | lia].
Qed.

Lemma find_aux_here (sub s : string) (i : nat) :
  String.prefix sub s = true -> Py.find_aux sub s i = Some i.
Proof. intros Hp. destruct s; cbn [Py.find_aux]; now rewrite Hp. Qed.

(** Searching for something that starts with a backtick skips a stretch
    without backticks. *)
Lemma find_aux_skip (sub a rest : string) (i : nat) :
  no_backtick a = true ->
  Py.find_aux (String "`" sub) (a +:+ rest) i
  = Py.find_aux (String "`" sub) rest (i + String.length a).
Proof.
  revert i. induction a as [| c a IH]; intros i Ha.
  - simpl. now rewrite Nat.add_0_r.
  - unfold no_backtick in Ha. cbn [all_chars] in Ha.
    apply andb_true_iff in Ha as [Hc Ha]. apply negb_true_iff in Hc.
    change (String c a +:+ rest) with (String c (a +:+ rest)).
    cbn [Py.find_aux String.prefix].
    destruct (Ascii.ascii_dec "`" c) as [<- | _]; [discriminate Hc |].
    rewrite (IH (S i) Ha). simpl. f_equal. lia.
Qed.

Lemma find_aux_absent (sub a : string) (i : nat) :
  no_backtick a = true -> Py.find_aux (String "`" sub) a i = None.
Proof.
  revert i. induction a as [| c a IH]; intros i Ha; [reflexivity |].
  unfold no_backtick in Ha. cbn [all_chars] in Ha.
  apply andb_true_iff in Ha as [Hc Ha]. apply negb_true_iff in Hc.
  cbn [Py.find_aux String.prefix].
  destruct (Ascii.ascii_dec "`" c) as [<- | _]; [discriminate Hc |].
  apply IH, Ha.
Qed.

Lemma contains_fence (fence pre rest : string) :
  Py.contains fence (pre +:+ fence +:+ rest) = true.
Proof. apply contains_iff. eauto. Qed.

(** The start of the payload behind a fence with the tag [json]. *)
Lemma unfence_json_start (pre rest : string) :
  no_backtick pre = true ->
  let text := pre +:+ (TRIPLE_BACKTICK +:+ "json") +:+ rest in
  Z.to_nat (Py.find (TRIPLE_BACKTICK +:+ "json") text 0 + 7)
    = (String.length pre + 7)%nat /\
  Py.drop (String.length pre + 7) text = rest /\
  forall k, String.substring (String.length pre + 7) k text = String.substring 0 k rest.
Proof.
  intros Hpre text. subst text. repeat split.
  - unfold Py.find. cbn [Py.drop].
    change (TRIPLE_BACKTICK +:+ "json") with (String "`" "``json").
    rewrite (find_aux_skip _ pre _ 0 Hpre).
    rewrite find_aux_here by (apply prefix_iff; eauto). lia.
  - now rewrite drop_add.
  - intros k. now rewrite substring_add.
Qed.

(** A reply with a closed [json] fence: what is between the fences is
    kept, stripped of white space, and the text around the fences is
    dropped. *)
Theorem unfence_json_fenced (pre body post : string) :
  no_backtick pre = true ->
  no_backtick body = true ->
  unfence (pre +:+ (TRIPLE_BACKTICK +:+ "json") +:+ body +:+ TRIPLE_BACKTICK +:+ post)
  = Py.strip body.
Proof.
  intros Hpre Hbody. unfold unfence.
  rewrite contains_fence.
  destruct (unfence_json_start pre (body +:+ TRIPLE_BACKTICK +:+ post) Hpre)
    as (Hstart & Hdrop & Hsub).
  cbv zeta. rewrite Hstart. unfold Py.find at 1. rewrite Hdrop.
  change (Py.find_aux TRIPLE_BACKTICK) with (Py.find_aux (String "`" "``")).
  rewrite (find_aux_skip _ body _ _ Hbody).
  rewrite find_aux_here by (apply prefix_iff; eauto).
  unfold Py.slice. cbv zeta.
  set (start := (String.length pre + 7)%nat).
  set (n := Z.of_nat (String.length _)).
  assert (Hn : Z.of_nat (start + String.length body) <= n).
  { subst n start. rewrite !string_length_app.
    change (String.length TRIPLE_BACKTICK) with 3%nat.
    change (String.length "json") with 4%nat. lia. }
  assert (Hnonneg : (Z.of_nat (start + String.length body) <? 0) = false)
    by (apply Z.ltb_ge; lia).
  rewrite Hnonneg.
  replace (Z.to_nat (Z.min (Z.of_nat (start + String.length body)) n - Z.of_nat start))
    with (String.length body) by lia.
  subst start. rewrite Hsub. now rewrite substring_whole.
Qed.

(** A reply whose [json] fence is never closed: the search for the closing
    fence gives -1, which as the end of the slice cuts the last character
    off the payload. *)
Theorem unfence_json_unclosed (pre body : string) :
  no_backtick pre = true ->
  no_backtick body = true ->
  unfence (pre +:+ (TRIPLE_BACKTICK +:+ "json") +:+ body)
  = Py.strip (Py.slice body 0 (-1)).
Proof.
  intros Hpre Hbody. unfold unfence.
  rewrite contains_fence.
  destruct (unfence_json_start pre body Hpre) as (Hstart & Hdrop & Hsub).
  cbv zeta. rewrite Hstart. unfold Py.find at 1. rewrite Hdrop.
  change (Py.find_aux TRIPLE_BACKTICK) with (Py.find_aux (String "`" "``")).
  rewrite (find_aux_absent _ body _ Hbody).
  unfold Py.slice. cbv zeta. cbn [Z.ltb Z.compare].
  rewrite Hsub. rewrite !string_length_app.
  change (String.length TRIPLE_BACKTICK) with 3%nat.
  change (String.length "json") with 4%nat.
  f_equal. f_equal. lia.
Qed.

Lemma unfence_json_fenced_witness :
  let pre := "Here are the tasks:" +:+ NL in
  let body := NL +:+ "[]" +:+ NL in
  let post := NL +:+ "Anything else?" in
  no_backtick pre = true /\
  no_backtick body = true /\
  unfence (pre +:+ (TRIPLE_BACKTICK +:+ "json") +:+ body +:+ TRIPLE_BACKTICK +:+ post)
  = Py.strip body.
Proof.
  intros pre body post. split; [reflexivity |]. split; [reflexivity |].
  apply (unfence_json_fenced pre body post); reflexivity.
Defined.

Lemma unfence_json_unclosed_witness :
  let pre := "Here are the tasks:" +:+ NL in
  let body := NL +:+ "[1, 2]" in
  no_backtick pre = true /\
  no_backtick body = true /\
  Py.strip (Py.slice body 0 (-1)) = "[1, 2" /\
  unfence (pre +:+ (TRIPLE_BACKTICK +:+ "json") +:+ body)
  = Py.strip (Py.slice body 0 (-1)).
Proof.
  intros pre body. split; [reflexivity |]. split; [reflexivity |].
  split; [reflexivity |].
  apply (unfence_json_unclosed pre body); reflexivity.
Defined.

(** A reply without three backticks in a row is handed to the JSON parser
    as it is, white space included. *)
Theorem unfence_plain (response_text : string) :
  Py.contains TRIPLE_BACKTICK response_text = false ->
  unfence response_text = response_text.
Proof.
  intros Hnone. unfold unfence. rewrite Hnone.
  destruct (Py.contains (TRIPLE_BACKTICK +:+ "json") response_text) eqn:Hjson;
    [| reflexivity].
  apply contains_iff in Hjson as (pre & post & ->).
  assert (Py.contains TRIPLE_BACKTICK
            (pre +:+ (TRIPLE_BACKTICK +:+ "json") +:+ post) = true) as Hyes.
  { apply contains_iff. exists pre, ("json" +:+ post). reflexivity. }
  congruence.
Qed.

Lemma unfence_plain_witness :
  Py.contains TRIPLE_BACKTICK "  [] " = false /\
  unfence "  [] " = "  [] ".
Proof.
  split; [reflexivity |]. apply (unfence_plain "  [] "). reflexivity.
Defined.

Lemma unfold_contains (sub s : string) :
  Py.contains sub s =
  if String.prefix sub s then true
  else match s with
       | EmptyString => false
       | String _ s' => Py.contains sub s'
       end.
Proof. destruct s; reflexivity. Qed.

Lemma contains_skip (sub a rest : string) :
  no_backtick a = true ->
  Py.contains (String "`" sub) (a +:+ rest) = Py.contains (String "`" sub) rest.
Proof.
  induction a as [| c a IH]; intros Ha; [reflexivity |].
  unfold no_backtick in Ha. cbn [all_chars] in Ha.
  apply andb_true_iff in Ha as [Hc Ha]. apply negb_true_iff in Hc.
  change (String c a +:+ rest) with (String c (a +:+ rest)).
  cbn [Py.contains String.prefix].
  destruct (Ascii.ascii_dec "`" c) as [<- | _]; [discriminate Hc |].
  apply IH, Ha.
Qed.

(** Appending something that starts with a backtick does not complete a
    prefix without backticks. *)
Lemma prefix_before_backtick (sub a y : string) :
  no_backtick sub = true ->
  String.prefix sub (a +:+ String "`" y) = String.prefix sub a.
Proof.
  revert a. induction sub as [| k sub IH]; intros a Hsub.
  - now destruct a.
  - unfold no_backtick in Hsub. cbn [all_chars] in Hsub.
    apply andb_true_iff in Hsub as [Hk Hsub]. apply negb_true_iff in Hk.
    destruct a as [| c a].
    + change (EmptyString +:+ String "`" y) with (String "`" y).
      cbn [String.prefix].
      destruct (Ascii.ascii_dec k "`") as [-> | _]; [discriminate Hk | reflexivity].
    + change (String c a +:+ String "`" y) with (String c (a +:+ String "`" y)).
      cbn [String.prefix]. destruct (Ascii.ascii_dec k c); [| reflexivity].
      apply IH, Hsub.
Qed.

(** Behind an untagged fence that is not followed by [json], the tagged
    fence can only occur further on. *)
Lemma contains_json_after_fence (c : ascii) (r : string) :
  Ascii.eqb c "`" = false ->
  String.prefix "json" (String c r) = false ->
  Py.contains (TRIPLE_BACKTICK +:+ "json") (TRIPLE_BACKTICK +:+ String c r)
  = Py.contains (TRIPLE_BACKTICK +:+ "json") (String c r).
Proof.
  intros Hc Hjson.
  change (TRIPLE_BACKTICK +:+ "json") with (String "`" (String "`" (String "`" "json"))).
  change (TRIPLE_BACKTICK +:+ String c r)
    with (String "`" (String "`" (String "`" (String c r)))).
  do 3 (rewrite (unfold_contains _ (String "`" _))).
  cbn [String.prefix] in Hjson |- *.
  destruct (Ascii.ascii_dec "`" "`") as [_ | H]; [| now contradiction H].
  rewrite Hjson.
  destruct (Ascii.ascii_dec "`" c) as [<- | _]; [discriminate Hc |].
  reflexivity.
Qed.

Lemma contains_json_behind_fence (post : string) :
  no_backtick post = true ->
  String.prefix "json" post = false ->
  Py.contains (TRIPLE_BACKTICK +:+ "json") (TRIPLE_BACKTICK +:+ post) = false.
Proof.
  intros Hpost Hjson. destruct post as [| d p]; [reflexivity |].
  assert (Hd : Ascii.eqb d "`" = false).
  { unfold no_backtick in Hpost. cbn [all_chars] in Hpost.
    apply andb_true_iff in Hpost as [Hd _]. now apply negb_true_iff in Hd. }
  rewrite (contains_json_after_fence d p Hd Hjson).
  apply contains_absent, Hpost.
Qed.

(** A reply with a closed fence without a tag, where neither the payload
    nor the text behind the closing fence starts with [json]: what is
    between the fences is kept, stripped of white space. *)
Theorem unfence_fenced (pre body post : string) :
  no_backtick pre = true ->
  no_backtick body = true ->
  no_backtick post = true ->
  body <> EmptyString ->
  String.prefix "json" body = false ->
  String.prefix "json" post = false ->
  unfence (pre +:+ TRIPLE_BACKTICK +:+ body +:+ TRIPLE_BACKTICK +:+ post)
  = Py.strip body.
Proof.
  intros Hpre Hbody Hpost Hne Hjb Hjp. unfold unfence.
  assert (Hnojson : Py.contains (TRIPLE_BACKTICK +:+ "json")
            (pre +:+ TRIPLE_BACKTICK +:+ body +:+ TRIPLE_BACKTICK +:+ post) = false).
  { change (TRIPLE_BACKTICK +:+ "json") with (String "`" "``json").
    rewrite (contains_skip _ pre _ Hpre).
    change (String "`" "``json") with (TRIPLE_BACKTICK +:+ "json").
    destruct body as [| c body']; [contradiction |].
    assert (Hc : Ascii.eqb c "`" = false).
    { unfold no_backtick in Hbody. cbn [all_chars] in Hbody.
      apply andb_true_iff in Hbody as [Hc _]. now apply negb_true_iff in Hc. }
    change (String c body' +:+ TRIPLE_BACKTICK +:+ post)
      with (String c (body' +:+ TRIPLE_BACKTICK +:+ post)).
    rewrite contains_json_after_fence; [| exact Hc |].
    - change (String c (body' +:+ TRIPLE_BACKTICK +:+ post))
        with (String c body' +:+ TRIPLE_BACKTICK +:+ post).
      change (TRIPLE_BACKTICK +:+ "json") with (String "`" "``json").
      rewrite (contains_skip _ (String c body') _ Hbody).
      now apply contains_json_behind_fence.
    - change (String c (body' +:+ TRIPLE_BACKTICK +:+ post))
        with (String c body' +:+ String "`" ("``" +:+ post)).
      now rewrite prefix_before_backtick. }
  rewrite Hnojson, contains_fence. cbv zeta.
  assert (Hstart : Z.to_nat (Py.find TRIPLE_BACKTICK
            (pre +:+ TRIPLE_BACKTICK +:+ body +:+ TRIPLE_BACKTICK +:+ post) 0 + 3)
          = (String.length pre + 3)%nat).
  { unfold Py.find. cbn [Py.drop].
    change (Py.find_aux TRIPLE_BACKTICK) with (Py.find_aux (String "`" "``")).
    rewrite (find_aux_skip _ pre _ 0 Hpre).
    rewrite find_aux_here by (apply prefix_iff; eauto). lia. }
  rewrite Hstart. unfold Py.find at 1. rewrite drop_add.
  change (Py.drop 3 (TRIPLE_BACKTICK +:+ body +:+ TRIPLE_BACKTICK +:+ post))
    with (body +:+ TRIPLE_BACKTICK +:+ post).
  change (Py.find_aux TRIPLE_BACKTICK) with (Py.find_aux (String "`" "``")).
  rewrite (find_aux_skip _ body _ _ Hbody).
  rewrite find_aux_here by (apply prefix_iff; eauto).
  unfold Py.slice. cbv zeta.
  set (start := (String.length pre + 3)%nat).
  set (n := Z.of_nat (String.length _)).
  assert (Hn : Z.of_nat (start + String.length body) <= n).
  { subst n start. rewrite !string_length_app.
    change (String.length TRIPLE_BACKTICK) with 3%nat. lia. }
  assert (Hnonneg : (Z.of_nat (start + String.length body) <? 0) = false)
    by (apply Z.ltb_ge; lia).
  rewrite Hnonneg.
  replace (Z.to_nat (Z.min (Z.of_nat (start + String.length body)) n - Z.of_nat start))
    with (String.length body) by lia.
  subst start. rewrite substring_add.
  change (String.substring 3 (String.length body)
            (TRIPLE_BACKTICK +:+ body +:+ TRIPLE_BACKTICK +:+ post))
    with (String.substring 0 (String.length body) (body +:+ TRIPLE_BACKTICK +:+ post)).
  now rewrite substring_whole.
Qed.

Lemma unfence_fenced_witness :
  let pre := "Result:" +:+ NL in
  let body := NL +:+ "[]" +:+ NL in
  let post := NL in
  no_backtick pre = true /\
  no_backtick body = true /\
  no_backtick post = true /\
  body <> EmptyString /\
  String.prefix "json" body = false /\
  String.prefix "json" post = false /\
  unfence (pre +:+ TRIPLE_BACKTICK +:+ body +:+ TRIPLE_BACKTICK +:+ post)
  = Py.strip body.
Proof.
  intros pre body post.
  split; [reflexivity |]. split; [reflexivity |]. split; [reflexivity |].
  split; [discriminate |]. split; [reflexivity |]. split; [reflexivity |].
  apply (unfence_fenced pre body post); try reflexivity. discriminate.
Defined.

(** ** The verdict of the classification client *)

Lemma string_app_assoc (a b c : string) : (a +:+ b) +:+ c = a +:+ b +:+ c.
Proof.
  induction a as [| x a IH]; [reflexivity |].
  change (String x ((a +:+ b) +:+ c) = String x (a +:+ b +:+ c)). now rewrite IH.
Qed.

Lemma lower_length (s : string) : String.length (Py.lower s) = String.length s.
Proof. induction s as [| c s IH]; simpl; [reflexivity | now rewrite IH]. Qed.

(** A split of the lowered string comes from a split of the string. *)
Lemma lower_split (a b : string) :
  forall s : string,
    Py.lower s = a +:+ b ->
    exists s1 s2, s = s1 +:+ s2 /\ Py.lower s1 = a /\ Py.lower s2 = b.
Proof.
  induction a as [| x a IH]; intros s Hs.
  - exists EmptyString, s. repeat split. exact Hs.
  - destruct s as [| c s]; [discriminate |].
    change (String x a +:+ b) with (String x (a +:+ b)) in Hs.
    cbn [Py.lower] in Hs. injection Hs as Hc Hs.
    destruct (IH s Hs) as (s1 & s2 & -> & <- & <-).
    exists (String c s1), s2. repeat split. cbn [Py.lower]. now rewrite Hc.
Qed.

Lemma substring_drop (s : string) :
  forall k : nat, String.substring 0 k s +:+ Py.drop k s = s.
Proof.
  induction s as [| c s IH]; intros [| k]; try reflexivity.
  cbn [String.substring Py.drop].
  change (String c (String.substring 0 k s +:+ Py.drop k s) = String c s).
  now rewrite IH.
Qed.

Lemma substring_long (a b : string) (k : nat) :
  (String.length a <= k)%nat ->
  String.substring 0 k (a +:+ b) = a +:+ String.substring 0 (k - String.length a) b.
Proof.
  revert k. induction a as [| c a IH]; intros k Hk.
  - change (EmptyString +:+ b) with b. cbn [String.length]. now rewrite Nat.sub_0_r.
  - cbn [String.length] in *. destruct k as [| k]; [lia |].
    change (String c a +:+ b) with (String c (a +:+ b)).
    cbn [String.substring Nat.sub]. rewrite IH by lia. reflexivity.
Qed.

Lemma slice_first (s : string) (k : nat) :
  Py.slice s 0 (Z.of_nat k) = String.substring 0 (Nat.min k (String.length s)) s.
Proof.
  unfold Py.slice. cbv zeta.
  assert ((Z.of_nat k <? 0) = false) as -> by (apply Z.ltb_ge; lia).
  f_equal. lia.
Qed.

(** The verdict on a reply is [True] exactly when [yes], in any mix of upper
    and lower case, occurs within the first ten characters of the reply;
    what comes after the tenth character is not looked at. *)
Theorem is_actionable_reads_first_ten (w : World) (message reply : string) :
  ollama_generate w (classifier_prompt message) = Ok reply ->
  exists verdict : bool,
    OllamaClient_is_actionable w message = Ok verdict /\
    (verdict = true <->
     exists pre y post,
       reply = pre +:+ y +:+ post /\ Py.lower y = "yes" /\
       (String.length pre + 3 <= 10)%nat).
Proof.
  intros Hreply. unfold OllamaClient_is_actionable, OllamaClient_generate.
  rewrite Hreply. cbn [try_except mbind result_bind].
  eexists. split; [reflexivity |].
  change 10 with (Z.of_nat 10). rewrite slice_first, lower_length.
  set (k := Nat.min 10 (String.length reply)).
  rewrite contains_iff. split.
  - intros (a & b & Hsub).
    pose proof (substring_drop (Py.lower reply) k) as Hwhole.
    rewrite Hsub in Hwhole. rewrite !string_app_assoc in Hwhole.
    symmetry in Hwhole.
    apply lower_split in Hwhole as (pre & rest & -> & Hpre & Hrest).
    apply lower_split in Hrest as (y & post & -> & Hy & _).
    exists pre, y, post. split; [reflexivity |]. split; [exact Hy |].
    pose proof (substring_length_le (Py.lower (pre +:+ y +:+ post)) 0 k) as Hlen.
    rewrite Hsub in Hlen. rewrite !string_length_app in Hlen.
    cbn [String.length] in Hlen. rewrite <- Hpre in Hlen.
    rewrite lower_length in Hlen. subst k. lia.
  - intros (pre & y & post & Heq & Hy & Hlen).
    exists (Py.lower pre), (String.substring 0 (k - String.length pre - 3) (Py.lower post)).
    rewrite Heq, !lower_app, Hy.
    assert (Hk : (String.length pre + 3 <= k)%nat).
    { subst k. rewrite Heq, !string_length_app.
      assert (String.length y = 3%nat) as ->
        by (rewrite <- (lower_length y), Hy; reflexivity).
      lia. }
    rewrite substring_long by (rewrite lower_length; lia).
    rewrite lower_length. f_equal.
    rewrite (substring_long "yes") by (cbn [String.length]; lia).
    cbn [String.length]. repeat f_equal; lia.
Qed.

Lemma is_actionable_reads_first_ten_witness :
  let w := Sample.world true 70 (Ok "I say YES, it is.") "[]" (Some (JList [])) None in
  ollama_generate w (classifier_prompt Sample.request) = Ok "I say YES, it is." /\
  exists verdict : bool,
    OllamaClient_is_actionable w Sample.request = Ok verdict /\
    (verdict = true <->
     exists pre y post,
       "I say YES, it is." = pre +:+ y +:+ post /\ Py.lower y = "yes" /\
       (String.length pre + 3 <= 10)%nat).
Proof.
  intros w. split; [reflexivity |].
  apply (is_actionable_reads_first_ten w Sample.request "I say YES, it is.").
  reflexivity.
Defined.

(** The classifier is shown the first 500 characters of the message only:
    two messages that agree on them get the same prompt and the same
    verdict, whatever follows. *)
Theorem is_actionable_ignores_tail (w : World) (head tail1 tail2 : string) :
  String.length head = 500%nat ->
  classifier_prompt (head +:+ tail1) = classifier_prompt (head +:+ tail2) /\
  OllamaClient_is_actionable w (head +:+ tail1)
  = OllamaClient_is_actionable w (head +:+ tail2).
Proof.
  intros Hlen.
  assert (Hprompt : forall tail, Py.slice (head +:+ tail) 0 500 = head).
  { intros tail. change 500 with (Z.of_nat 500). rewrite slice_first.
    rewrite string_length_app, Hlen.
    replace (Nat.min 500 (500 + String.length tail)) with (String.length head) by lia.
    apply substring_whole. }
  assert (Heq : classifier_prompt (head +:+ tail1) = classifier_prompt (head +:+ tail2)).
  { unfold classifier_prompt. now rewrite !Hprompt. }
  split; [exact Heq |].
  unfold OllamaClient_is_actionable. now rewrite Heq.
Qed.

Lemma is_actionable_ignores_tail_witness :
  let w := Sample.world true 70 (Ok "no") "[]" (Some (JList [])) None in
  let head := Sample.long_title EmptyString in
  String.length head = 500%nat /\
  classifier_prompt (head +:+ " Please send the report.")
    = classifier_prompt (head +:+ " Thanks!") /\
  OllamaClient_is_actionable w (head +:+ " Please send the report.")
  = OllamaClient_is_actionable w (head +:+ " Thanks!").
Proof.
  intros w head.
  assert (Hlen : String.length head = 500%nat) by (vm_compute; reflexivity).
  split; [exact Hlen |].
  apply (is_actionable_ignores_tail w head " Please send the report." " Thanks!" Hlen).
Defined.

(** ** The endpoint that runs the pipeline *)

(** A record the Generate stage reports is a row of the table. *)
Lemma commit_all_created_stored (w : World) (s : Session) (created : list Task)
    (errs : list diagnostic) (t : Task) :
  created ⊆ pending s ->
  t ∈ (commit_all w s created errs).1.2 ->
  t ∈ stored (commit_all w s created errs).1.1.
Proof.
  unfold commit_all, session_commit. intros Hsub.
  destruct (db_commit w (pending s)); cbn; [intros Hin; inversion Hin |].
  destruct (mapM (session_refresh w) created) as [reloaded |] eqn:Hmap; cbn;
    [| intros Hin; inversion Hin].
  apply mapM_refresh_inv in Hmap as ->.
  intros Hin. apply elem_of_app. right.
  apply list_elem_of_fmap in Hin as (built & -> & Hin).
  apply list_elem_of_fmap. exists built. split; [reflexivity | now apply Hsub].
Qed.

Lemma ainvoke_created_stored (w : World) (m final : Machine) (t : Task) :
  ainvoke w m = Ok final ->
  t ∈ created_tasks (st final) ->
  t ∈ stored (db final).
Proof.
  unfold ainvoke.
  destruct (analyze_message w m) as [m1 |]; [| discriminate]. cbn [mbind result_bind].
  destruct (extract_tasks w m1) as [m2 |]; [| discriminate]. cbn [mbind result_bind].
  destruct (validate_tasks w m2) as [m3 |]; [| discriminate]. cbn [mbind result_bind].
  rewrite generate_tasks_unfold. intros [= <-]. cbn [st db created_tasks with_created_tasks].
  apply commit_all_created_stored. cbn [pending].
  intros x Hx. apply elem_of_app. now right.
Qed.

Lemma mapM_validate_response_ok (aw : ApiWorld) (l responses : list Task) :
  mapM (validate_response aw) l = Ok responses -> responses = l.
Proof.
  revert responses. induction l as [| t l IH]; intros responses.
  - now intros [= <-].
  - change (mapM (validate_response aw) (t :: l))
      with (y ← validate_response aw t; k ← mapM (validate_response aw) l; mret (y :: k)).
    destruct (model_validate aw t) as [e |] eqn:Ht.
    + assert (validate_response aw t = Raise e) as ->
        by (unfold validate_response; now rewrite Ht).
      intros [=].
    + assert (validate_response aw t = Ok t) as ->
        by (unfold validate_response; now rewrite Ht).
      destruct (mapM (validate_response aw) l) as [k |]; [| intros [=]].
      intros [= <-]. now rewrite (IH k eq_refl).
Qed.

Lemma mapM_validate_response_fails (aw : ApiWorld) (l : list Task) (t : Task) :
  t ∈ l -> model_validate aw t <> None ->
  exists e, mapM (validate_response aw) l = Raise e.
Proof.
  induction l as [| x l IH]; intros Hin Hbad; [inversion Hin |].
  change (mapM (validate_response aw) (x :: l))
    with (y ← validate_response aw x; k ← mapM (validate_response aw) l; mret (y :: k)).
  destruct (model_validate aw x) as [e |] eqn:Hx.
  - assert (validate_response aw x = Raise e) as ->
      by (unfold validate_response; now rewrite Hx).
    eexists; reflexivity.
  - assert (validate_response aw x = Ok x) as ->
      by (unfold validate_response; now rewrite Hx).
    apply elem_of_cons in Hin as [-> | Hin]; [congruence |].
    destruct (IH Hin Hbad) as [e ->]. eexists; reflexivity.
Qed.

(** When the endpoint answers with a body, the run of the pipeline
    returned; the body lists exactly the records the run created, with their
    number, every one of them is a row of the table, and the message is
    stored as processed and as actionable exactly when at least one record
    was created, whatever the classifier said. *)
Theorem infer_tasks_response (w : World) (aw : ApiWorld)
    (request_content request_source : string) (s : Session)
    (body : InferTasksResponse) (store : Store) :
  infer_tasks w aw request_content request_source s = (Respond body, store) ->
  exists (id : Z) (final : Machine) (row : Msg.Message),
    refresh_message aw = Ok id /\
    ainvoke w {| st := initial_state request_content request_source id;
                 db := s; calls := [] |} = Ok final /\
    tasks body = created_tasks (st final) /\
    tasks_inferred body = length (tasks body) /\
    (forall t, t ∈ tasks body -> t ∈ stored (session store)) /\
    message_row store = Some row /\
    Msg.content row = request_content /\
    Msg.processed row = true /\
    Msg.is_actionable row = Some (0 <? length (tasks body))%nat.
Proof.
  unfold infer_tasks, infer_tasks_except.
  destruct (commit_insert aw); [discriminate |].
  destruct (refresh_message aw) as [id |]; [| discriminate].
  destruct (ainvoke w _) as [final |] eqn:Hrun;
    [| destruct (commit_failed aw); discriminate].
  cbv zeta.
  destruct (commit_processed aw); [destruct (commit_failed aw); discriminate |].
  destruct (mapM (validate_response aw) (created_tasks (st final)))
    as [responses |] eqn:Hmap; [| destruct (commit_failed aw); discriminate].
  apply mapM_validate_response_ok in Hmap as ->.
  intros [= <- <-]. exists id, final. eexists.
  split; [reflexivity |]. split; [exact Hrun |]. cbn.
  repeat split. intros t Ht. eapply ainvoke_created_stored; eassumption.
Qed.

(** Once the message is stored and has its id, and the commit of the error
    path works, a request ends in a body or in [HTTPException] 500
    [INFERENCE_FAILED], and either way the message is stored as processed;
    in the error case it is stored as not actionable. *)
Theorem infer_tasks_marks_message (w : World) (aw : ApiWorld)
    (request_content request_source : string) (s : Session) (id : Z) :
  commit_insert aw = None ->
  refresh_message aw = Ok id ->
  commit_failed aw = None ->
  exists (out : outcome) (store : Store) (row : Msg.Message),
    infer_tasks w aw request_content request_source s = (out, store) /\
    message_row store = Some row /\
    Msg.processed row = true /\
    ((exists body, out = Respond body /\
                   Msg.is_actionable row = Some (0 <? tasks_inferred body)%nat) \/
     (out = HTTPException 500 "INFERENCE_FAILED" /\
      Msg.is_actionable row = Some false)).
Proof.
  intros Hinsert Hrefresh Hfailed.
  unfold infer_tasks, infer_tasks_except. rewrite Hinsert, Hrefresh, Hfailed.
  destruct (ainvoke w _) as [final |].
  - cbv zeta. destruct (commit_processed aw).
    + do 3 eexists. split; [reflexivity |]. cbn. repeat split. now right.
    + destruct (mapM (validate_response aw) (created_tasks (st final))).
      * do 3 eexists. split; [reflexivity |]. cbn. repeat split.
        left. eexists. split; reflexivity.
      * do 3 eexists. split; [reflexivity |]. cbn. repeat split. now right.
  - do 3 eexists. split; [reflexivity |]. cbn. repeat split. now right.
Qed.

(** When the run of the pipeline returned but the commit that marks the
    message fails, or a created record is refused by the response model, the
    request does not end in a body, although the records the run created
    are rows of the table. What the caller gets depends on the commit of the
    [except] block, before which the session is not rolled back: when that
    commit succeeds, the request ends in [HTTPException] 500 and the message
    is stored as processed and not actionable; when it fails too, its
    exception leaves the endpoint, and the message row is as the last
    successful commit left it, unprocessed if that was the insert. *)
Theorem infer_tasks_failure_keeps_tasks (w : World) (aw : ApiWorld)
    (request_content request_source : string) (s : Session) (id : Z)
    (final : Machine) :
  commit_insert aw = None ->
  refresh_message aw = Ok id ->
  ainvoke w {| st := initial_state request_content request_source id;
               db := s; calls := [] |} = Ok final ->
  commit_processed aw <> None \/
  (exists t, t ∈ created_tasks (st final) /\ model_validate aw t <> None) ->
  exists (out : outcome) (store : Store) (row : Msg.Message),
    infer_tasks w aw request_content request_source s = (out, store) /\
    session store = db final /\
    (forall t, t ∈ created_tasks (st final) -> t ∈ stored (session store)) /\
    message_row store = Some row /\
    (commit_failed aw = None ->
       out = HTTPException 500 "INFERENCE_FAILED" /\
       Msg.processed row = true /\
       Msg.is_actionable row = Some false) /\
    (forall e : exn,
       commit_failed aw = Some e ->
       out = Unhandled e /\
       (commit_processed aw <> None ->
          Msg.processed row = false /\ Msg.is_actionable row = None) /\
       (commit_processed aw = None ->
          Msg.processed row = true /\
          Msg.is_actionable row
          = Some (0 <? length (created_tasks (st final)))%nat)).
Proof.
  intros Hinsert Hrefresh Hrun Hcause.
  unfold infer_tasks, infer_tasks_except. rewrite Hinsert, Hrefresh, Hrun.
  cbv zeta.
  assert (Hstored : forall t, t ∈ created_tasks (st final) -> t ∈ stored (db final)).
  { intros t Ht. eapply ainvoke_created_stored; eassumption. }
  destruct (commit_processed aw) as [e1 |] eqn:Hcommit.
  - destruct (commit_failed aw) as [e2 |]; do 3 eexists;
      (split; [reflexivity |]); cbn; (split; [reflexivity |]);
      (split; [exact Hstored |]); (split; [reflexivity |]).
    + split; [discriminate |]. intros e [= <-].
      split; [reflexivity |]. split; [intros _; split; reflexivity |].
      intros [=].
    + split; [intros _; repeat split |]. intros e [=].
  - destruct Hcause as [Hbad | (t & Ht & Hbad)]; [congruence |].
    destruct (mapM_validate_response_fails aw _ t Ht Hbad) as [e1 ->].
    destruct (commit_failed aw) as [e2 |]; do 3 eexists;
      (split; [reflexivity |]); cbn; (split; [reflexivity |]);
      (split; [exact Hstored |]); (split; [reflexivity |]).
    + split; [discriminate |]. intros e [= <-].
      split; [reflexivity |]. split; [intros Habs; now contradiction Habs |].
      intros _. split; reflexivity.
    + split; [intros _; repeat split |]. intros e [=].
Qed.

Lemma infer_tasks_response_witness :
  let w := SampleApi.two_proposals in
  let aw := SampleApi.api None in
  exists (body : InferTasksResponse) (store : Store),
    infer_tasks w aw Sample.request "manual_text" Sample.empty_session
      = (Respond body, store) /\
    length (tasks body) = 1%nat /\
    exists (id : Z) (final : Machine) (row : Msg.Message),
      refresh_message aw = Ok id /\
      ainvoke w {| st := initial_state Sample.request "manual_text" id;
                   db := Sample.empty_session; calls := [] |} = Ok final /\
      tasks body = created_tasks (st final) /\
      tasks_inferred body = length (tasks body) /\
      (forall t, t ∈ tasks body -> t ∈ stored (session store)) /\
      message_row store = Some row /\
      Msg.content row = Sample.request /\
      Msg.processed row = true /\
      Msg.is_actionable row = Some (0 <? length (tasks body))%nat.
Proof.
  intros w aw.
  destruct (infer_tasks w aw Sample.request "manual_text" Sample.empty_session)
    as [out store] eqn:Hrun.
  assert (Hout : exists body, out = Respond body /\ length (tasks body) = 1%nat).
  { apply (f_equal fst) in Hrun. cbn [fst] in Hrun. subst out.
    vm_compute. eexists. split; reflexivity. }
  destruct Hout as (body & -> & Hlen).
  exists body, store. split; [reflexivity |]. split; [exact Hlen |].
  apply (infer_tasks_response w aw Sample.request "manual_text" Sample.empty_session
           body store Hrun).
Defined.

Lemma infer_tasks_marks_message_witness :
  let w := SampleApi.two_proposals in
  let aw := SampleApi.api None in
  commit_insert aw = None /\
  refresh_message aw = Ok 1 /\
  commit_failed aw = None /\
  exists (out : outcome) (store : Store) (row : Msg.Message),
    infer_tasks w aw Sample.request "manual_text" Sample.empty_session = (out, store) /\
    message_row store = Some row /\
    Msg.processed row = true /\
    ((exists body, out = Respond body /\
                   Msg.is_actionable row = Some (0 <? tasks_inferred body)%nat) \/
     (out = HTTPException 500 "INFERENCE_FAILED" /\
      Msg.is_actionable row = Some false)).
Proof.
  intros w aw.
  split; [reflexivity |]. split; [reflexivity |]. split; [reflexivity |].
  apply (infer_tasks_marks_message w aw Sample.request "manual_text"
           Sample.empty_session 1); reflexivity.
Defined.

(** The theorem at a request whose marking commit fails, with a commit of
    the [except] block that succeeds and with one that fails. *)
Lemma infer_tasks_failure_keeps_tasks_witness :
  let w := SampleApi.two_proposals in
  let lost := OtherError "connection lost" in
  let aw := SampleApi.api (Some lost) in
  let aw' := SampleApi.api_except (Some lost) (Some lost) in
  exists (final : Machine) (t : Task),
    ainvoke w {| st := initial_state Sample.request "manual_text" 1;
                 db := Sample.empty_session; calls := [] |} = Ok final /\
    created_tasks (st final) = [t] /\
    (exists (store : Store) (row : Msg.Message),
       infer_tasks w aw Sample.request "manual_text" Sample.empty_session
         = (HTTPException 500 "INFERENCE_FAILED", store) /\
       t ∈ stored (session store) /\
       message_row store = Some row /\
       Msg.processed row = true /\
       Msg.is_actionable row = Some false) /\
    (exists (store : Store) (row : Msg.Message),
       infer_tasks w aw' Sample.request "manual_text" Sample.empty_session
         = (Unhandled lost, store) /\
       t ∈ stored (session store) /\
       message_row store = Some row /\
       Msg.processed row = false /\
       Msg.is_actionable row = None).
Proof.
  intros w lost aw aw'.
  destruct (ainvoke w {| st := initial_state Sample.request "manual_text" 1;
                         db := Sample.empty_session; calls := [] |})
    as [final | e] eqn:Hrun; [| vm_compute in Hrun; discriminate Hrun].
  assert (Hfinal : from_option id final
                     (match ainvoke w {| st := initial_state Sample.request "manual_text" 1;
                                         db := Sample.empty_session; calls := [] |}
                      with Ok m => Some m | Raise _ => None end) = final)
    by now rewrite Hrun.
  assert (Hone : exists t, created_tasks (st final) = [t]).
  { rewrite <- Hfinal. vm_compute. eexists. reflexivity. }
  destruct Hone as [t Hone].
  assert (Hin : t ∈ created_tasks (st final))
    by (rewrite Hone; apply list_elem_of_here).
  assert (Hcommit : commit_processed aw <> None) by discriminate.
  assert (Hcommit' : commit_processed aw' <> None) by discriminate.
  exists final, t. split; [reflexivity |]. split; [exact Hone |]. split.
  - destruct (infer_tasks_failure_keeps_tasks w aw Sample.request "manual_text"
                Sample.empty_session 1 final eq_refl eq_refl Hrun
                (or_introl Hcommit))
      as (out & store & row & Hout & _ & Hstored & Hrow & Hhandled & _).
    destruct (Hhandled eq_refl) as (-> & Hdone & Hflag).
    exists store, row. repeat split; try assumption. now apply Hstored.
  - destruct (infer_tasks_failure_keeps_tasks w aw' Sample.request "manual_text"
                Sample.empty_session 1 final eq_refl eq_refl Hrun
                (or_introl Hcommit'))
      as (out & store & row & Hout & _ & Hstored & Hrow & _ & Hunhandled).
    destruct (Hunhandled lost eq_refl) as (-> & Hfirst & _).
    destruct (Hfirst Hcommit') as [Hdone Hflag].
    exists store, row. repeat split; try assumption. now apply Hstored.
Defined.
